(** * BeagleG motion planner: a shallow embedding of gcode-machine-control

    The planner of [GCodeMachineControl::Impl] is translated function by
    function.  The conventions of the translation:

    - C's [int] is a [Z]; every signed operation that would leave the
      32-bit range is undefined behaviour in C and yields [Err Undefined]
      here, as does a float-to-int conversion of a value that does not fit.
    - C's [float] is IEEE-754 binary32 and [double] binary64, both with
      round-to-nearest-even, every operation rounded on its own (no fused
      multiply-add, no excess precision); they are [spec_float] values
      computed by the Standard Library's [SpecFloat] at the two formats.
    - a failing [assert] aborts the program: [Err AssertFailed].
    - arrays indexed by [enum GCodeParserAxis] are total functions from the
      enumeration, arrays indexed by the motor number functions from [nat]
      that the loops visit below [BEAGLEG_NUM_MOTORS].
    - diagnostics written to [stderr] are not part of the model; what goes
      to [msg_stream_] through [mprintf] is. *)

From Stdlib Require Import ZArith List Bool Lia String Ascii Sorted.
From Stdlib Require Import SpecFloat.
Import ListNotations.
Open Scope Z_scope.

(** ** Outcomes of a call *)

Inductive fault : Type :=
| AssertFailed   (* an assert() of the source, or of the ring buffer, failed *)
| Undefined      (* signed overflow, or a float-to-int conversion out of range *)
| OutOfFuel.     (* a polling loop did not finish within the given bound *)

Inductive result (A : Type) : Type :=
| Ok (a : A)
| Err (f : fault).
Arguments Ok {A} a.
Arguments Err {A} f.

Definition bind {A B : Type} (r : result A) (k : A -> result B) : result B :=
  match r with
  | Ok a => k a
  | Err f => Err f
  end.

Notation "x <- c ;; k" := (bind c (fun x => k))
  (at level 61, c at next level, right associativity).
Notation "' pat <- c ;; k" := (bind c (fun x => match x with pat => k end))
  (at level 61, pat pattern, c at next level, right associativity).

Definition c_assert (b : bool) : result unit :=
  if b then Ok tt else Err AssertFailed.

(** ** The C integers *)

Module CInt.

Definition INT_MIN : Z := - 2 ^ 31.
Definition INT_MAX : Z := 2 ^ 31 - 1.

Definition in_range (z : Z) : bool := (INT_MIN <=? z) && (z <=? INT_MAX).

(** The value of a signed expression, when it is defined. *)
Definition int (z : Z) : result Z :=
  if in_range z then Ok z else Err Undefined.

Definition add (a b : Z) : result Z := int (a + b).
Definition sub (a b : Z) : result Z := int (a - b).
Definition mul (a b : Z) : result Z := int (a * b).
(** [abs] of <stdlib.h>: undefined on [INT_MIN]. *)
Definition abs (a : Z) : result Z := int (Z.abs a).

End CInt.

(** ** The C floating-point numbers *)

Definition float : Type := spec_float.   (* binary32 *)
Definition double : Type := spec_float.  (* binary64 *)

Module F32.

Definition prec : Z := 24.
Definition emax : Z := 128.

Definition add : float -> float -> float := SFadd prec emax.
Definition sub : float -> float -> float := SFsub prec emax.
Definition mul : float -> float -> float := SFmul prec emax.
Definition div : float -> float -> float := SFdiv prec emax.
Definition sqrtf : float -> float := SFsqrt prec emax.
Definition fabsf : float -> float := SFabs.

Definition ltb : float -> float -> bool := SFltb.
Definition leb : float -> float -> bool := SFleb.
Definition eqb : float -> float -> bool := SFeqb.
Definition gtb (x y : float) : bool := SFltb y x.

(** Conversion of an [int] (or an integer literal) to [float]. *)
Definition of_int (z : Z) : float := binary_normalize prec emax z 0 false.

Definition zero : float := S754_zero false.
Definition one : float := of_int 1.

(** [roundf]: to the nearest integer, halfway cases away from zero. *)
Definition roundf (x : float) : float :=
  match x with
  | S754_finite s m e =>
      if 0 <=? e then x
      else
        let q := Z.shiftr (Zpos m + Z.shiftl 1 (- e - 1)) (- e) in
        match q with
        | Z0 => S754_zero s
        | _ => binary_normalize prec emax (cond_Zopp s q) 0 s
        end
  | _ => x
  end.

(** The integer a finite float truncates to (toward zero). *)
Definition truncZ (x : float) : option Z :=
  match x with
  | S754_zero _ => Some 0
  | S754_finite s m e =>
      Some (cond_Zopp s (if 0 <=? e then Z.shiftl (Zpos m) e
                          else Z.shiftr (Zpos m) (- e)))
  | _ => None
  end.

(** The conversion [(int) x]: undefined unless the truncated value fits. *)
Definition to_int (x : float) : result Z :=
  match truncZ x with
  | Some z => CInt.int z
  | None => Err Undefined
  end.

End F32.

Module F64.

Definition prec : Z := 53.
Definition emax : Z := 1024.

Definition add : double -> double -> double := SFadd prec emax.
Definition mul : double -> double -> double := SFmul prec emax.
Definition div : double -> double -> double := SFdiv prec emax.
Definition ltb : double -> double -> bool := SFltb.
Definition leb : double -> double -> bool := SFleb.

Definition of_int (z : Z) : double := binary_normalize prec emax z 0 false.

(** Promotion of a [float] to [double]: exact, the mantissa re-aligned. *)
Definition of_float (x : float) : double :=
  match x with
  | S754_finite s m e => binary_normalize prec emax (cond_Zopp s (Zpos m)) e s
  | _ => x
  end.

(** Conversion of a [double] to [float]: rounded to nearest. *)
Definition to_float (x : double) : float :=
  match x with
  | S754_finite s m e => binary_normalize F32.prec F32.emax (cond_Zopp s (Zpos m)) e s
  | _ => x
  end.

(** A decimal literal [n / 10^k], as the compiler rounds it to a double. *)
Definition decimal (n : Z) (k : Z) : double := div (of_int n) (of_int (10 ^ k)).

Definition to_int (x : double) : result Z := F32.to_int x.

End F64.

Declare Scope f32_scope.
Delimit Scope f32_scope with f32.
Infix "+" := F32.add : f32_scope.
Infix "-" := F32.sub : f32_scope.
Infix "*" := F32.mul : f32_scope.
Infix "/" := F32.div : f32_scope.
Infix "<?" := F32.ltb : f32_scope.
Infix "<=?" := F32.leb : f32_scope.
Infix ">?" := F32.gtb : f32_scope.
Infix "=?" := F32.eqb : f32_scope.

Definition round2int (x : float) : result Z := F32.to_int (F32.roundf x).

(** ** Data model *)

(** Modelled from the spec: [enum GCodeParserAxis] is declared in
    gcode-parser.h, which is not among the sources; the axes are, in this
    order, X Y Z E A B C U V W ([GCODE_NUM_AXES] = 10). *)
Inductive GCodeParserAxis : Type :=
| AXIS_X | AXIS_Y | AXIS_Z | AXIS_E | AXIS_A
| AXIS_B | AXIS_C | AXIS_U | AXIS_V | AXIS_W.

Definition all_axes : list GCodeParserAxis :=
  [AXIS_X; AXIS_Y; AXIS_Z; AXIS_E; AXIS_A; AXIS_B; AXIS_C; AXIS_U; AXIS_V; AXIS_W].

Definition axis_index (a : GCodeParserAxis) : Z :=
  match a with
  | AXIS_X => 0 | AXIS_Y => 1 | AXIS_Z => 2 | AXIS_E => 3 | AXIS_A => 4
  | AXIS_B => 5 | AXIS_C => 6 | AXIS_U => 7 | AXIS_V => 8 | AXIS_W => 9
  end.

Definition axis_eqb (a b : GCodeParserAxis) : bool := axis_index a =? axis_index b.

(** An array indexed by axis, and the assignment [a[k] = v]. *)
Definition per_axis (A : Type) : Type := GCodeParserAxis -> A.

Definition set_axis {A : Type} (a : per_axis A) (k : GCodeParserAxis) (v : A) : per_axis A :=
  fun j => if axis_eqb j k then v else a j.

(** The register of one float per axis that the parser hands over. *)
Definition AxesRegister : Type := per_axis float.

Record AxisTarget : Type := {
  position_steps : per_axis Z;  (* absolute position at end of segment *)
  delta_steps : per_axis Z;     (* difference to previous position *)
  defining_axis : GCodeParserAxis;
  speed : float;                (* (desired) speed in steps/s on defining axis *)
  angle : float;
  aux_bits : Z                  (* unsigned short *)
}.

Definition with_speed (t : AxisTarget) (v : float) : AxisTarget :=
  {| position_steps := position_steps t; delta_steps := delta_steps t;
     defining_axis := defining_axis t; speed := v; angle := angle t;
     aux_bits := aux_bits t |}.

(** Modelled from the spec: the number of motor drivers is declared in
    motor-operations.h, which is not among the sources; a [DriverBitmap] is a
    [uint8_t] with one bit per driver. *)
Definition BEAGLEG_NUM_MOTORS : nat := 8.

(** Modelled from the spec: [struct MotorMovement] of motor-operations.h,
    with the fields the planner writes. *)
Record MotorMovement : Type := {
  v0 : float;
  v1 : float;
  mm_aux_bits : Z;
  steps : nat -> Z   (* steps[BEAGLEG_NUM_MOTORS] *)
}.

(** [struct MotorMovement m = {0}]. *)
Definition MotorMovement_zero : MotorMovement :=
  {| v0 := F32.zero; v1 := F32.zero; mm_aux_bits := 0; steps := fun _ => 0 |}.

Definition with_steps (c : MotorMovement) (s : nat -> Z) : MotorMovement :=
  {| v0 := v0 c; v1 := v1 c; mm_aux_bits := mm_aux_bits c; steps := s |}.

Definition with_v (c : MotorMovement) (a b : float) : MotorMovement :=
  {| v0 := a; v1 := b; mm_aux_bits := mm_aux_bits c; steps := steps c |}.

Record EndstopConfig : Type := {
  trigger_value : Z;    (* 1 bit *)
  homing_use : bool;
  endstop_number : Z    (* 0: no mapping; or 1..NUM_ENDSTOPS *)
}.

Inductive HomingState : Type :=
| HOMING_STATE_NEVER_HOMED
| HOMING_STATE_HOMED_BUT_MOTORS_UNPOWERED
| HOMING_STATE_HOMED.

(** The enumerators in declaration order, for [homing_state_ > ...]. *)
Definition HomingState_rank (h : HomingState) : Z :=
  match h with
  | HOMING_STATE_NEVER_HOMED => 0
  | HOMING_STATE_HOMED_BUT_MOTORS_UNPOWERED => 1
  | HOMING_STATE_HOMED => 2
  end.

(** ** The pure helpers of the planner *)

Local Open Scope f32_scope.

Definition euclid_distance (x y z : float) : float :=
  F32.sqrtf (x * x + y * y + z * z).

(** Number of steps to accelerate or decelerate from speed [v0] to [v1];
    returns the steps and the value left in [*v1], which is lowered when the
    speed cannot be reached within [max_steps]. *)
Definition steps_for_speed_change (a v0 v1 : float) (max_steps : Z) : float * float :=
  let t := (v1 - v0) / a in
  let steps := a / F32.of_int 2 * t * t + v0 * t in
  if steps <=? F32.of_int max_steps then (steps, v1)
  else (F32.of_int max_steps,
        F32.sqrtf (v0 * v0 + F32.of_int 2 * a * F32.of_int max_steps)).

Definition get_peak_speed (s v0 v2 a : float) : float :=
  F32.sqrtf (v2 * v2 + v0 * v0 + F32.of_int 2 * a * s) / F32.sqrtf (F32.of_int 2).

Definition get_speed_factor_for_axis (t : AxisTarget) (request_axis : GCodeParserAxis) : float :=
  if (delta_steps t (defining_axis t) =? 0)%Z then F32.zero
  else F32.one * F32.of_int (delta_steps t request_axis)
       / F32.of_int (delta_steps t (defining_axis t)).

Definition get_speed_for_axis (target : AxisTarget) (request_axis : GCodeParserAxis) : float :=
  speed target * get_speed_factor_for_axis target request_axis.

Definition within_acceptable_range (new_val old_val fraction : float) : bool :=
  let max_diff := fraction * old_val in
  if new_val <? old_val - max_diff then false
  else if new_val >? old_val + max_diff then false
  else true.

(** The literal [1e-5], a double, converted to the [float] parameter. *)
Definition acceptable_fraction : float := F64.to_float (F64.decimal 1 5).

(** The loop of [determine_joining_speed] over the axes still to visit;
    [is_first] and [from_defining_speed] are the two locals it carries. *)
Fixpoint joining_speed_loop (from to : AxisTarget) (threshold ang : float)
    (axes : list GCodeParserAxis) (is_first : bool) (from_defining_speed : float)
    : float :=
  match axes with
  | [] => from_defining_speed
  | axis :: rest =>
      let from_delta := delta_steps from axis in
      let to_delta := delta_steps to axis in
      if ang <? threshold then
        joining_speed_loop from to threshold ang rest is_first from_defining_speed
      else if ((from_delta =? 0) && (to_delta =? 0))%Z then
        joining_speed_loop from to threshold ang rest is_first from_defining_speed
      else if ((from_delta =? 0) || (to_delta =? 0))%Z then F32.zero
      else if (((from_delta <? 0) && (to_delta >? 0))
               || ((from_delta >? 0) && (to_delta <? 0)))%Z then F32.zero
      else
        let to_speed := get_speed_for_axis to axis in
        let speed_conversion :=
          F32.one * F32.of_int (delta_steps from (defining_axis from))
          / F32.of_int (delta_steps from axis) in
        let goal := to_speed * speed_conversion in
        if goal <? F32.zero then F32.zero
        else if is_first
                || within_acceptable_range goal from_defining_speed acceptable_fraction
        then
          joining_speed_loop from to threshold ang rest false
            (if goal <? from_defining_speed then goal else from_defining_speed)
        else F32.zero
  end.

Definition determine_joining_speed (from to : AxisTarget) (threshold ang : float) : float :=
  joining_speed_loop from to threshold ang all_axes true (speed from).

Local Close Scope f32_scope.

(** ** The machine and its surroundings *)

(** The configuration fields the planner reads. *)
Record MachineControlConfig : Type := {
  steps_per_mm : per_axis float;
  max_feedrate : per_axis float;
  acceleration : per_axis float;
  move_range_mm : per_axis float;
  speed_factor : float;
  threshold_angle : float;
  home_order : string;
  require_homing : bool;
  range_check : bool;
  synchronous : bool
}.

(** What [motor_ops_] was asked to do, oldest first. *)
Inductive MotorOp : Type :=
| Enqueue (m : MotorMovement)
| WaitQueueEmpty
| MotorEnable (on : bool).

(** One call of [vfprintf] on the message stream: the format and the
    variadic arguments (a [float] argument arrives promoted to [double]). *)
Inductive printf_arg : Type :=
| ArgDouble (d : double)
| ArgInt (z : Z)
| ArgChar (c : ascii)
| ArgString (s : string).

Record printf_call : Type := {
  format : string;
  args : list printf_arg
}.

(** The board: the pin descriptor of each endstop connector
    ([END_1_GPIO] ... of generic-gpio.h, 0 when not mapped) and the level
    every read of a pin returns; reads are numbered as they happen. *)
Record Hardware : Type := {
  END_GPIO : Z -> Z;
  gpio_level : nat -> Z -> Z;
  gpio_reads : nat
}.

Definition get_gpio (hw : Hardware) (gpio_def : Z) : Z * Hardware :=
  (gpio_level hw (gpio_reads hw) gpio_def,
   {| END_GPIO := END_GPIO hw; gpio_level := gpio_level hw;
      gpio_reads := S (gpio_reads hw) |}).

(** Modelled from the spec: [RingDeque<AxisTarget, 4>] of container.h, which
    is not among the sources: a bounded ring of capacity 4 over a fixed
    array with a read cursor; [append] reserves the next slot as it is (its
    old content stays until overwritten) and fails as a programming error
    when the buffer would exceed its capacity; reading an entry that is not
    there fails likewise. *)
Module RingDeque.

Definition CAPACITY : nat := 4.

Record t : Type := {
  buffer : nat -> AxisTarget;   (* the array, indexed below CAPACITY *)
  read_pos : nat;
  size : nat
}.

Definition slot (q : t) (i : nat) : nat := ((read_pos q + i) mod CAPACITY)%nat.

(** [q[i]]: the entry [i] places after the oldest. *)
Definition at_ (q : t) (i : nat) : result AxisTarget :=
  if (i <? size q)%nat then Ok (buffer q (slot q i)) else Err AssertFailed.

Definition back (q : t) : result AxisTarget :=
  if (0 <? size q)%nat then Ok (buffer q (slot q (size q - 1))) else Err AssertFailed.

(** Writing through a pointer to slot [s]. *)
Definition store (q : t) (s : nat) (v : AxisTarget) : t :=
  {| buffer := fun j => if (j =? s)%nat then v else buffer q j;
     read_pos := read_pos q; size := size q |}.

(** Reserves the next entry: its slot, and the longer queue. *)
Definition append (q : t) : result (nat * t) :=
  if (size q <? CAPACITY)%nat
  then Ok (slot q (size q),
           {| buffer := buffer q; read_pos := read_pos q; size := S (size q) |})
  else Err AssertFailed.

Definition pop_front (q : t) : result t :=
  if (0 <? size q)%nat
  then Ok {| buffer := buffer q; read_pos := slot q 1; size := (size q - 1)%nat |}
  else Err AssertFailed.

End RingDeque.

(** [GCodeMachineControl::Impl], with the motor backend's history, the
    message stream ([None] is a null [msg_stream_]) and the board. *)
Record Impl : Type := {
  cfg_ : MachineControlConfig;
  motor_ops_ : list MotorOp;
  msg_stream_ : option (list printf_call);
  g0_feedrate_mm_per_sec_ : float;
  max_axis_speed_ : AxesRegister;
  max_axis_accel_ : AxesRegister;
  axis_to_driver_ : per_axis Z;       (* DriverBitmap per axis *)
  axis_flip_ : per_axis Z;            (* 1 or -1 *)
  driver_flip_ : nat -> Z;            (* 1 or -1 *)
  min_endstop_ : per_axis EndstopConfig;
  max_endstop_ : per_axis EndstopConfig;
  coordinate_display_origin_ : AxesRegister;
  current_feedrate_mm_per_sec_ : float;
  prog_speed_factor_ : float;
  aux_bits_ : Z;
  planning_buffer_ : RingDeque.t;
  homing_state_ : HomingState;
  board_ : Hardware
}.

Definition set_motor_ops (st : Impl) (v : list MotorOp) : Impl :=
  {| cfg_ := cfg_ st; motor_ops_ := v; msg_stream_ := msg_stream_ st;
     g0_feedrate_mm_per_sec_ := g0_feedrate_mm_per_sec_ st;
     max_axis_speed_ := max_axis_speed_ st; max_axis_accel_ := max_axis_accel_ st;
     axis_to_driver_ := axis_to_driver_ st; axis_flip_ := axis_flip_ st;
     driver_flip_ := driver_flip_ st; min_endstop_ := min_endstop_ st;
     max_endstop_ := max_endstop_ st;
     coordinate_display_origin_ := coordinate_display_origin_ st;
     current_feedrate_mm_per_sec_ := current_feedrate_mm_per_sec_ st;
     prog_speed_factor_ := prog_speed_factor_ st; aux_bits_ := aux_bits_ st;
     planning_buffer_ := planning_buffer_ st; homing_state_ := homing_state_ st;
     board_ := board_ st |}.

Definition set_msg_stream (st : Impl) (v : option (list printf_call)) : Impl :=
  {| cfg_ := cfg_ st; motor_ops_ := motor_ops_ st; msg_stream_ := v;
     g0_feedrate_mm_per_sec_ := g0_feedrate_mm_per_sec_ st;
     max_axis_speed_ := max_axis_speed_ st; max_axis_accel_ := max_axis_accel_ st;
     axis_to_driver_ := axis_to_driver_ st; axis_flip_ := axis_flip_ st;
     driver_flip_ := driver_flip_ st; min_endstop_ := min_endstop_ st;
     max_endstop_ := max_endstop_ st;
     coordinate_display_origin_ := coordinate_display_origin_ st;
     current_feedrate_mm_per_sec_ := current_feedrate_mm_per_sec_ st;
     prog_speed_factor_ := prog_speed_factor_ st; aux_bits_ := aux_bits_ st;
     planning_buffer_ := planning_buffer_ st; homing_state_ := homing_state_ st;
     board_ := board_ st |}.

Definition set_current_feedrate (st : Impl) (v : float) : Impl :=
  {| cfg_ := cfg_ st; motor_ops_ := motor_ops_ st; msg_stream_ := msg_stream_ st;
     g0_feedrate_mm_per_sec_ := g0_feedrate_mm_per_sec_ st;
     max_axis_speed_ := max_axis_speed_ st; max_axis_accel_ := max_axis_accel_ st;
     axis_to_driver_ := axis_to_driver_ st; axis_flip_ := axis_flip_ st;
     driver_flip_ := driver_flip_ st; min_endstop_ := min_endstop_ st;
     max_endstop_ := max_endstop_ st;
     coordinate_display_origin_ := coordinate_display_origin_ st;
     current_feedrate_mm_per_sec_ := v;
     prog_speed_factor_ := prog_speed_factor_ st; aux_bits_ := aux_bits_ st;
     planning_buffer_ := planning_buffer_ st; homing_state_ := homing_state_ st;
     board_ := board_ st |}.

Definition set_prog_speed_factor (st : Impl) (v : float) : Impl :=
  {| cfg_ := cfg_ st; motor_ops_ := motor_ops_ st; msg_stream_ := msg_stream_ st;
     g0_feedrate_mm_per_sec_ := g0_feedrate_mm_per_sec_ st;
     max_axis_speed_ := max_axis_speed_ st; max_axis_accel_ := max_axis_accel_ st;
     axis_to_driver_ := axis_to_driver_ st; axis_flip_ := axis_flip_ st;
     driver_flip_ := driver_flip_ st; min_endstop_ := min_endstop_ st;
     max_endstop_ := max_endstop_ st;
     coordinate_display_origin_ := coordinate_display_origin_ st;
     current_feedrate_mm_per_sec_ := current_feedrate_mm_per_sec_ st;
     prog_speed_factor_ := v; aux_bits_ := aux_bits_ st;
     planning_buffer_ := planning_buffer_ st; homing_state_ := homing_state_ st;
     board_ := board_ st |}.

Definition set_planning_buffer (st : Impl) (v : RingDeque.t) : Impl :=
  {| cfg_ := cfg_ st; motor_ops_ := motor_ops_ st; msg_stream_ := msg_stream_ st;
     g0_feedrate_mm_per_sec_ := g0_feedrate_mm_per_sec_ st;
     max_axis_speed_ := max_axis_speed_ st; max_axis_accel_ := max_axis_accel_ st;
     axis_to_driver_ := axis_to_driver_ st; axis_flip_ := axis_flip_ st;
     driver_flip_ := driver_flip_ st; min_endstop_ := min_endstop_ st;
     max_endstop_ := max_endstop_ st;
     coordinate_display_origin_ := coordinate_display_origin_ st;
     current_feedrate_mm_per_sec_ := current_feedrate_mm_per_sec_ st;
     prog_speed_factor_ := prog_speed_factor_ st; aux_bits_ := aux_bits_ st;
     planning_buffer_ := v; homing_state_ := homing_state_ st;
     board_ := board_ st |}.

Definition set_homing_state (st : Impl) (v : HomingState) : Impl :=
  {| cfg_ := cfg_ st; motor_ops_ := motor_ops_ st; msg_stream_ := msg_stream_ st;
     g0_feedrate_mm_per_sec_ := g0_feedrate_mm_per_sec_ st;
     max_axis_speed_ := max_axis_speed_ st; max_axis_accel_ := max_axis_accel_ st;
     axis_to_driver_ := axis_to_driver_ st; axis_flip_ := axis_flip_ st;
     driver_flip_ := driver_flip_ st; min_endstop_ := min_endstop_ st;
     max_endstop_ := max_endstop_ st;
     coordinate_display_origin_ := coordinate_display_origin_ st;
     current_feedrate_mm_per_sec_ := current_feedrate_mm_per_sec_ st;
     prog_speed_factor_ := prog_speed_factor_ st; aux_bits_ := aux_bits_ st;
     planning_buffer_ := planning_buffer_ st; homing_state_ := v;
     board_ := board_ st |}.

Definition set_board (st : Impl) (v : Hardware) : Impl :=
  {| cfg_ := cfg_ st; motor_ops_ := motor_ops_ st; msg_stream_ := msg_stream_ st;
     g0_feedrate_mm_per_sec_ := g0_feedrate_mm_per_sec_ st;
     max_axis_speed_ := max_axis_speed_ st; max_axis_accel_ := max_axis_accel_ st;
     axis_to_driver_ := axis_to_driver_ st; axis_flip_ := axis_flip_ st;
     driver_flip_ := driver_flip_ st; min_endstop_ := min_endstop_ st;
     max_endstop_ := max_endstop_ st;
     coordinate_display_origin_ := coordinate_display_origin_ st;
     current_feedrate_mm_per_sec_ := current_feedrate_mm_per_sec_ st;
     prog_speed_factor_ := prog_speed_factor_ st; aux_bits_ := aux_bits_ st;
     planning_buffer_ := planning_buffer_ st; homing_state_ := homing_state_ st;
     board_ := v |}.

(** The motor backend: each call is appended to the history. *)
Definition motor_call (st : Impl) (op : MotorOp) : Impl :=
  set_motor_ops st (motor_ops_ st ++ [op]).

(** machine-printf. Only prints if there is a msg-stream. *)
Definition mprintf (st : Impl) (fmt : string) (a : list printf_arg) : Impl :=
  match msg_stream_ st with
  | Some out => set_msg_stream st (Some (out ++ [{| format := fmt; args := a |}]))
  | None => st
  end.

(** ** Loops *)

(** [for (i ...) body]: the body run on each index in turn, threading the
    variables it updates; a fault in the body ends the run. *)
Fixpoint for_each {I S : Type} (l : list I) (body : I -> S -> result S) (s : S)
    : result S :=
  match l with
  | [] => Ok s
  | i :: l' => s' <- body i s ;; for_each l' body s'
  end.

Definition all_motors : list nat := seq 0 BEAGLEG_NUM_MOTORS.

(** ** Motor fan-out *)

(** Assign steps to all the motors responsible for given axis. *)
Definition assign_steps_to_motors (st : Impl) (command : MotorMovement)
    (axis : GCodeParserAxis) (steps_ : Z) : result MotorMovement :=
  let motormap_for_axis := axis_to_driver_ st axis in
  for_each all_motors
    (fun motor c =>
       if Z.testbit motormap_for_axis (Z.of_nat motor) then
         f <- CInt.mul (axis_flip_ st axis) (driver_flip_ st motor) ;;
         v <- CInt.mul f steps_ ;;
         Ok (with_steps c (fun j => if (j =? motor)%nat then v else steps c j))
       else Ok c)
    command.

(** [value->steps[i] -= substract->steps[i]] on every motor; the flag tells
    whether any motor is left with a nonzero count. *)
Definition substract_steps (value substract : MotorMovement)
    : result (MotorMovement * bool) :=
  for_each all_motors
    (fun i '(c, has_nonzero) =>
       d <- CInt.sub (steps c i) (steps substract i) ;;
       Ok (with_steps c (fun j => if (j =? i)%nat then d else steps c j),
           has_nonzero || negb (d =? 0)))
    (value, false).

(** ** The segmenter *)

Definition acceleration_for_move (st : Impl) (axis_steps : per_axis Z)
    (defining_axis_ : GCodeParserAxis) : float :=
  max_axis_accel_ st defining_axis_.

(** The locals of [move_machine_steps] once the speeds and the two ramp
    fractions are settled, before any segment is built. *)
Record RampPlan : Type := {
  last_speed : float;
  next_speed : float;
  abs_defining_axis_steps : Z;
  target_speed : float;          (* target_pos->speed after the ramp solves *)
  accel_fraction : float;
  decel_fraction : float;
  accel_decel_steps : Z;
  accel_decel_mm : float;
  do_accel : bool
}.

Local Open Scope f32_scope.

(** The double constant [1.0 + 1e-4]. *)
Definition fraction_bound : double := F64.add (F64.of_int 1) (F64.decimal 1 4).

Definition plan_ramps (st : Impl) (last_pos target_pos upcoming : AxisTarget)
    : result RampPlan :=
  _ <- c_assert (speed target_pos >? F32.zero) ;;
  let defining_axis_ := defining_axis target_pos in
  let last_speed_ := F32.fabsf (get_speed_for_axis last_pos defining_axis_) in
  let next_speed_ :=
    determine_joining_speed target_pos upcoming (threshold_angle (cfg_ st))
      (F32.fabsf (angle last_pos - angle target_pos)) in
  let axis_steps := delta_steps target_pos in
  abs_steps <- CInt.abs (axis_steps defining_axis_) ;;
  let a := acceleration_for_move st axis_steps defining_axis_ in
  let peak_speed := get_peak_speed (F32.of_int abs_steps) last_speed_ next_speed_ a in
  _ <- c_assert (peak_speed >? F32.zero) ;;
  let speed1 := if peak_speed <? speed target_pos then peak_speed else speed target_pos in
  let '(accel_fraction_, speed2) :=
    if last_speed_ <? speed1
    then let '(s, v) := steps_for_speed_change a last_speed_ speed1 abs_steps in
         (s / F32.of_int abs_steps, v)
    else (F32.zero, speed1) in
  let decel_fraction_ :=
    if next_speed_ <? speed2
    then fst (steps_for_speed_change (SFopp a) speed2 next_speed_ abs_steps)
         / F32.of_int abs_steps
    else F32.zero in
  _ <- c_assert (F64.leb (F64.of_float (accel_fraction_ + decel_fraction_)) fraction_bound) ;;
  ramp_steps <- F32.to_int ((accel_fraction_ + decel_fraction_) * F32.of_int abs_steps) ;;
  let ramp_mm := F32.of_int ramp_steps / steps_per_mm (cfg_ st) defining_axis_ in
  Ok {| last_speed := last_speed_; next_speed := next_speed_;
        abs_defining_axis_steps := abs_steps; target_speed := speed2;
        accel_fraction := accel_fraction_; decel_fraction := decel_fraction_;
        accel_decel_steps := ramp_steps; accel_decel_mm := ramp_mm;
        do_accel := (ramp_mm >? F32.of_int 2) || (ramp_steps >? 16)%Z |}.

(** The steps of one ramp: [round2int(fraction * axis_steps[i])] of every
    axis, mapped to the motor drivers. *)
Definition ramp_command (st : Impl) (fraction : float) (axis_steps : per_axis Z)
    (command : MotorMovement) : result MotorMovement :=
  for_each all_axes
    (fun i c =>
       n <- round2int (fraction * F32.of_int (axis_steps i)) ;;
       assign_steps_to_motors st c i n)
    command.

Definition has_accel (p : RampPlan) : bool :=
  do_accel p && (accel_fraction p * F32.of_int (abs_defining_axis_steps p) >? F32.zero).

Definition has_decel (p : RampPlan) : bool :=
  do_accel p && (decel_fraction p * F32.of_int (abs_defining_axis_steps p) >? F32.zero).

(** Move the given number of machine steps for each axis: up to three
    segments go to the motor backend, and the target comes back with the
    speed it has at the end of the move. *)
Definition move_machine_steps (st : Impl) (last_pos target_pos upcoming : AxisTarget)
    : result (AxisTarget * Impl) :=
  if (delta_steps target_pos (defining_axis target_pos) =? 0)%Z then Ok (target_pos, st)
  else
    p <- plan_ramps st last_pos target_pos upcoming ;;
    let axis_steps := delta_steps target_pos in
    (* the three commands share the aux bits; the cruise runs at the speed
       the target had on entry *)
    let common :=
      {| v0 := F32.zero; v1 := F32.zero; mm_aux_bits := aux_bits target_pos;
         steps := fun _ => 0%Z |} in
    let move_command := with_v common (speed target_pos) (speed target_pos) in
    accel_command <-
      (if has_accel p
       then ramp_command st (accel_fraction p) axis_steps
              (with_v common (last_speed p) (target_speed p))
       else Ok common) ;;
    decel_command <-
      (if has_decel p
       then ramp_command st (decel_fraction p) axis_steps
              (with_v common (target_speed p) (next_speed p))
       else Ok common) ;;
    let final_speed := if has_decel p then next_speed p else target_speed p in
    move1 <- for_each all_axes
               (fun i c => assign_steps_to_motors st c i (axis_steps i)) move_command ;;
    '(move2, _) <- substract_steps move1 accel_command ;;
    '(move3, has_move) <- substract_steps move2 decel_command ;;
    let st1 := if synchronous (cfg_ st) then motor_call st WaitQueueEmpty else st in
    let st2 := if has_accel p then motor_call st1 (Enqueue accel_command) else st1 in
    let st3 := if has_move then motor_call st2 (Enqueue move3) else st2 in
    let st4 := if has_decel p then motor_call st3 (Enqueue decel_command) else st3 in
    Ok (with_speed target_pos final_speed, st4).

(** If we have enough data in the queue, issue motor move. *)
Definition issue_motor_move_if_possible (st : Impl) : result Impl :=
  let q := planning_buffer_ st in
  if (3 <=? RingDeque.size q)%nat then
    last_pos <- RingDeque.at_ q 0 ;;
    target_pos <- RingDeque.at_ q 1 ;;
    upcoming <- RingDeque.at_ q 2 ;;
    '(target', st1) <- move_machine_steps st last_pos target_pos upcoming ;;
    q' <- RingDeque.pop_front (RingDeque.store q (RingDeque.slot q 1) target') ;;
    Ok (set_planning_buffer st1 q')
  else Ok st.

Local Close Scope f32_scope.

(** ** The target builder *)

Definition LF : string := String (ascii_of_nat 10) EmptyString.

(** The double literal [3.14159265359]. *)
Definition pi_literal : double := F64.decimal 314159265359 11.

Section TargetBuilder.

(** [atan2f] of the C library. *)
Variable atan2f : float -> float -> float.

Local Open Scope f32_scope.

(** The variables the first loop of [machine_move] updates. *)
Record move_scan : Type := {
  scan_position : per_axis Z;
  scan_delta : per_axis Z;
  scan_max_steps : Z;
  scan_defining_axis : GCodeParserAxis
}.

Definition machine_move_scan (st : Impl) (axis : AxesRegister) (previous : AxisTarget)
    (i : GCodeParserAxis) (s : move_scan) : result move_scan :=
  p <- round2int (axis i * steps_per_mm (cfg_ st) i) ;;
  d <- CInt.sub p (position_steps previous i) ;;
  ad <- CInt.abs d ;;
  let bigger := (ad >? scan_max_steps s)%Z in
  Ok {| scan_position := set_axis (scan_position s) i p;
        scan_delta := set_axis (scan_delta s) i d;
        scan_max_steps := if bigger then ad else scan_max_steps s;
        scan_defining_axis := if bigger then i else scan_defining_axis s |}.

(** The speed in steps/s on the defining axis, and the angle, of a move
    with [max_steps > 0]. *)
Definition travel_speed_and_angle (st : Impl) (feedrate : float)
    (delta : per_axis Z) (defining_axis_ : GCodeParserAxis) (default_angle : float)
    : float * float :=
  let travel_speed := feedrate * steps_per_mm (cfg_ st) defining_axis_ in
  let '(travel_speed, angle_) :=
    match defining_axis_ with
    | AXIS_X | AXIS_Y | AXIS_Z =>
        let x := F32.of_int (delta AXIS_X) / steps_per_mm (cfg_ st) AXIS_X in
        let y := F32.of_int (delta AXIS_Y) / steps_per_mm (cfg_ st) AXIS_Y in
        let z := F32.of_int (delta AXIS_Z) / steps_per_mm (cfg_ st) AXIS_Z in
        let total_xyz_len_mm := euclid_distance x y z in
        let steps_per_mm_ := steps_per_mm (cfg_ st) defining_axis_ in
        let defining_axis_len_mm := F32.of_int (delta defining_axis_) / steps_per_mm_ in
        let euclid_fraction := F32.fabsf defining_axis_len_mm / total_xyz_len_mm in
        (travel_speed * euclid_fraction,
         if z =? F32.zero
         then F64.to_float
                (F64.mul (F64.div (F64.of_float (atan2f y x)) pi_literal)
                         (F64.of_float (F32.of_int 180)))
         else default_angle)
    | _ => (travel_speed, default_angle)
    end in
  (if travel_speed >? max_axis_speed_ st defining_axis_
   then max_axis_speed_ st defining_axis_ else travel_speed,
   angle_).

Definition machine_move (st : Impl) (feedrate : float) (axis : AxesRegister)
    : result Impl :=
  let q := planning_buffer_ st in
  (* We always have a previous position. *)
  previous <- RingDeque.back q ;;
  '(slot, q1) <- RingDeque.append q ;;
  let new_pos := RingDeque.buffer q slot in
  s <- for_each all_axes (machine_move_scan st axis previous)
         {| scan_position := position_steps new_pos; scan_delta := delta_steps new_pos;
            scan_max_steps := -1; scan_defining_axis := AXIS_X |} ;;
  let default_angle := angle previous + F32.of_int 180 in
  let '(speed_, angle_) :=
    if (scan_max_steps s >? 0)%Z
    then travel_speed_and_angle st feedrate (scan_delta s) (scan_defining_axis s)
           default_angle
    else (F32.zero, default_angle) in
  let new_pos' :=
    {| position_steps := scan_position s; delta_steps := scan_delta s;
       defining_axis := scan_defining_axis s; speed := speed_; angle := angle_;
       aux_bits := aux_bits_ st |} in
  issue_motor_move_if_possible
    (set_planning_buffer st (RingDeque.store q1 slot new_pos')).

(** ** Halt sentinel *)

(** [a[i] = f(i)] for every axis in turn. *)
Definition fill_axes {A : Type} (f : GCodeParserAxis -> A) (a : per_axis A) : per_axis A :=
  fold_left (fun acc i => set_axis acc i (f i)) all_axes a.

Definition bring_path_to_halt (st : Impl) : result Impl :=
  let q := planning_buffer_ st in
  previous <- RingDeque.back q ;;
  '(slot, q1) <- RingDeque.append q ;;
  let new_pos := RingDeque.buffer q slot in
  let new_pos' :=
    {| position_steps := fill_axes (position_steps previous) (position_steps new_pos);
       delta_steps := fill_axes (fun _ => 0%Z) (delta_steps new_pos);
       defining_axis := AXIS_X; speed := F32.zero;
       angle := angle new_pos;        (* not assigned: what the slot held *)
       aux_bits := aux_bits_ st |} in
  issue_motor_move_if_possible
    (set_planning_buffer st (RingDeque.store q1 slot new_pos')).

(** ** Move callbacks *)

Definition msg_please_home : string :=
  "// ERROR: please home machine first (G28)." ++ LF.

Definition test_homing_status_ok (st : Impl) : bool * Impl :=
  if negb (require_homing (cfg_ st)) then (true, st)
  else if (HomingState_rank (homing_state_ st)
           >? HomingState_rank HOMING_STATE_NEVER_HOMED)%Z then (true, st)
  else (false, mprintf st msg_please_home []).

(** Modelled from the spec: [gcodep_axis2letter] of gcode-parser.h, which is
    not among the sources: the letter of an axis, X Y Z E A B C U V W. *)
Definition gcodep_axis2letter (a : GCodeParserAxis) : ascii :=
  match a with
  | AXIS_X => "X" | AXIS_Y => "Y" | AXIS_Z => "Z" | AXIS_E => "E" | AXIS_A => "A"
  | AXIS_B => "B" | AXIS_C => "C" | AXIS_U => "U" | AXIS_V => "V" | AXIS_W => "W"
  end%char.

Definition msg_below_min_offset : string :=
  "// ERROR outside machine limit: Axis %c < min allowed %+.1fmm in current coordinate system. Ignoring move!" ++ LF.
Definition msg_below_min : string :=
  "// ERROR outside machine limit: Axis %c < 0. Ignoring move!" ++ LF.
Definition msg_above_max_offset : string :=
  "// ERROR outside machine limit: Axis %c > max allowed %+.1fmm in current coordinate system (=%.1fmm machine absolute). Ignoring move!" ++ LF.
Definition msg_above_max : string :=
  "// ERROR outside machine limit: Axis %c > %.1fmm. Ignoring move!" ++ LF.

(** The loop of [test_within_machine_limits] over the axes still to check. *)
Fixpoint within_limits_loop (st : Impl) (axes : AxesRegister)
    (todo : list GCodeParserAxis) : bool * Impl :=
  match todo with
  | [] => (true, st)
  | i :: rest =>
      let origin := coordinate_display_origin_ st i in
      if axes i <? F32.zero then
        (false,
         if negb (origin =? F32.zero)
         then mprintf st msg_below_min_offset
                [ArgChar (gcodep_axis2letter i); ArgDouble (F64.of_float (SFopp origin))]
         else mprintf st msg_below_min [ArgChar (gcodep_axis2letter i)])
      else if move_range_mm (cfg_ st) i <=? F32.zero then within_limits_loop st axes rest
      else
        let max_limit := move_range_mm (cfg_ st) i in
        if axes i >? max_limit then
          (false,
           if negb (origin =? F32.zero)
           then mprintf st msg_above_max_offset
                  [ArgChar (gcodep_axis2letter i);
                   ArgDouble (F64.of_float (max_limit - origin));
                   ArgDouble (F64.of_float max_limit)]
           else mprintf st msg_above_max
                  [ArgChar (gcodep_axis2letter i); ArgDouble (F64.of_float max_limit)])
        else within_limits_loop st axes rest
  end.

Definition test_within_machine_limits (st : Impl) (axes : AxesRegister) : bool * Impl :=
  if negb (range_check (cfg_ st)) then (true, st)
  else within_limits_loop st axes all_axes.

Definition coordinated_move (st : Impl) (feed : float) (axis : AxesRegister)
    : result (bool * Impl) :=
  let '(homed, st) := test_homing_status_ok st in
  if negb homed then Ok (false, st)
  else
    let '(inside, st) := test_within_machine_limits st axis in
    if negb inside then Ok (false, st)
    else
      let st := if feed >? F32.zero
                then set_current_feedrate st (speed_factor (cfg_ st) * feed)
                else st in
      let feedrate := prog_speed_factor_ st * current_feedrate_mm_per_sec_ st in
      st' <- machine_move st feedrate axis ;;
      Ok (true, st').

Definition rapid_move (st : Impl) (feed : float) (axis : AxesRegister)
    : result (bool * Impl) :=
  let '(homed, st) := test_homing_status_ok st in
  if negb homed then Ok (false, st)
  else
    let '(inside, st) := test_within_machine_limits st axis in
    if negb inside then Ok (false, st)
    else
      let rapid_feed := g0_feedrate_mm_per_sec_ st in
      let given := speed_factor (cfg_ st) * prog_speed_factor_ st * feed in
      st' <- machine_move st (if given >? F32.zero then given else rapid_feed) axis ;;
      Ok (true, st').

Local Close Scope f32_scope.

End TargetBuilder.

Definition input_idle (st : Impl) : result Impl := bring_path_to_halt st.

Definition gcode_finished (st : Impl) : result Impl := bring_path_to_halt st.

Definition motors_enable (st : Impl) (b : bool) : result Impl :=
  st1 <- bring_path_to_halt st ;;
  let st2 := motor_call st1 (MotorEnable b) in
  Ok (match homing_state_ st2 with
      | HOMING_STATE_HOMED => set_homing_state st2 HOMING_STATE_HOMED_BUT_MOTORS_UNPOWERED
      | _ => st2
      end).

(** ** Speed factor (M220) *)

Definition msg_speed_factor : string :=
  "// M220: Not accepting speed factors < 0.5%% (got %.1f%%)" ++ LF.

Definition set_speed_factor (st : Impl) (value : float) : Impl :=
  let value := if F32.ltb value F32.zero then F32.add F32.one value else value in
  if F64.ltb (F64.of_float value) (F64.decimal 5 3)
  then mprintf st msg_speed_factor
         [ArgDouble (F64.of_float (F32.mul (F32.of_int 100) value))]
  else set_prog_speed_factor st value.

(** ** Homing *)

Definition get_endstop_gpio_descriptor (hw : Hardware) (config : EndstopConfig) : Z :=
  match endstop_number config with
  | 1 | 2 | 3 | 4 | 5 | 6 => END_GPIO hw (endstop_number config)
  | _ => 0
  end.

(** Get the endstop for the axis: the pin descriptor (0 for none), [*dir],
    and [*trigger_value] when it was written. *)
Definition GetHomeEndstop (st : Impl) (axis : GCodeParserAxis) : Z * Z * option Z :=
  let use_min :=
    negb (endstop_number (min_endstop_ st axis) =? 0) && homing_use (min_endstop_ st axis) in
  let dir := if use_min then -1 else 1 in
  let config := if use_min then min_endstop_ st axis else max_endstop_ st axis in
  if negb (homing_use config) then (0, dir, None)
  else (get_endstop_gpio_descriptor (board_ st) config, dir, Some (trigger_value config)).

(** [while (get_gpio(gpio_def) != trigger_value) { enqueue; wait; ... }] when
    [until_triggered], and the same with [==] for the back-off; at most
    [fuel] segments are sent. *)
Fixpoint endstop_loop (fuel : nat) (until_triggered : bool) (gpio_def trigger : Z)
    (segment_move_steps : Z) (st : Impl) (move_command : MotorMovement)
    (total_movement : Z) : result (Z * MotorMovement * Impl) :=
  let '(level, hw) := get_gpio (board_ st) gpio_def in
  let st := set_board st hw in
  let go_on := if until_triggered then negb (level =? trigger) else (level =? trigger) in
  if go_on then
    match fuel with
    | O => Err OutOfFuel
    | S fuel' =>
        let st := motor_call st (Enqueue move_command) in
        let st := motor_call st WaitQueueEmpty in
        total <- CInt.add total_movement segment_move_steps ;;
        endstop_loop fuel' until_triggered gpio_def trigger segment_move_steps st
          (if until_triggered then with_v move_command (v1 move_command) (v1 move_command)
           else move_command)
          total
    end
  else Ok (total_movement, move_command, st).

(** Moves to endstop and returns how many steps it moved in the process. *)
Definition move_to_endstop (fuel : nat) (st : Impl) (axis : GCodeParserAxis)
    (feedrate : float) (backoff : Z) (dir trigger gpio_def : Z) : result (Z * Impl) :=
  let steps_per_mm_ := steps_per_mm (cfg_ st) axis in
  let target_speed_ := F32.mul feedrate steps_per_mm_ in
  let target_speed_ :=
    if F32.gtb target_speed_ (max_axis_speed_ st axis)
    then max_axis_speed_ st axis else target_speed_ in
  let move_command := with_v MotorMovement_zero F32.zero target_speed_ in
  (* move axis until endstop is hit *)
  segment_move_steps <-
    F64.to_int (F64.mul (F64.mul (F64.decimal 5 1) (F64.of_float steps_per_mm_))
                        (F64.of_int dir)) ;;
  move_command <- assign_steps_to_motors st move_command axis segment_move_steps ;;
  '(total, move_command, st) <-
    endstop_loop fuel true gpio_def trigger segment_move_steps st move_command 0 ;;
  if negb (backoff =? 0) then
    (* move axis off endstop *)
    back_dir <- CInt.int (- dir) ;;
    segment_move_steps <-
      F64.to_int (F64.mul (F64.mul (F64.decimal 1 1) (F64.of_float steps_per_mm_))
                          (F64.of_int back_dir)) ;;
    move_command <- assign_steps_to_motors st move_command axis segment_move_steps ;;
    '(total, _, st) <-
      endstop_loop fuel false gpio_def trigger segment_move_steps st move_command total ;;
    Ok (total, st)
  else Ok (total, st).

Definition home_axis (fuel : nat) (st : Impl) (axis : GCodeParserAxis) : result Impl :=
  let q := planning_buffer_ st in
  last <- RingDeque.back q ;;
  let last_slot := RingDeque.slot q (RingDeque.size q - 1) in
  match GetHomeEndstop st axis with
  | (gpio_def, dir, trigger) =>
      if gpio_def =? 0 then Ok st
      else
        match trigger with
        | None => Ok st   (* not reached: a pin is only returned with its trigger *)
        | Some trigger_value_ =>
            '(_, st) <- move_to_endstop fuel st axis (F32.of_int 15) 1 dir
                          trigger_value_ gpio_def ;;
            let home_pos := if dir <? 0 then F32.zero else move_range_mm (cfg_ st) axis in
            p <- round2int (F32.mul home_pos (steps_per_mm (cfg_ st) axis)) ;;
            let q := planning_buffer_ st in
            let last := RingDeque.buffer q last_slot in
            let last' :=
              {| position_steps := set_axis (position_steps last) axis p;
                 delta_steps := delta_steps last; defining_axis := defining_axis last;
                 speed := speed last; angle := angle last; aux_bits := aux_bits last |} in
            Ok (set_planning_buffer st (RingDeque.store q last_slot last'))
        end
  end.

(** Modelled from the spec: [gcodep_letter2axis] of gcode-parser.h, which is
    not among the sources: the axis of a letter of X Y Z E A B C U V W, in
    either case; [None] stands for the [GCODE_NUM_AXES] it returns on any
    other character. *)
Definition gcodep_letter2axis (c : ascii) : option GCodeParserAxis :=
  match c with
  | "X" | "x" => Some AXIS_X | "Y" | "y" => Some AXIS_Y | "Z" | "z" => Some AXIS_Z
  | "E" | "e" => Some AXIS_E | "A" | "a" => Some AXIS_A | "B" | "b" => Some AXIS_B
  | "C" | "c" => Some AXIS_C | "U" | "u" => Some AXIS_U | "V" | "v" => Some AXIS_V
  | "W" | "w" => Some AXIS_W
  | _ => None
  end%char.

(** The loop of [go_home] over what is left of [home_order]. *)
Fixpoint home_in_order (fuel : nat) (order : string) (axes_bitmap : Z) (st : Impl)
    : result Impl :=
  match order with
  | EmptyString => Ok st
  | String c rest =>
      match gcodep_letter2axis c with
      | None => home_in_order fuel rest axes_bitmap st
      | Some axis =>
          if negb (Z.testbit axes_bitmap (axis_index axis))
          then home_in_order fuel rest axes_bitmap st
          else st' <- home_axis fuel st axis ;;
               home_in_order fuel rest axes_bitmap st'
      end
  end.

Definition go_home (fuel : nat) (st : Impl) (axes_bitmap : Z) : result Impl :=
  st1 <- bring_path_to_halt st ;;
  st2 <- home_in_order fuel (home_order (cfg_ st1)) axes_bitmap st1 ;;
  Ok (set_homing_state st2 HOMING_STATE_HOMED).

(** ** Machines to run the planner on *)

(** The default settings, in sequence of the axes; axes not used by default
    are 0. *)
Definition kMaxFeedrate : per_axis float := fun a =>
  match a with
  | AXIS_X | AXIS_Y => F32.of_int 200 | AXIS_Z => F32.of_int 90
  | AXIS_E => F32.of_int 10 | AXIS_A => F32.of_int 1 | _ => F32.zero
  end.
Definition kDefaultAccel : per_axis float := fun a =>
  match a with
  | AXIS_X | AXIS_Y => F32.of_int 4000 | AXIS_Z => F32.of_int 1000
  | AXIS_E => F32.of_int 10000 | AXIS_A => F32.of_int 1 | _ => F32.zero
  end.
Definition kStepsPerMM : per_axis float := fun a =>
  match a with
  | AXIS_X | AXIS_Y | AXIS_Z => F32.of_int 160
  | AXIS_E => F32.of_int 40 | AXIS_A => F32.of_int 1 | _ => F32.zero
  end.

(** [MachineControlConfig::MachineControlConfig()]. *)
Definition default_config : MachineControlConfig :=
  {| steps_per_mm := kStepsPerMM; max_feedrate := kMaxFeedrate;
     acceleration := kDefaultAccel; move_range_mm := fun _ => F32.zero;
     speed_factor := F32.of_int 1; threshold_angle := F32.of_int 10;
     home_order := "ZXY"; require_homing := false; range_check := true;
     synchronous := false |}.

Definition AxisTarget_zero : AxisTarget :=
  {| position_steps := fun _ => 0; delta_steps := fun _ => 0; defining_axis := AXIS_X;
     speed := F32.zero; angle := F32.zero; aux_bits := 0 |}.

Definition no_endstop : EndstopConfig :=
  {| trigger_value := 0; homing_use := false; endstop_number := 0 |}.

(** The default axis mapping "XYZEA": connector [n] drives the [n]-th axis,
    no direction flipped. *)
Definition default_axis_to_driver : per_axis Z := fun a =>
  match a with
  | AXIS_X => 1 | AXIS_Y => 2 | AXIS_Z => 4 | AXIS_E => 8 | AXIS_A => 16 | _ => 0
  end.

(** A board whose endstop connector [n] is pin [n] and whose pins read as
    [level] says. *)
Definition board_with (level : nat -> Z -> Z) : Hardware :=
  {| END_GPIO := fun n => n; gpio_level := level; gpio_reads := 0 |}.

(** The machine as [Create] leaves it for a configuration without direction
    flips, once the mapping and endstop strings are read: the limits in
    steps/s and steps/s^2, the feedrates, and a planning buffer that holds
    the boot position (all zero) in an otherwise zeroed ring. *)
Definition machine_of (cfg : MachineControlConfig) (drivers : per_axis Z)
    (min_stops max_stops : per_axis EndstopConfig)
    (out : option (list printf_call)) (hw : Hardware) : Impl :=
  {| cfg_ := cfg; motor_ops_ := []; msg_stream_ := out;
     g0_feedrate_mm_per_sec_ :=
       fold_left (fun g i => if F32.gtb (max_feedrate cfg i) g then max_feedrate cfg i else g)
         all_axes F32.zero;
     max_axis_speed_ := fun i => F32.mul (max_feedrate cfg i) (steps_per_mm cfg i);
     max_axis_accel_ := fun i => F32.mul (acceleration cfg i) (steps_per_mm cfg i);
     axis_to_driver_ := drivers; axis_flip_ := fun _ => 1; driver_flip_ := fun _ => 1;
     min_endstop_ := min_stops; max_endstop_ := max_stops;
     coordinate_display_origin_ := fun _ => F32.zero;
     current_feedrate_mm_per_sec_ := F32.div (max_feedrate cfg AXIS_X) (F32.of_int 10);
     prog_speed_factor_ := F32.one; aux_bits_ := 0;
     planning_buffer_ :=
       {| RingDeque.buffer := fun _ => AxisTarget_zero; RingDeque.read_pos := 0;
          RingDeque.size := 1 |};
     homing_state_ := HOMING_STATE_NEVER_HOMED; board_ := hw |}.

Definition default_machine : Impl :=
  machine_of default_config default_axis_to_driver (fun _ => no_endstop)
    (fun _ => no_endstop) (Some []) (board_with (fun _ _ => 0)).

(** A position in mm, given as whole millimetres on X, Y, Z and E. *)
Definition mm (x y z e : Z) : AxesRegister := fun a =>
  match a with
  | AXIS_X => F32.of_int x | AXIS_Y => F32.of_int y | AXIS_Z => F32.of_int z
  | AXIS_E => F32.of_int e | _ => F32.zero
  end.

(** A stand-in for the C library's [atan2f] in the runs below: right on the
    four half-axes, where the result is a multiple of pi/2, and on the
    diagonal [y = x > 0], where it is pi/4 (each rounded to float); 0
    elsewhere. *)
Definition atan2f_on_axes (y x : float) : float :=
  let quarter_pi := F64.to_float (F64.div pi_literal (F64.of_int 4)) in
  let half_pi := F64.to_float (F64.div pi_literal (F64.of_int 2)) in
  let pi := F64.to_float pi_literal in
  if F32.eqb y F32.zero then (if F32.ltb x F32.zero then pi else F32.zero)
  else if F32.eqb x F32.zero then (if F32.ltb y F32.zero then SFopp half_pi else half_pi)
  else if F32.eqb y x && F32.gtb x F32.zero then quarter_pi
  else F32.zero.

(** What a motor command holds, for display: the step counts of the eight
    drivers with the two speeds. *)
Definition show_command (c : MotorMovement) : list Z * float * float :=
  (map (steps c) all_motors, v0 c, v1 c).

Definition enqueued (st : Impl) : list MotorMovement :=
  flat_map (fun op => match op with Enqueue m => [m] | _ => [] end) (motor_ops_ st).

(** ** Vocabulary of the properties *)

(** Driver [m] is mapped to axis [k], and to no other axis ([Create] gives
    each connector of the mapping string to one axis). *)
Definition sole_axis_of (st : Impl) (m : nat) (k : GCodeParserAxis) : Prop :=
  Z.testbit (axis_to_driver_ st k) (Z.of_nat m) = true /\
  forall j, Z.testbit (axis_to_driver_ st j) (Z.of_nat m) = true -> j = k.

(** The steps driver [m] is sent over a list of segments. *)
Definition total_steps (segments : list MotorMovement) (m : nat) : Z :=
  fold_right (fun c acc => steps c m + acc) 0 segments.

(** A segment, when it is emitted. *)
Definition emitted (b : bool) (c : MotorMovement) : list MotorMovement :=
  if b then [c] else [].

(** The result of a call known to succeed. *)
Definition ok_or {A : Type} (d : A) (r : result A) : A :=
  match r with
  | Ok a => a
  | Err _ => d
  end.

(** ** Targets to run the segmenter on *)

(** A target reached by the step deltas [dx], [dy], [dz] from the origin
    of the steps, at [hz] steps/s on the defining axis [d]. *)
Definition target_xyz (dx dy dz : Z) (d : GCodeParserAxis) (hz : Z) (deg : Z) : AxisTarget :=
  {| position_steps := fun a => match a with AXIS_X => dx | AXIS_Y => dy | AXIS_Z => dz | _ => 0 end;
     delta_steps := fun a => match a with AXIS_X => dx | AXIS_Y => dy | AXIS_Z => dz | _ => 0 end;
     defining_axis := d; speed := F32.of_int hz; angle := F32.of_int deg; aux_bits := 0 |}.

(** The halt sentinel that follows a target. *)
Definition halt_after (t : AxisTarget) : AxisTarget :=
  {| position_steps := position_steps t; delta_steps := fun _ => 0;
     defining_axis := AXIS_X; speed := F32.zero; angle := angle t; aux_bits := 0 |}.

(** A diagonal move of 1600 steps on X and 333 on Y at 16 kHz, entered
    from rest after a turn and followed by a halt. *)
Definition diagonal_target : AxisTarget := target_xyz 1600 333 0 AXIS_X 16000 90.

Definition diagonal_outcome : AxisTarget * Impl :=
  ok_or (diagonal_target, default_machine)
    (move_machine_steps default_machine AxisTarget_zero diagonal_target
       (halt_after diagonal_target)).

(** Axis [k] turns around between two targets: both deltas are nonzero, of
    opposite signs. *)
Definition turns_around (from to : AxisTarget) (k : GCodeParserAxis) : Prop :=
  (delta_steps from k < 0 /\ delta_steps to k > 0) \/
  (delta_steps from k > 0 /\ delta_steps to k < 0).



(** A move of one step along +Y at 16 kHz, after a turn and before a halt. *)
Definition one_step_target : AxisTarget := target_xyz 0 1 0 AXIS_Y 16000 90.

Definition one_step_outcome : AxisTarget * Impl :=
  ok_or (one_step_target, default_machine)
    (move_machine_steps default_machine AxisTarget_zero one_step_target
       (halt_after one_step_target)).

Definition RampPlan_zero : RampPlan :=
  {| last_speed := F32.zero; next_speed := F32.zero; abs_defining_axis_steps := 0;
     target_speed := F32.zero; accel_fraction := F32.zero; decel_fraction := F32.zero;
     accel_decel_steps := 0; accel_decel_mm := F32.zero; do_accel := false |}.

(** The plans of the runs above. *)
Definition diagonal_plan : RampPlan :=
  ok_or RampPlan_zero
    (plan_ramps default_machine AxisTarget_zero diagonal_target (halt_after diagonal_target)).

Definition one_step_plan : RampPlan :=
  ok_or RampPlan_zero
    (plan_ramps default_machine AxisTarget_zero one_step_target (halt_after one_step_target)).

(** ** Probing *)

Definition msg_no_probe : string :=
  "// BeagleG: No probe - axis %c does not have a travel endstop" ++ LF.

(** [probe_axis]: [None] stands for the [false] it returns, [Some r] for
    [true] with [r] left in [*probe_result]. *)
Definition probe_axis (fuel : nat) (st : Impl) (feedrate : float) (axis : GCodeParserAxis)
    : result (option float * Impl) :=
  let '(homed, st) := test_homing_status_ok st in
  if negb homed then Ok (None, st)
  else
    st <- bring_path_to_halt st ;;
    (* We try to find the axis that is _not_ used for homing. *)
    let use_min :=
      negb (endstop_number (min_endstop_ st axis) =? 0)
      && negb (homing_use (min_endstop_ st axis)) in
    let dir := if use_min then -1 else 1 in
    let config := if use_min then min_endstop_ st axis else max_endstop_ st axis in
    let gpio_def := get_endstop_gpio_descriptor (board_ st) config in
    if (gpio_def =? 0) || homing_use config then
      Ok (None, mprintf st msg_no_probe [ArgChar (gcodep_axis2letter axis)])
    else
      _ <- RingDeque.back (planning_buffer_ st) ;;
      let last_slot :=
        RingDeque.slot (planning_buffer_ st) (RingDeque.size (planning_buffer_ st) - 1) in
      let feedrate := if F32.leb feedrate F32.zero then F32.of_int 20 else feedrate in
      '(total_steps, st) <-
        move_to_endstop fuel st axis feedrate 0 dir (trigger_value config) gpio_def ;;
      let q := planning_buffer_ st in
      let last := RingDeque.buffer q last_slot in
      p <- CInt.add (position_steps last axis) total_steps ;;
      let last' :=
        {| position_steps := set_axis (position_steps last) axis p;
           delta_steps := delta_steps last; defining_axis := defining_axis last;
           speed := speed last; angle := angle last; aux_bits := aux_bits last |} in
      Ok (Some (F32.div (F32.mul F32.one (F32.of_int p)) (steps_per_mm (cfg_ st) axis)),
          set_planning_buffer st (RingDeque.store q last_slot last')).

(** ** More machines and runs *)

(** The diagonal move of 10 mm on X and Y at 200 mm/s, on the default
    machine. *)
Definition diagonal_move_outcome : Impl :=
  ok_or default_machine
    (machine_move atan2f_on_axes default_machine (F32.of_int 200) (mm 10 10 0 0)).

(** The default machine with homing required. *)
Definition homing_config : MachineControlConfig :=
  {| steps_per_mm := kStepsPerMM; max_feedrate := kMaxFeedrate;
     acceleration := kDefaultAccel;
     move_range_mm := fun a => match a with AXIS_Z => F32.of_int 100 | _ => F32.zero end;
     speed_factor := F32.of_int 1; threshold_angle := F32.of_int 10;
     home_order := "ZXY"; require_homing := true; range_check := true;
     synchronous := false |}.

(** Endstop 1 is the home switch at the low end of X and endstop 2 a probe
    switch at the low end of Z, both triggered low; X has no other switch. *)
Definition x_home_z_probe_min : per_axis EndstopConfig := fun a =>
  match a with
  | AXIS_X => {| trigger_value := 0; homing_use := true; endstop_number := 1 |}
  | AXIS_Z => {| trigger_value := 0; homing_use := false; endstop_number := 2 |}
  | _ => no_endstop
  end.

(** Pin 1, the home switch of X, reads high (open) for the first [n] reads,
    low at read [n] and high again afterwards, when the axis has backed off
    its switch; the other pins read high for the first [n + 5] reads and low
    afterwards. *)
Definition switch_closes_after (n : nat) : nat -> Z -> Z := fun read pin =>
  if (read <? n)%nat then 1
  else if pin =? 1 then (if (n <? read)%nat then 1 else 0)
  else if (read <? n + 5)%nat then 1 else 0.

Definition homing_machine (out : option (list printf_call)) : Impl :=
  machine_of homing_config default_axis_to_driver x_home_z_probe_min
    (fun _ => no_endstop) out (board_with (switch_closes_after 3)).

(** The homing machine with a target of 10 mm on X and Y in its planning
    buffer, as [machine_move] builds it. *)
Definition moved_homing_machine : Impl :=
  ok_or (homing_machine None)
    (machine_move atan2f_on_axes (homing_machine None) (F32.of_int 200) (mm 10 10 0 0)).



(** The homing machine after G28 X, then with the motors switched off. *)
Definition homed_machine : Impl :=
  ok_or (homing_machine (Some [])) (go_home 10 (homing_machine (Some [])) 1).

Definition unpowered_machine : Impl :=
  ok_or homed_machine (motors_enable homed_machine false).


Definition probe_x_outcome : option float * Impl :=
  ok_or (None, homed_machine) (probe_axis 10 homed_machine F32.zero AXIS_X).

(** The diagonal move as the G1 callback makes it, at feed 200. *)
Definition coordinated_diagonal_outcome : bool * Impl :=
  ok_or (false, default_machine)
    (coordinated_move atan2f_on_axes default_machine (F32.of_int 200) (mm 10 10 0 0)).

(** ** Vocabulary of the homing properties *)

(** [n] rounds of sending a segment and waiting for the queue to drain. *)
Fixpoint segment_rounds_sent (n : nat) (c : MotorMovement) (keep_speed : bool)
    : list MotorOp :=
  match n with
  | O => []
  | S n' =>
      Enqueue c :: WaitQueueEmpty
      :: segment_rounds_sent n' (if keep_speed then c else with_v c (v1 c) (v1 c)) keep_speed
  end.

(** A segment of 7 steps on every driver, less one of 7 steps on every
    driver but the fourth, which has 5. *)
Definition cruise_rest : MotorMovement * bool :=
  ok_or (MotorMovement_zero, false)
    (substract_steps (with_steps MotorMovement_zero (fun _ => 7))
       (with_steps MotorMovement_zero (fun m => if (m =? 3)%nat then 5 else 7))).

(** 5 steps of X on the default machine. *)
Definition x_five_steps : MotorMovement :=
  ok_or MotorMovement_zero
    (assign_steps_to_motors default_machine MotorMovement_zero AXIS_X 5).

(** G0 X10 Y10 without a feed on the default machine. *)
Definition rapid_diagonal_outcome : bool * Impl :=
  ok_or (false, default_machine)
    (rapid_move atan2f_on_axes default_machine F32.zero (mm 10 10 0 0)).

(** ** The home position *)

(** [GetHomePos]: all zero, but the range of an axis that homes at its max
    endstop. *)
Definition GetHomePos (st : Impl) : AxesRegister :=
  fold_left
    (fun home_pos axis =>
       let '(gpio_def, dir, _) := GetHomeEndstop st axis in
       if gpio_def =? 0 then home_pos
       else set_axis home_pos axis
              (if dir <? 0 then F32.zero else move_range_mm (cfg_ st) axis))
    all_axes (fun _ => F32.zero).

(** Some letter of [order] names the axis [k]. *)
Definition listed (k : GCodeParserAxis) (order : string) : bool :=
  existsb (fun c => match gcodep_letter2axis c with
                    | Some a => axis_eqb a k
                    | None => false
                    end)
          (list_ascii_of_string order).

(** [go_home] homes the axis [k]: it is selected in the bitmap, named in the
    home order and has a home switch. *)
Definition homed_by (st : Impl) (axes_bitmap : Z) (k : GCodeParserAxis) : bool :=
  Z.testbit axes_bitmap (axis_index k)
  && listed k (home_order (cfg_ st))
  && negb (fst (fst (GetHomeEndstop st k)) =? 0).

(** G28 X Y on the homing machine, from X = Y = 10 mm. *)
Definition go_home_outcome : Impl :=
  ok_or moved_homing_machine (go_home 10 moved_homing_machine 3).


(** * Properties *)

(** ** The error monad and the integers *)

Lemma bind_Ok {A B : Type} (r : result A) (k : A -> result B) (b : B) :
  bind r k = Ok b -> exists a, r = Ok a /\ k a = Ok b.
Proof.
  destruct r as [a|f]; simpl; intros H.
  - exists a; split; [reflexivity | exact H].
  - discriminate H.
Qed.

Lemma Ok_inj {A : Type} (a b : A) : Ok a = Ok b -> a = b.
Proof. intros H. injection H as ->. reflexivity. Qed.

Lemma c_assert_Ok (b : bool) (u : unit) : c_assert b = Ok u -> b = true.
Proof. destruct b; simpl; [reflexivity | discriminate]. Qed.

(** Peels one [bind] off a hypothesis [H : ... = Ok _]. *)
Ltac bind_inv H :=
  let a := fresh "a" in
  let Ha := fresh "E" in
  apply bind_Ok in H; destruct H as (a & Ha & H).

Lemma int_Ok (z r : Z) :
  CInt.int z = Ok r -> r = z /\ CInt.INT_MIN <= z <= CInt.INT_MAX.
Proof.
  unfold CInt.int, CInt.in_range.
  destruct (CInt.INT_MIN <=? z) eqn:E1; simpl; try discriminate.
  destruct (z <=? CInt.INT_MAX) eqn:E2; try discriminate.
  intros H; injection H as <-. split; [reflexivity | lia].
Qed.

(** ** Rounding and conversion, on examples *)

Example roundf_half : F32.roundf (F32.div (F32.of_int 5) (F32.of_int 2)) = F32.of_int 3.
Proof. reflexivity. Qed.
Example round2int_neg : round2int (F32.div (F32.of_int (-7)) (F32.of_int 2)) = Ok (-4).
Proof. reflexivity. Qed.
Example to_int_trunc : F32.to_int (F32.div (F32.of_int (-7)) (F32.of_int 2)) = Ok (-3).
Proof. reflexivity. Qed.

(** ** The axes *)

Lemma axis_eqb_eq (a b : GCodeParserAxis) : axis_eqb a b = true <-> a = b.
Proof.
  unfold axis_eqb; split.
  - destruct a, b; simpl; intros H; try reflexivity; discriminate H.
  - intros ->. apply Z.eqb_refl.
Qed.

Lemma axis_eqb_refl (a : GCodeParserAxis) : axis_eqb a a = true.
Proof. apply axis_eqb_eq; reflexivity. Qed.

Lemma all_axes_complete (a : GCodeParserAxis) : In a all_axes.
Proof. destruct a; simpl; tauto. Qed.

Lemma all_axes_NoDup : NoDup all_axes.
Proof.
  unfold all_axes.
  repeat (constructor; [simpl; intros H; repeat (destruct H as [H|H]; [discriminate H|]); exact H|]).
  constructor.
Qed.

(** ** Motor fan-out *)

Section FanOut.

Variable st : Impl.

Lemma assign_loop_spec (axis : GCodeParserAxis) (n : Z) (l : list nat) :
  forall c c',
    for_each l
      (fun motor c =>
         if Z.testbit (axis_to_driver_ st axis) (Z.of_nat motor) then
           f <- CInt.mul (axis_flip_ st axis) (driver_flip_ st motor) ;;
           v <- CInt.mul f n ;;
           Ok (with_steps c (fun j => if (j =? motor)%nat then v else steps c j))
         else Ok c) c = Ok c' ->
    (v0 c' = v0 c /\ v1 c' = v1 c /\ mm_aux_bits c' = mm_aux_bits c) /\
    forall m,
      steps c' m =
        if existsb (Nat.eqb m) l && Z.testbit (axis_to_driver_ st axis) (Z.of_nat m)
        then axis_flip_ st axis * driver_flip_ st m * n
        else steps c m.
Proof.
  induction l as [|motor l IH]; simpl; intros c c' H.
  - injection H as <-. repeat split; reflexivity.
  - bind_inv H.
    destruct (Z.testbit (axis_to_driver_ st axis) (Z.of_nat motor)) eqn:Ebit.
    + bind_inv E. bind_inv E. injection E as <-.
      apply int_Ok in E0 as [-> _]. apply int_Ok in E1 as [-> _].
      apply IH in H as [(Hv0 & Hv1 & Ha) Hs]. simpl in *.
      split; [auto|]. intros m. rewrite Hs.
      destruct (m =? motor)%nat eqn:Em; simpl.
      * apply Nat.eqb_eq in Em; subst m. rewrite Ebit.
        destruct (existsb (Nat.eqb motor) l); reflexivity.
      * reflexivity.
    + injection E as <-. apply IH in H as [Hv Hs].
      split; [exact Hv|]. intros m. rewrite Hs.
      destruct (m =? motor)%nat eqn:Em; simpl; [|reflexivity].
      apply Nat.eqb_eq in Em; subst m. rewrite Ebit, andb_false_r.
      destruct (existsb (Nat.eqb motor) l); reflexivity.
Qed.

Lemma existsb_all_motors (m : nat) :
  existsb (Nat.eqb m) all_motors = (m <? BEAGLEG_NUM_MOTORS)%nat.
Proof.
  unfold all_motors.
  destruct (m <? BEAGLEG_NUM_MOTORS)%nat eqn:E.
  - apply existsb_exists. exists m. split; [|apply Nat.eqb_refl].
    apply in_seq. apply Nat.ltb_lt in E. lia.
  - destruct (existsb (Nat.eqb m) (seq 0 BEAGLEG_NUM_MOTORS)) eqn:E'; [|reflexivity].
    apply existsb_exists in E' as (x & Hin & Hx). apply Nat.eqb_eq in Hx; subst x.
    apply in_seq in Hin. apply Nat.ltb_ge in E. lia.
Qed.

(** What [assign_steps_to_motors] leaves in a command. *)
Lemma assign_steps_to_motors_spec (c c' : MotorMovement) (axis : GCodeParserAxis) (n : Z) :
  assign_steps_to_motors st c axis n = Ok c' ->
  (v0 c' = v0 c /\ v1 c' = v1 c /\ mm_aux_bits c' = mm_aux_bits c) /\
  forall m,
    steps c' m =
      if (m <? BEAGLEG_NUM_MOTORS)%nat && Z.testbit (axis_to_driver_ st axis) (Z.of_nat m)
      then axis_flip_ st axis * driver_flip_ st m * n
      else steps c m.
Proof.
  unfold assign_steps_to_motors. intros H.
  apply assign_loop_spec in H as [Hv Hs]. split; [exact Hv|].
  intros m. rewrite Hs, existsb_all_motors. reflexivity.
Qed.

(** A loop that assigns, to every axis of [l] in turn, the count [g] gives
    for it: a driver of one axis alone ends with that axis's count. *)
Lemma fan_out_loop (g : GCodeParserAxis -> result Z) (l : list GCodeParserAxis) :
  forall c c',
    for_each l (fun i c => n <- g i ;; assign_steps_to_motors st c i n) c = Ok c' ->
    (v0 c' = v0 c /\ v1 c' = v1 c /\ mm_aux_bits c' = mm_aux_bits c) /\
    (forall k, In k l -> exists n, g k = Ok n) /\
    forall k m, (m < BEAGLEG_NUM_MOTORS)%nat -> sole_axis_of st m k ->
      steps c' m =
        if existsb (axis_eqb k) l
        then axis_flip_ st k * driver_flip_ st m * ok_or 0 (g k)
        else steps c m.
Proof.
  induction l as [|i l IH]; simpl; intros c c' H.
  - injection H as <-. repeat split; try reflexivity. intros k [].
  - bind_inv H. bind_inv E. rename a0 into n.
    apply assign_steps_to_motors_spec in E as [(Hv0 & Hv1 & Ha) Hs].
    apply IH in H as [(Hv0' & Hv1' & Ha') [Hg Hsteps]].
    split; [repeat split; congruence|]. split.
    + intros k [<-|Hin]; [exists n; exact E0 | apply Hg, Hin].
    + intros k m Hm [Hbit Hsole]. rewrite (Hsteps k m Hm (conj Hbit Hsole)).
      destruct (existsb (axis_eqb k) l) eqn:El; [rewrite orb_true_r; reflexivity|].
      rewrite orb_false_r, Hs.
      apply Nat.ltb_lt in Hm. rewrite Hm. simpl.
      destruct (axis_eqb k i) eqn:Ek.
      * apply axis_eqb_eq in Ek; subst i. rewrite Hbit, E0. reflexivity.
      * destruct (Z.testbit (axis_to_driver_ st i) (Z.of_nat m)) eqn:Ei; [|reflexivity].
        apply Hsole in Ei. subst i. rewrite axis_eqb_refl in Ek. discriminate Ek.
Qed.

Lemma existsb_all_axes (k : GCodeParserAxis) : existsb (axis_eqb k) all_axes = true.
Proof. destruct k; reflexivity. Qed.

(** The ramp loop of [move_machine_steps]. *)
Lemma ramp_command_spec (fraction : float) (axis_steps : per_axis Z) (c c' : MotorMovement) :
  ramp_command st fraction axis_steps c = Ok c' ->
  (v0 c' = v0 c /\ v1 c' = v1 c /\ mm_aux_bits c' = mm_aux_bits c) /\
  exists count : per_axis Z,
    (forall k, round2int (F32.mul fraction (F32.of_int (axis_steps k))) = Ok (count k)) /\
    forall k m, (m < BEAGLEG_NUM_MOTORS)%nat -> sole_axis_of st m k ->
      steps c' m = axis_flip_ st k * driver_flip_ st m * count k.
Proof.
  unfold ramp_command. intros H.
  apply fan_out_loop in H as [Hv [Hg Hs]]. split; [exact Hv|].
  exists (fun k => ok_or 0 (round2int (F32.mul fraction (F32.of_int (axis_steps k))))).
  split.
  - intros k. destruct (Hg k (all_axes_complete k)) as [n ->]. reflexivity.
  - intros k m Hm Hsole. rewrite (Hs k m Hm Hsole), existsb_all_axes. reflexivity.
Qed.

(** The loop that maps all the steps of the target to the drivers. *)
Lemma full_command_spec (axis_steps : per_axis Z) (c c' : MotorMovement) :
  for_each all_axes (fun i c => assign_steps_to_motors st c i (axis_steps i)) c = Ok c' ->
  (v0 c' = v0 c /\ v1 c' = v1 c /\ mm_aux_bits c' = mm_aux_bits c) /\
  forall k m, (m < BEAGLEG_NUM_MOTORS)%nat -> sole_axis_of st m k ->
    steps c' m = axis_flip_ st k * driver_flip_ st m * axis_steps k.
Proof.
  intros H.
  apply (fan_out_loop (fun i => Ok (axis_steps i))) in H as [Hv [_ Hs]].
  split; [exact Hv|].
  intros k m Hm Hsole. rewrite (Hs k m Hm Hsole), existsb_all_axes. reflexivity.
Qed.

End FanOut.

Lemma substract_loop_spec (s : MotorMovement) (l : list nat) :
  NoDup l ->
  forall c b c' b',
    for_each l
      (fun i '(c, has_nonzero) =>
         d <- CInt.sub (steps c i) (steps s i) ;;
         Ok (with_steps c (fun j => if (j =? i)%nat then d else steps c j),
             has_nonzero || negb (d =? 0)))
      (c, b) = Ok (c', b') ->
    (v0 c' = v0 c /\ v1 c' = v1 c /\ mm_aux_bits c' = mm_aux_bits c) /\
    (forall m, ~ In m l -> steps c' m = steps c m) /\
    (forall m, In m l -> steps c' m = steps c m - steps s m) /\
    (b' = false -> b = false /\ forall m, In m l -> steps c' m = 0).
Proof.
  induction 1 as [|i l Hi Hnd IH]; simpl; intros c b c' b' H.
  - injection H as <- <-. repeat split; try reflexivity; try tauto.
  - bind_inv H. bind_inv E. injection E as <-. rename a0 into d.
    apply int_Ok in E0 as [-> _].
    apply IH in H as [(Hv0 & Hv1 & Ha) [Hout [Hin Hz]]]. simpl in *.
    assert (Hci : steps c' i = steps c i - steps s i).
    { rewrite (Hout i Hi), Nat.eqb_refl. reflexivity. }
    split; [auto|]. split; [|split].
    + intros m Hm. rewrite Hout by tauto.
      destruct (m =? i)%nat eqn:Em; [|reflexivity].
      apply Nat.eqb_eq in Em. subst m. tauto.
    + intros m [<-|Hm]; [exact Hci|].
      rewrite (Hin m Hm).
      destruct (m =? i)%nat eqn:Em; [|reflexivity].
      apply Nat.eqb_eq in Em. subst m. tauto.
    + intros Hb'. destruct (Hz Hb') as [Hb Hzero].
      apply orb_false_iff in Hb as [Hb Hd]. split; [exact Hb|].
      intros m [<-|Hm]; [|apply Hzero, Hm].
      rewrite Hci. apply negb_false_iff, Z.eqb_eq in Hd. exact Hd.
Qed.

(** What [substract_steps] leaves in [value], and what its flag says. *)
Lemma substract_steps_spec (value substract value' : MotorMovement) (has_nonzero : bool) :
  substract_steps value substract = Ok (value', has_nonzero) ->
  (v0 value' = v0 value /\ v1 value' = v1 value /\ mm_aux_bits value' = mm_aux_bits value) /\
  (forall m, (m < BEAGLEG_NUM_MOTORS)%nat ->
     steps value' m = steps value m - steps substract m) /\
  (has_nonzero = false ->
     forall m, (m < BEAGLEG_NUM_MOTORS)%nat -> steps value' m = 0).
Proof.
  unfold substract_steps. intros H.
  apply substract_loop_spec in H as [Hv [_ [Hin Hz]]]; [|apply seq_NoDup].
  assert (Hall : forall m, (m < BEAGLEG_NUM_MOTORS)%nat -> In m all_motors).
  { intros m Hm. apply in_seq. lia. }
  split; [exact Hv|]. split.
  - intros m Hm. apply Hin, Hall, Hm.
  - intros Hf m Hm. apply (proj2 (Hz Hf)), Hall, Hm.
Qed.

(** ** The segmenter: what a call sends to the motors *)

Lemma enqueued_motor_call (st : Impl) (op : MotorOp) :
  enqueued (motor_call st op) =
  enqueued st ++ match op with Enqueue m => [m] | _ => [] end.
Proof.
  unfold enqueued, motor_call. simpl. rewrite flat_map_app. simpl.
  rewrite app_nil_r. reflexivity.
Qed.

(** A call of [move_machine_steps] on a moving target, taken apart: the
    plan, the three commands, and what of them is sent. *)
Lemma move_machine_steps_Ok (st st' : Impl) (last_pos target_pos upcoming target' : AxisTarget) :
  delta_steps target_pos (defining_axis target_pos) <> 0 ->
  move_machine_steps st last_pos target_pos upcoming = Ok (target', st') ->
  exists (p : RampPlan) (accel_command move_command decel_command : MotorMovement)
         (has_move : bool),
    plan_ramps st last_pos target_pos upcoming = Ok p /\
    (if has_accel p
     then ramp_command st (accel_fraction p) (delta_steps target_pos)
            {| v0 := last_speed p; v1 := target_speed p;
               mm_aux_bits := aux_bits target_pos; steps := fun _ => 0 |}
     else Ok {| v0 := F32.zero; v1 := F32.zero;
                mm_aux_bits := aux_bits target_pos; steps := fun _ => 0 |})
    = Ok accel_command /\
    (if has_decel p
     then ramp_command st (decel_fraction p) (delta_steps target_pos)
            {| v0 := target_speed p; v1 := next_speed p;
               mm_aux_bits := aux_bits target_pos; steps := fun _ => 0 |}
     else Ok {| v0 := F32.zero; v1 := F32.zero;
                mm_aux_bits := aux_bits target_pos; steps := fun _ => 0 |})
    = Ok decel_command /\
    (v0 move_command = speed target_pos /\ v1 move_command = speed target_pos /\
     mm_aux_bits move_command = aux_bits target_pos) /\
    (forall k m, (m < BEAGLEG_NUM_MOTORS)%nat -> sole_axis_of st m k ->
       steps move_command m =
         axis_flip_ st k * driver_flip_ st m * delta_steps target_pos k
         - steps accel_command m - steps decel_command m) /\
    (has_move = false ->
       forall m, (m < BEAGLEG_NUM_MOTORS)%nat -> steps move_command m = 0) /\
    target' = with_speed target_pos
                (if has_decel p then next_speed p else target_speed p) /\
    enqueued st' =
      enqueued st ++ emitted (has_accel p) accel_command
                  ++ emitted has_move move_command
                  ++ emitted (has_decel p) decel_command /\
    planning_buffer_ st' = planning_buffer_ st /\
    msg_stream_ st' = msg_stream_ st.
Proof.
  intros Hd H. unfold move_machine_steps in H.
  apply Z.eqb_neq in Hd. rewrite Hd in H.
  bind_inv H. rename a into p.
  bind_inv H. rename a into accel_command.
  bind_inv H. rename a into decel_command.
  bind_inv H. rename a into move1.
  bind_inv H. destruct a as [move2 nz2].
  bind_inv H. destruct a as [move3 has_move].
  injection H as <- <-.
  apply full_command_spec in E2 as [(Hv0 & Hv1 & Ha) Hfull].
  apply substract_steps_spec in E3 as [(Hv0' & Hv1' & Ha') [Hsub2 _]].
  apply substract_steps_spec in E4 as [(Hv0'' & Hv1'' & Ha'') [Hsub3 Hz]].
  exists p, accel_command, move3, decel_command, has_move.
  split; [exact E|]. split; [exact E0|]. split; [exact E1|].
  split; [simpl in *; repeat split; congruence|].
  split; [intros k m Hm Hs; rewrite (Hsub3 m Hm), (Hsub2 m Hm), (Hfull k m Hm Hs); reflexivity|].
  split; [exact Hz|]. split; [reflexivity|].
  split; [|destruct (synchronous (cfg_ st)), (has_accel p), has_move, (has_decel p);
           split; reflexivity].
  destruct (has_decel p), has_move, (has_accel p), (synchronous (cfg_ st));
    repeat rewrite enqueued_motor_call; simpl;
    repeat rewrite <- app_assoc; simpl; rewrite ?app_nil_r; reflexivity.
Qed.

Lemma total_steps_emitted (ha hm hd : bool) (A C D : MotorMovement) (m : nat) :
  (ha = false -> steps A m = 0) ->
  (hm = false -> steps C m = 0) ->
  (hd = false -> steps D m = 0) ->
  total_steps (emitted ha A ++ emitted hm C ++ emitted hd D) m
  = steps A m + steps C m + steps D m.
Proof.
  intros HA HC HD. unfold total_steps.
  destruct ha, hm, hd; simpl;
    rewrite ?(HA eq_refl), ?(HC eq_refl), ?(HD eq_refl); lia.
Qed.

(** The per-axis counts of a ramp that may be left out. *)
Lemma optional_ramp_spec (st : Impl) (b : bool) (fraction : float) (axis_steps : per_axis Z)
    (c0 c : MotorMovement) (aux : Z) :
  (if b then ramp_command st fraction axis_steps c0
   else Ok {| v0 := F32.zero; v1 := F32.zero; mm_aux_bits := aux; steps := fun _ => 0 |})
  = Ok c ->
  steps c0 = (fun _ => 0) ->
  exists count : per_axis Z,
    (b = true ->
       forall k, round2int (F32.mul fraction (F32.of_int (axis_steps k))) = Ok (count k)) /\
    (b = false -> forall k, count k = 0) /\
    (b = false -> forall m, steps c m = 0) /\
    forall k m, (m < BEAGLEG_NUM_MOTORS)%nat -> sole_axis_of st m k ->
      steps c m = axis_flip_ st k * driver_flip_ st m * count k.
Proof.
  intros H H0. destruct b.
  - apply ramp_command_spec in H as [_ (count & Hc & Hs)].
    exists count. repeat split; try discriminate; auto.
  - injection H as <-. exists (fun _ => 0).
    repeat split; try discriminate; try reflexivity.
    intros k m _ _. simpl. lia.
Qed.

(** C1 (step conservation).  Every call of [move_machine_steps] on a target
    with nonzero defining-axis delta that returns splits the steps of each
    axis [k] into an accel, a cruise and a decel count that sum exactly to
    [delta_steps[k]]: the accel and decel counts are
    [round2int(fraction * delta_steps[k])] (0 for a ramp that is not made)
    and the cruise count is the remainder.  The commands sent are the
    fan-out of these counts, so for every driver [m] mapped to axis [k] the
    steps over the emitted segments sum to
    [axis_flip[k] * driver_flip[m] * delta_steps[k]], whatever the rounding
    of the two fractions. *)
Theorem step_conservation (st st' : Impl) (last_pos target_pos upcoming target' : AxisTarget) :
  delta_steps target_pos (defining_axis target_pos) <> 0 ->
  move_machine_steps st last_pos target_pos upcoming = Ok (target', st') ->
  exists (p : RampPlan) (accel cruise decel : per_axis Z)
         (accel_command move_command decel_command : MotorMovement) (has_move : bool),
    plan_ramps st last_pos target_pos upcoming = Ok p /\
    (* the three counts of every axis *)
    (has_accel p = true -> forall k,
       round2int (F32.mul (accel_fraction p) (F32.of_int (delta_steps target_pos k)))
       = Ok (accel k)) /\
    (has_accel p = false -> forall k, accel k = 0) /\
    (has_decel p = true -> forall k,
       round2int (F32.mul (decel_fraction p) (F32.of_int (delta_steps target_pos k)))
       = Ok (decel k)) /\
    (has_decel p = false -> forall k, decel k = 0) /\
    (forall k, accel k + cruise k + decel k = delta_steps target_pos k) /\
    (* the segments sent, and what each driver gets *)
    enqueued st' =
      enqueued st ++ emitted (has_accel p) accel_command
                  ++ emitted has_move move_command
                  ++ emitted (has_decel p) decel_command /\
    forall k m, (m < BEAGLEG_NUM_MOTORS)%nat -> sole_axis_of st m k ->
      steps accel_command m = axis_flip_ st k * driver_flip_ st m * accel k /\
      steps move_command m = axis_flip_ st k * driver_flip_ st m * cruise k /\
      steps decel_command m = axis_flip_ st k * driver_flip_ st m * decel k /\
      total_steps (emitted (has_accel p) accel_command
                   ++ emitted has_move move_command
                   ++ emitted (has_decel p) decel_command) m
      = axis_flip_ st k * driver_flip_ st m * delta_steps target_pos k.
Proof.
  intros Hd H.
  destruct (move_machine_steps_Ok _ _ _ _ _ _ Hd H)
    as (p & A & C & D & hm & Hp & HA & HD & _ & HC & Hz & _ & Hq & _).
  apply optional_ramp_spec in HA as (accel & Ha1 & Ha0 & HAz & HAs); [|reflexivity].
  apply optional_ramp_spec in HD as (decel & Hd1 & Hd0 & HDz & HDs); [|reflexivity].
  exists p, accel, (fun k => delta_steps target_pos k - accel k - decel k), decel, A, C, D, hm.
  split; [exact Hp|]. split; [exact Ha1|]. split; [exact Ha0|].
  split; [exact Hd1|]. split; [exact Hd0|]. split; [intros k; lia|].
  split; [exact Hq|].
  intros k m Hm Hs.
  assert (HCm : steps C m = axis_flip_ st k * driver_flip_ st m
                            * (delta_steps target_pos k - accel k - decel k)).
  { rewrite (HC k m Hm Hs), (HAs k m Hm Hs), (HDs k m Hm Hs). ring. }
  split; [apply HAs; assumption|]. split; [exact HCm|]. split; [apply HDs; assumption|].
  rewrite total_steps_emitted; auto.
  rewrite HCm, (HAs k m Hm Hs), (HDs k m Hm Hs). ring.
Qed.

Lemma default_machine_sole_axis (k : GCodeParserAxis) (m : nat) :
  Z.testbit (default_axis_to_driver k) (Z.of_nat m) = true ->
  sole_axis_of default_machine m k.
Proof.
  intros Hk. split; [exact Hk|].
  intros j Hj. simpl in Hj.
  destruct m as [|[|[|[|[|m]]]]].
  1-5: destruct k; try discriminate Hk; destruct j; try discriminate Hj; reflexivity.
  exfalso.
  assert (H5 : forall z, 0 <= z < 32 ->
                 Z.testbit z (Z.of_nat (S (S (S (S (S m)))))) = false).
  { intros z Hz. destruct (Z.eq_dec z 0) as [->|Hn]; [apply Z.bits_0|].
    apply Z.bits_above_log2; [lia|].
    apply Z.lt_le_trans with 5; [|lia].
    apply Z.log2_lt_pow2; lia. }
  rewrite H5 in Hk; [discriminate Hk|]. destruct k; simpl; lia.
Qed.

(** The diagonal move is sent as accel (200, 42), cruise (1200, 249) and
    decel (200, 42): drivers 0 and 1 get the 1600 and 333 steps of X and Y. *)
Lemma step_conservation_witness :
  move_machine_steps default_machine AxisTarget_zero diagonal_target
    (halt_after diagonal_target) = Ok diagonal_outcome /\
  map show_command (enqueued (snd diagonal_outcome)) =
    [([200; 42; 0; 0; 0; 0; 0; 0], F32.zero, F32.of_int 16000);
     ([1200; 249; 0; 0; 0; 0; 0; 0], F32.of_int 16000, F32.of_int 16000);
     ([200; 42; 0; 0; 0; 0; 0; 0], F32.of_int 16000, F32.zero)] /\
  total_steps (enqueued (snd diagonal_outcome)) 0 = 1 * 1 * 1600 /\
  total_steps (enqueued (snd diagonal_outcome)) 1 = 1 * 1 * 333.
Proof.
  assert (Hrun : move_machine_steps default_machine AxisTarget_zero diagonal_target
                   (halt_after diagonal_target)
                 = Ok (fst diagonal_outcome, snd diagonal_outcome))
    by (vm_compute; reflexivity).
  assert (Hmoving : delta_steps diagonal_target (defining_axis diagonal_target) <> 0)
    by (vm_compute; discriminate).
  destruct (step_conservation _ _ _ _ _ _ Hmoving Hrun)
    as (p & accel & cruise & decel & A & C & D & hm & _ & _ & _ & _ & _ & _ & Hq & Hs).
  split; [vm_compute; reflexivity|]. split; [vm_compute; reflexivity|].
  rewrite Hq. change (enqueued default_machine) with (@nil MotorMovement). simpl app.
  split.
  - apply (Hs AXIS_X 0%nat); [unfold BEAGLEG_NUM_MOTORS; lia|].
    apply default_machine_sole_axis. reflexivity.
  - apply (Hs AXIS_Y 1%nat); [unfold BEAGLEG_NUM_MOTORS; lia|].
    apply default_machine_sole_axis. reflexivity.
Defined.

(** ** The junction solver *)

Lemma joining_speed_loop_turnaround (from to : AxisTarget) (threshold ang : float)
    (k : GCodeParserAxis) :
  F32.ltb ang threshold = false ->
  turns_around from to k ->
  forall axes is_first v,
    In k axes ->
    joining_speed_loop from to threshold ang axes is_first v = F32.zero.
Proof.
  intros Hang Hturn.
  induction axes as [|axis rest IH]; intros is_first v Hin; [destruct Hin|].
  simpl. rewrite Hang.
  destruct ((delta_steps from axis =? 0) && (delta_steps to axis =? 0)) eqn:Eboth.
  { (* no move on [axis]: it is not [k] *)
    apply IH. destruct Hin as [->|Hin]; [|exact Hin].
    apply andb_true_iff in Eboth as [E1 _]. apply Z.eqb_eq in E1.
    unfold turns_around in Hturn. lia. }
  destruct ((delta_steps from axis =? 0) || (delta_steps to axis =? 0)); [reflexivity|].
  destruct (((delta_steps from axis <? 0) && (delta_steps to axis >? 0))
            || ((delta_steps from axis >? 0) && (delta_steps to axis <? 0))) eqn:Eturn;
    [reflexivity|].
  assert (Hrest : In k rest).
  { destruct Hin as [->|Hin]; [|exact Hin]. exfalso.
    apply orb_false_iff in Eturn as [E1 E2].
    apply andb_false_iff in E1, E2. unfold turns_around in Hturn.
    destruct Hturn as [[H1 H2]|[H1 H2]].
    - destruct E1 as [E1|E1]; [|rewrite Z.gtb_ltb in E1]; apply Z.ltb_ge in E1; lia.
    - destruct E2 as [E2|E2]; [rewrite Z.gtb_ltb in E2|]; apply Z.ltb_ge in E2; lia. }
  match goal with |- (if ?c then _ else _) = _ => destruct c; [reflexivity|] end.
  match goal with |- (if ?c then _ else _) = _ => destruct c; [|reflexivity] end.
  apply IH, Hrest.
Qed.

(** C3, amended (turnaround zero).  When the corner angle is not below the
    threshold and some axis has nonzero deltas of opposite signs in [from]
    and [to], [determine_joining_speed] returns 0.  (Below the threshold no
    axis is looked at and the result is [from->speed].) *)
Theorem turnaround_zero (from to : AxisTarget) (threshold ang : float) (k : GCodeParserAxis) :
  F32.ltb ang threshold = false ->
  turns_around from to k ->
  determine_joining_speed from to threshold ang = F32.zero.
Proof.
  intros Hang Hturn. unfold determine_joining_speed.
  apply joining_speed_loop_turnaround with (k := k); auto using all_axes_complete.
Qed.

(** A move of 1600 steps along +X followed by one of 1600 steps along -X,
    at a corner angle of 180 degrees against the threshold of 10. *)
Lemma turnaround_zero_witness :
  F32.ltb (F32.of_int 180) (F32.of_int 10) = false /\
  turns_around (target_xyz 1600 0 0 AXIS_X 16000 0)
               (target_xyz (-1600) 0 0 AXIS_X 16000 180) AXIS_X /\
  determine_joining_speed (target_xyz 1600 0 0 AXIS_X 16000 0)
    (target_xyz (-1600) 0 0 AXIS_X 16000 180) (F32.of_int 10) (F32.of_int 180)
  = F32.zero.
Proof.
  assert (Hang : F32.ltb (F32.of_int 180) (F32.of_int 10) = false) by reflexivity.
  assert (Hturn : turns_around (target_xyz 1600 0 0 AXIS_X 16000 0)
                    (target_xyz (-1600) 0 0 AXIS_X 16000 180) AXIS_X)
    by (right; simpl; lia).
  split; [exact Hang|]. split; [exact Hturn|].
  exact (turnaround_zero _ _ _ _ AXIS_X Hang Hturn).
Defined.

(** C3 as stated fails below the threshold: X reverses from +1600 to -1600
    steps, the corner angle passed is 0 against a threshold of 10, and the
    junction speed is the full 16000 steps/s of [from], not 0. *)
Lemma turnaround_not_zero_below_threshold :
  delta_steps (target_xyz 1600 0 0 AXIS_X 16000 0) AXIS_X = 1600 /\
  delta_steps (target_xyz (-1600) 0 0 AXIS_X 16000 0) AXIS_X = -1600 /\
  determine_joining_speed (target_xyz 1600 0 0 AXIS_X 16000 0)
    (target_xyz (-1600) 0 0 AXIS_X 16000 0) (F32.of_int 10) F32.zero
  = F32.of_int 16000 /\
  F32.eqb (F32.of_int 16000) F32.zero = false.
Proof. repeat split. Qed.

(** ** The segmenter: the plan *)

(** What [plan_ramps] settles, local by local. *)
Lemma plan_ramps_Ok (st : Impl) (last_pos target_pos upcoming : AxisTarget) (p : RampPlan) :
  plan_ramps st last_pos target_pos upcoming = Ok p ->
  let d := defining_axis target_pos in
  last_speed p = F32.fabsf (get_speed_for_axis last_pos d) /\
  next_speed p =
    determine_joining_speed target_pos upcoming (threshold_angle (cfg_ st))
      (F32.fabsf (F32.sub (angle last_pos) (angle target_pos))) /\
  CInt.abs (delta_steps target_pos d) = Ok (abs_defining_axis_steps p) /\
  F32.to_int (F32.mul (F32.add (accel_fraction p) (decel_fraction p))
                      (F32.of_int (abs_defining_axis_steps p)))
  = Ok (accel_decel_steps p) /\
  accel_decel_mm p = F32.div (F32.of_int (accel_decel_steps p)) (steps_per_mm (cfg_ st) d) /\
  do_accel p = F32.gtb (accel_decel_mm p) (F32.of_int 2) || (accel_decel_steps p >? 16).
Proof.
  unfold plan_ramps. intros H.
  bind_inv H. bind_inv H. rename a0 into abs_steps. bind_inv H.
  match type of H with
  | context [if ?c then _ else (F32.zero, ?s1)] =>
      destruct (if c then
                  let '(s, v) := steps_for_speed_change
                                   (acceleration_for_move st (delta_steps target_pos)
                                      (defining_axis target_pos))
                                   (F32.fabsf (get_speed_for_axis last_pos (defining_axis target_pos)))
                                   s1 abs_steps in
                  (F32.div s (F32.of_int abs_steps), v)
                else (F32.zero, s1)) as [af speed2] eqn:Eaf
  end.
  bind_inv H. bind_inv H. rename a2 into ramp_steps.
  injection H as <-. simpl.
  repeat split; assumption || reflexivity.
Qed.

(** C5, amended (exit-speed update).  After a call of [move_machine_steps]
    on a target with nonzero defining-axis delta, [target.speed] is the
    junction speed [v_out] when a decel segment is made (the ramps are not
    suppressed and the decel fraction covers a positive number of steps);
    otherwise it stays the speed the planner settled on for the move.  The
    other fields of the target are untouched. *)
Theorem exit_speed_update (st st' : Impl) (last_pos target_pos upcoming target' : AxisTarget) :
  delta_steps target_pos (defining_axis target_pos) <> 0 ->
  move_machine_steps st last_pos target_pos upcoming = Ok (target', st') ->
  exists p : RampPlan,
    plan_ramps st last_pos target_pos upcoming = Ok p /\
    let v_out :=
      determine_joining_speed target_pos upcoming (threshold_angle (cfg_ st))
        (F32.fabsf (F32.sub (angle last_pos) (angle target_pos))) in
    let decelerates :=
      do_accel p
      && F32.gtb (F32.mul (decel_fraction p) (F32.of_int (abs_defining_axis_steps p)))
                 F32.zero in
    speed target' = (if decelerates then v_out else target_speed p) /\
    position_steps target' = position_steps target_pos /\
    delta_steps target' = delta_steps target_pos /\
    defining_axis target' = defining_axis target_pos /\
    angle target' = angle target_pos /\
    aux_bits target' = aux_bits target_pos.
Proof.
  intros Hd H.
  destruct (move_machine_steps_Ok _ _ _ _ _ _ Hd H)
    as (p & A & C & D & hm & Hp & _ & _ & _ & _ & _ & -> & _).
  exists p. split; [exact Hp|].
  destruct (plan_ramps_Ok _ _ _ _ _ Hp) as (_ & <- & _).
  simpl. repeat split; reflexivity.
Qed.

(** A single step along +Y towards a halt: both ramps are suppressed, and
    the target keeps 800 steps/s, the peak the planner settled on. *)
Lemma exit_speed_update_witness :
  move_machine_steps default_machine AxisTarget_zero one_step_target
    (halt_after one_step_target) = Ok one_step_outcome /\
  exists p : RampPlan,
    plan_ramps default_machine AxisTarget_zero one_step_target (halt_after one_step_target)
    = Ok p /\
    speed (fst one_step_outcome) = target_speed p /\
    target_speed p = F32.of_int 800.
Proof.
  assert (Hrun : move_machine_steps default_machine AxisTarget_zero one_step_target
                   (halt_after one_step_target)
                 = Ok (fst one_step_outcome, snd one_step_outcome))
    by (vm_compute; reflexivity).
  assert (Hmoving : delta_steps one_step_target (defining_axis one_step_target) <> 0)
    by (vm_compute; discriminate).
  split; [vm_compute; reflexivity|].
  destruct (exit_speed_update _ _ _ _ _ _ Hmoving Hrun) as (p & Hp & Hs & _).
  exists p. split; [exact Hp|].
  assert (Hp' : plan_ramps default_machine AxisTarget_zero one_step_target
                  (halt_after one_step_target)
                = Ok {| last_speed := F32.zero; next_speed := F32.zero;
                        abs_defining_axis_steps := 1; target_speed := F32.of_int 800;
                        accel_fraction := F32.div (F32.of_int 1) (F32.of_int 2);
                        decel_fraction := F32.div (F32.of_int 1) (F32.of_int 2);
                        accel_decel_steps := 1;
                        accel_decel_mm := F32.div (F32.of_int 1) (F32.of_int 160);
                        do_accel := false |})
    by (vm_compute; reflexivity).
  rewrite Hp in Hp'. injection Hp' as ->.
  cbn [do_accel andb target_speed] in Hs |- *. split; [exact Hs | reflexivity].
Defined.

(** C5 as stated fails on that call: the junction speed towards the halt
    is 0, and [target.speed] is left at 800 steps/s. *)
Lemma exit_speed_not_v_out :
  move_machine_steps default_machine AxisTarget_zero one_step_target
    (halt_after one_step_target) = Ok one_step_outcome /\
  determine_joining_speed one_step_target (halt_after one_step_target)
    (threshold_angle (cfg_ default_machine))
    (F32.fabsf (F32.sub (angle AxisTarget_zero) (angle one_step_target))) = F32.zero /\
  speed (fst one_step_outcome) = F32.of_int 800 /\
  F32.eqb (F32.of_int 800) F32.zero = false.
Proof.
  split; [vm_compute; reflexivity|]. split; [vm_compute; reflexivity|].
  split; vm_compute; reflexivity.
Qed.




(** ** The planning buffer *)

Lemma set_motor_ops_same (st : Impl) : st = set_motor_ops st (motor_ops_ st).
Proof. destruct st; reflexivity. Qed.

Lemma motor_call_same (st st1 : Impl) (op : MotorOp) :
  st1 = set_motor_ops st (motor_ops_ st1) ->
  motor_call st1 op = set_motor_ops st (motor_ops_ (motor_call st1 op)).
Proof. intros ->. reflexivity. Qed.

Lemma optional_motor_call_same (st st1 : Impl) (b : bool) (op : MotorOp) :
  st1 = set_motor_ops st (motor_ops_ st1) ->
  (if b then motor_call st1 op else st1)
  = set_motor_ops st (motor_ops_ (if b then motor_call st1 op else st1)).
Proof. intros H. destruct b; [apply motor_call_same|]; exact H. Qed.

(** [move_machine_steps] touches the motor backend and nothing else of the
    machine, and only the speed of the target. *)
Lemma move_machine_steps_frame (st st' : Impl)
    (last_pos target_pos upcoming target' : AxisTarget) :
  move_machine_steps st last_pos target_pos upcoming = Ok (target', st') ->
  st' = set_motor_ops st (motor_ops_ st') /\
  target' = with_speed target_pos (speed target').
Proof.
  intros H. destruct (Z.eq_dec (delta_steps target_pos (defining_axis target_pos)) 0) as [E|E].
  - unfold move_machine_steps in H. apply Z.eqb_eq in E. rewrite E in H.
    injection H as <- <-. split; [apply set_motor_ops_same|destruct target_pos; reflexivity].
  - unfold move_machine_steps in H. apply Z.eqb_neq in E. rewrite E in H.
    bind_inv H. bind_inv H. bind_inv H. bind_inv H.
    bind_inv H. destruct a3 as [move2 nz2].
    bind_inv H. destruct a3 as [move3 has_move].
    injection H as <- <-. split; [|reflexivity].
    repeat apply optional_motor_call_same. apply set_motor_ops_same.
Qed.

Lemma ring_slot_distinct (r i j : nat) :
  (i < RingDeque.CAPACITY)%nat -> (j < RingDeque.CAPACITY)%nat -> i <> j ->
  ((r + i) mod RingDeque.CAPACITY)%nat <> ((r + j) mod RingDeque.CAPACITY)%nat.
Proof.
  unfold RingDeque.CAPACITY. intros Hi Hj Hij Heq.
  pose proof (Nat.div_mod_eq (r + i) 4) as E1.
  pose proof (Nat.div_mod_eq (r + j) 4) as E2.
  pose proof (Nat.mod_upper_bound (r + i) 4 ltac:(lia)) as B1.
  rewrite Heq in E1. lia.
Qed.

Lemma ring_slot_shift (r i : nat) :
  (((r + 1) mod RingDeque.CAPACITY + i) mod RingDeque.CAPACITY)%nat
  = ((r + (1 + i)) mod RingDeque.CAPACITY)%nat.
Proof.
  unfold RingDeque.CAPACITY.
  rewrite Nat.Div0.add_mod_idemp_l. f_equal. lia.
Qed.

(** Taking the oldest entry out after a write to the middle one keeps the
    newest entry, in a buffer of three or four. *)
Lemma pop_front_store_back (q q' : RingDeque.t) (target' newest : AxisTarget) :
  (3 <= RingDeque.size q <= RingDeque.CAPACITY)%nat ->
  RingDeque.back q = Ok newest ->
  RingDeque.pop_front (RingDeque.store q (RingDeque.slot q 1) target') = Ok q' ->
  RingDeque.back q' = Ok newest /\ RingDeque.size q' = (RingDeque.size q - 1)%nat.
Proof.
  destruct q as [buf r n].
  unfold RingDeque.back, RingDeque.pop_front, RingDeque.store, RingDeque.slot.
  cbn [RingDeque.size RingDeque.read_pos RingDeque.buffer].
  intros [H3 H4] Hback Hpop.
  replace (0 <? n)%nat with true in * by (symmetry; apply Nat.ltb_lt; lia).
  apply Ok_inj in Hback. apply Ok_inj in Hpop. subst newest q'.
  cbn [RingDeque.size RingDeque.read_pos RingDeque.buffer].
  replace (0 <? n - 1)%nat with true by (symmetry; apply Nat.ltb_lt; lia).
  split; [|reflexivity]. f_equal.
  rewrite ring_slot_shift. replace (1 + (n - 1 - 1))%nat with (n - 1)%nat by lia.
  destruct (((r + (n - 1)) mod RingDeque.CAPACITY =? (r + 1) mod RingDeque.CAPACITY)%nat)
    eqn:Eslot; [|reflexivity].
  apply Nat.eqb_eq in Eslot. exfalso. revert Eslot.
  apply ring_slot_distinct; lia.
Qed.

(** Issuing a motor move keeps the newest entry of a buffer within its
    capacity, takes the oldest one out when three are in hand, and leaves
    the rest of the machine to [move_machine_steps]. *)
Lemma issue_motor_move_if_possible_back (st st' : Impl) (newest : AxisTarget) :
  (RingDeque.size (planning_buffer_ st) <= RingDeque.CAPACITY)%nat ->
  RingDeque.back (planning_buffer_ st) = Ok newest ->
  issue_motor_move_if_possible st = Ok st' ->
  RingDeque.back (planning_buffer_ st') = Ok newest /\
  RingDeque.size (planning_buffer_ st') =
    (if (3 <=? RingDeque.size (planning_buffer_ st))%nat
     then RingDeque.size (planning_buffer_ st) - 1
     else RingDeque.size (planning_buffer_ st))%nat /\
  st' = set_planning_buffer (set_motor_ops st (motor_ops_ st')) (planning_buffer_ st').
Proof.
  intros Hcap Hback H. unfold issue_motor_move_if_possible in H.
  destruct (3 <=? RingDeque.size (planning_buffer_ st))%nat eqn:E3.
  - apply Nat.leb_le in E3.
    bind_inv H. bind_inv H. bind_inv H. bind_inv H. destruct a2 as [target' st1].
    bind_inv H. injection H as <-.
    apply move_machine_steps_frame in E2 as [Hst1 _].
    apply pop_front_store_back with (newest := newest) in E4 as [Hb Hs];
      [|lia|exact Hback].
    split; [exact Hb|]. split; [exact Hs|].
    rewrite Hst1. destruct st; reflexivity.
  - injection H as <-. split; [exact Hback|]. split; [reflexivity|].
    destruct st; reflexivity.
Qed.

Lemma append_Ok (q q1 : RingDeque.t) (slot : nat) :
  RingDeque.append q = Ok (slot, q1) ->
  (RingDeque.size q < RingDeque.CAPACITY)%nat /\
  slot = RingDeque.slot q (RingDeque.size q) /\
  q1 = {| RingDeque.buffer := RingDeque.buffer q; RingDeque.read_pos := RingDeque.read_pos q;
          RingDeque.size := S (RingDeque.size q) |}.
Proof.
  unfold RingDeque.append.
  destruct (RingDeque.size q <? RingDeque.CAPACITY)%nat eqn:E; [|discriminate].
  intros H. injection H as <- <-. apply Nat.ltb_lt in E. auto.
Qed.

(** The entry written into the slot [append] reserved is the newest one. *)
Lemma back_store_appended (q q1 : RingDeque.t) (slot : nat) (v : AxisTarget) :
  RingDeque.append q = Ok (slot, q1) ->
  RingDeque.back (RingDeque.store q1 slot v) = Ok v /\
  RingDeque.size (RingDeque.store q1 slot v) = S (RingDeque.size q) /\
  (RingDeque.size (RingDeque.store q1 slot v) <= RingDeque.CAPACITY)%nat.
Proof.
  intros H. apply append_Ok in H as (Hlt & -> & ->).
  unfold RingDeque.back, RingDeque.store, RingDeque.slot. simpl.
  rewrite Nat.sub_0_r, Nat.eqb_refl. split; [reflexivity|]. split; [reflexivity|lia].
Qed.

Lemma fill_axes_spec {A : Type} (f : GCodeParserAxis -> A) (a : per_axis A)
    (k : GCodeParserAxis) :
  fill_axes f a k = f k.
Proof. destruct k; reflexivity. Qed.

(** ** Halt sentinel *)

(** A call of [bring_path_to_halt] that returns, taken apart. *)
Lemma bring_path_to_halt_Ok (st st' : Impl) :
  bring_path_to_halt st = Ok st' ->
  exists previous sentinel : AxisTarget,
    RingDeque.back (planning_buffer_ st) = Ok previous /\
    RingDeque.back (planning_buffer_ st') = Ok sentinel /\
    (forall k, position_steps sentinel k = position_steps previous k) /\
    (forall k, delta_steps sentinel k = 0) /\
    defining_axis sentinel = AXIS_X /\
    speed sentinel = F32.zero /\
    aux_bits sentinel = aux_bits_ st /\
    RingDeque.size (planning_buffer_ st') =
      (if (3 <=? S (RingDeque.size (planning_buffer_ st)))%nat
       then RingDeque.size (planning_buffer_ st)
       else S (RingDeque.size (planning_buffer_ st))) /\
    st' = set_planning_buffer (set_motor_ops st (motor_ops_ st')) (planning_buffer_ st').
Proof.
  intros H. unfold bring_path_to_halt in H.
  bind_inv H. rename a into previous. bind_inv H. destruct a as [slot q1].
  destruct (back_store_appended _ _ _
              {| position_steps :=
                   fill_axes (position_steps previous)
                     (position_steps (RingDeque.buffer (planning_buffer_ st) slot));
                 delta_steps :=
                   fill_axes (fun _ => 0)
                     (delta_steps (RingDeque.buffer (planning_buffer_ st) slot));
                 defining_axis := AXIS_X; speed := F32.zero;
                 angle := angle (RingDeque.buffer (planning_buffer_ st) slot);
                 aux_bits := aux_bits_ st |} E0) as (Hback & Hsize & Hcap).
  eapply issue_motor_move_if_possible_back in H as (Hb & Hs & Hframe);
    [ | cbn [planning_buffer_ set_planning_buffer]; exact Hcap
      | cbn [planning_buffer_ set_planning_buffer]; exact Hback ].
  eexists previous, _. split; [exact E|]. split; [exact Hb|].
  cbn [position_steps delta_steps defining_axis speed aux_bits].
  split; [intros k; apply fill_axes_spec|]. split; [intros k; apply fill_axes_spec|].
  split; [reflexivity|]. split; [reflexivity|]. split; [reflexivity|]. split.
  - rewrite Hs. cbn [planning_buffer_ set_planning_buffer]. rewrite Hsize.
    destruct (RingDeque.size (planning_buffer_ st)) as [|[|n]]; reflexivity.
  - rewrite Hframe. destruct st; reflexivity.
Qed.

(** On a buffer of one entry [bring_path_to_halt] returns: nothing is issued. *)
Lemma bring_path_to_halt_single (st : Impl) :
  RingDeque.size (planning_buffer_ st) = 1%nat ->
  exists st', bring_path_to_halt st = Ok st'.
Proof.
  intros H1. unfold bring_path_to_halt, RingDeque.back, RingDeque.append.
  rewrite H1. cbn [Nat.ltb Nat.leb RingDeque.CAPACITY bind].
  unfold issue_motor_move_if_possible.
  cbn [planning_buffer_ set_planning_buffer RingDeque.size RingDeque.store Nat.leb].
  eexists. reflexivity.
Qed.

(** X7 (halt sentinel shape).  A call of [bring_path_to_halt] on a buffer
    that holds one entry returns; and every call that returns has appended
    exactly one AxisTarget, the newest entry of the buffer, whose
    [position_steps] are those of the previous newest entry on every axis,
    whose [delta_steps] are all zero, with [defining_axis] X, [speed] 0 and
    the current aux mask (the buffer grows by one, less the entry the
    segmenter consumed when three were in hand). *)
Theorem halt_sentinel_shape (st : Impl) :
  (RingDeque.size (planning_buffer_ st) = 1%nat ->
   exists st', bring_path_to_halt st = Ok st') /\
  forall st', bring_path_to_halt st = Ok st' ->
    exists previous sentinel : AxisTarget,
      RingDeque.back (planning_buffer_ st) = Ok previous /\
      RingDeque.back (planning_buffer_ st') = Ok sentinel /\
      (forall k, position_steps sentinel k = position_steps previous k) /\
      (forall k, delta_steps sentinel k = 0) /\
      defining_axis sentinel = AXIS_X /\
      speed sentinel = F32.zero /\
      aux_bits sentinel = aux_bits_ st /\
      RingDeque.size (planning_buffer_ st') =
        (if (3 <=? S (RingDeque.size (planning_buffer_ st)))%nat
         then RingDeque.size (planning_buffer_ st)
         else S (RingDeque.size (planning_buffer_ st))).
Proof.
  split; [apply bring_path_to_halt_single|].
  intros st' H. apply bring_path_to_halt_Ok in H
    as (previous & sentinel & H1 & H2 & H3 & H4 & H5 & H6 & H7 & H8 & _).
  exists previous, sentinel. repeat split; assumption.
Qed.

(** The halt that follows the first move of the default machine (1600
    steps along +X): three entries are in hand, the move is issued, and the
    sentinel stands at the end of the buffer at X = 1600. *)
Lemma halt_sentinel_shape_witness :
  exists st1 st2 sentinel,
    coordinated_move atan2f_on_axes default_machine (F32.of_int 100) (mm 10 0 0 0)
    = Ok (true, st1) /\
    bring_path_to_halt st1 = Ok st2 /\
    RingDeque.back (planning_buffer_ st2) = Ok sentinel /\
    position_steps sentinel AXIS_X = 1600 /\
    delta_steps sentinel AXIS_X = 0 /\
    speed sentinel = F32.zero /\
    RingDeque.size (planning_buffer_ st2) = 2%nat.
Proof.
  pose (st1 := snd (ok_or (false, default_machine)
                      (coordinated_move atan2f_on_axes default_machine (F32.of_int 100)
                         (mm 10 0 0 0)))).
  pose (st2 := ok_or default_machine (bring_path_to_halt st1)).
  assert (H1 : coordinated_move atan2f_on_axes default_machine (F32.of_int 100) (mm 10 0 0 0)
               = Ok (true, st1)) by (vm_compute; reflexivity).
  assert (H2 : bring_path_to_halt st1 = Ok st2) by (vm_compute; reflexivity).
  destruct (proj2 (halt_sentinel_shape st1) st2 H2)
    as (previous & sentinel & Hp & Hb & Hpos & Hdelta & _ & Hspeed & _ & Hsize).
  exists st1, st2, sentinel.
  split; [exact H1|]. split; [exact H2|]. split; [exact Hb|].
  assert (Hprev : position_steps
                    (ok_or AxisTarget_zero (RingDeque.back (planning_buffer_ st1))) AXIS_X
                  = 1600) by (vm_compute; reflexivity).
  rewrite Hp in Hprev. cbn [ok_or] in Hprev.
  split; [rewrite Hpos; exact Hprev|].
  split; [apply Hdelta|]. split; [exact Hspeed|].
  rewrite Hsize. vm_compute. reflexivity.
Defined.


(** ** The target builder *)

Section ScanLoop.

Variables (st : Impl) (axis : AxesRegister) (previous : AxisTarget).

Lemma machine_move_scan_loop (l : list GCodeParserAxis) :
  NoDup l ->
  forall s0 s,
    for_each l (machine_move_scan st axis previous) s0 = Ok s ->
    (forall k, In k l ->
       round2int (F32.mul (axis k) (steps_per_mm (cfg_ st) k)) = Ok (scan_position s k) /\
       scan_delta s k = scan_position s k - position_steps previous k) /\
    (forall k, ~ In k l ->
       scan_position s k = scan_position s0 k /\ scan_delta s k = scan_delta s0 k) /\
    scan_max_steps s0 <= scan_max_steps s /\
    ((scan_max_steps s = scan_max_steps s0 /\ scan_defining_axis s = scan_defining_axis s0)
     \/ (In (scan_defining_axis s) l /\
         scan_max_steps s = Z.abs (scan_delta s (scan_defining_axis s)))) /\
    (forall k, In k l -> Z.abs (scan_delta s k) <= scan_max_steps s).
Proof.
  induction 1 as [|i l Hi Hnd IH]; simpl; intros s0 s H.
  - injection H as <-. repeat split; try tauto; try lia.
  - bind_inv H. unfold machine_move_scan in E.
    bind_inv E. rename a0 into p. bind_inv E. rename a0 into d.
    bind_inv E. rename a0 into ad. injection E as <-.
    apply int_Ok in E1 as [-> _]. apply int_Ok in E2 as [-> _].
    apply IH in H as (Hin & Hout & Hmono & Hdef & Hbound).
    cbn [scan_position scan_delta scan_max_steps scan_defining_axis] in *.
    destruct (Hout i Hi) as [Hpi Hdi]. unfold set_axis in Hpi, Hdi.
    rewrite axis_eqb_refl in Hpi, Hdi.
    assert (Hne : forall k, In k l -> axis_eqb k i = false).
    { intros k Hk. destruct (axis_eqb k i) eqn:Ek; [|reflexivity].
      apply axis_eqb_eq in Ek. subst k. tauto. }
    split; [|split; [|split; [|split]]].
    + intros k [<-|Hk]; [|apply Hin, Hk]. rewrite Hpi, Hdi. split; [exact E0|reflexivity].
    + intros k Hk. destruct (Hout k ltac:(tauto)) as [-> ->]. unfold set_axis.
      destruct (axis_eqb k i) eqn:Ek; [|split; reflexivity].
      apply axis_eqb_eq in Ek. subst k. tauto.
    + destruct (Z.abs (p - position_steps previous i) >? scan_max_steps s0) eqn:Eb;
        [rewrite Z.gtb_ltb in Eb; apply Z.ltb_lt in Eb|]; lia.
    + destruct (Z.abs (p - position_steps previous i) >? scan_max_steps s0) eqn:Eb.
      * destruct Hdef as [[Hm Hd]|[Hd Hm]].
        -- right. rewrite Hd. split; [left; reflexivity|]. rewrite Hm, Hdi. reflexivity.
        -- right. split; [right; exact Hd|exact Hm].
      * destruct Hdef as [[Hm Hd]|[Hd Hm]]; [left; split; assumption|].
        right. split; [right; exact Hd|exact Hm].
    + intros k [<-|Hk]; [|apply Hbound, Hk]. rewrite Hdi.
      destruct (Z.abs (p - position_steps previous i) >? scan_max_steps s0) eqn:Eb; [lia|].
      rewrite Z.gtb_ltb in Eb. apply Z.ltb_ge in Eb. lia.
Qed.

Lemma machine_move_scan_first_max (l : list GCodeParserAxis) :
  NoDup l ->
  Sorted.StronglySorted (fun a b => axis_index a < axis_index b) l ->
  forall s0 s,
    for_each l (machine_move_scan st axis previous) s0 = Ok s ->
    (scan_max_steps s = scan_max_steps s0 /\ scan_defining_axis s = scan_defining_axis s0)
    \/ (In (scan_defining_axis s) l /\
        scan_max_steps s0 < scan_max_steps s /\
        forall k, In k l -> axis_index k < axis_index (scan_defining_axis s) ->
          Z.abs (scan_delta s k) < scan_max_steps s).
Proof.
  intros Hnd Hsorted. induction Hsorted as [|i l Hsorted IH Hlt]; intros s0 s H.
  - injection H as <-. left. split; reflexivity.
  - apply NoDup_cons_iff in Hnd as [Hi Hnd]. simpl in H. bind_inv H. rename a into s1.
    pose proof (machine_move_scan_loop l Hnd s1 s H) as (_ & Hout & Hmono & _ & _).
    apply (IH Hnd) in H.
    unfold machine_move_scan in E.
    bind_inv E. rename a into p. bind_inv E. rename a into d.
    bind_inv E. rename a into ad. injection E as <-.
    apply int_Ok in E1 as [-> _]. apply int_Ok in E2 as [-> _].
    cbn [scan_position scan_delta scan_max_steps scan_defining_axis] in *.
    destruct (Hout i Hi) as [_ Hdi]. unfold set_axis in Hdi. rewrite axis_eqb_refl in Hdi.
    rewrite Forall_forall in Hlt.
    destruct (Z.abs (p - position_steps previous i) >? scan_max_steps s0) eqn:Eb;
      [rewrite Z.gtb_ltb in Eb; apply Z.ltb_lt in Eb
      |rewrite Z.gtb_ltb in Eb; apply Z.ltb_ge in Eb].
    + destruct H as [[Hm Hd]|(Hd & Hm & Hk)].
      * right. rewrite Hd, Hm. split; [left; reflexivity|]. split; [exact Eb|].
        intros k [<-|Hk] Hidx; [lia|]. apply Hlt in Hk. lia.
      * right. split; [right; exact Hd|]. split; [lia|].
        intros k [<-|Hin] Hidx; [rewrite Hdi; lia|apply Hk; assumption].
    + destruct H as [[Hm Hd]|(Hd & Hm & Hk)]; [left; split; assumption|].
      right. split; [right; exact Hd|]. split; [lia|].
      intros k [<-|Hin] Hidx; [rewrite Hdi; lia|apply Hk; assumption].
Qed.

Lemma all_axes_sorted :
  Sorted.StronglySorted (fun a b => axis_index a < axis_index b) all_axes.
Proof.
  unfold all_axes.
  repeat (constructor; [|repeat (constructor; [simpl; lia|]); constructor]).
  constructor.
Qed.

(** The first loop of [machine_move]: the rounded positions, the deltas,
    and a defining axis that holds the largest absolute delta, the first
    such axis in the order of the axes. *)
Lemma machine_move_scan_spec (pos0 delta0 : per_axis Z) (s : move_scan) :
  for_each all_axes (machine_move_scan st axis previous)
    {| scan_position := pos0; scan_delta := delta0; scan_max_steps := -1;
       scan_defining_axis := AXIS_X |} = Ok s ->
  (forall k,
     round2int (F32.mul (axis k) (steps_per_mm (cfg_ st) k)) = Ok (scan_position s k) /\
     scan_delta s k = scan_position s k - position_steps previous k) /\
  scan_max_steps s = Z.abs (scan_delta s (scan_defining_axis s)) /\
  (forall k, Z.abs (scan_delta s k) <= Z.abs (scan_delta s (scan_defining_axis s))) /\
  (forall k, axis_index k < axis_index (scan_defining_axis s) ->
     Z.abs (scan_delta s k) < Z.abs (scan_delta s (scan_defining_axis s))).
Proof.
  intros H.
  pose proof (machine_move_scan_first_max _ all_axes_NoDup all_axes_sorted _ _ H) as Hfirst.
  apply machine_move_scan_loop in H as (Hin & _ & _ & Hdef & Hbound);
    [|apply all_axes_NoDup].
  cbn [scan_max_steps scan_defining_axis] in *.
  assert (Hmax : scan_max_steps s = Z.abs (scan_delta s (scan_defining_axis s))).
  { destruct Hdef as [[Hm _]|[_ Hm]]; [|exact Hm].
    pose proof (Hbound AXIS_X (all_axes_complete AXIS_X)). lia. }
  split; [intros k; apply Hin, all_axes_complete|]. split; [exact Hmax|].
  split; [intros k; rewrite <- Hmax; apply Hbound, all_axes_complete|].
  intros k Hidx. rewrite <- Hmax.
  destruct Hfirst as [[Hm _]|(_ & _ & Hk)].
  - pose proof (Hbound AXIS_X (all_axes_complete AXIS_X)). lia.
  - apply Hk; [apply all_axes_complete|exact Hidx].
Qed.

End ScanLoop.

Section MachineMove.

Variable atan2f : float -> float -> float.

(** A call of [machine_move] that returns, taken apart: the new newest
    entry of the buffer and where its fields come from. *)
Lemma machine_move_Ok (st st' : Impl) (feedrate : float) (axis : AxesRegister) :
  machine_move atan2f st feedrate axis = Ok st' ->
  exists previous new_pos : AxisTarget,
    RingDeque.back (planning_buffer_ st) = Ok previous /\
    RingDeque.back (planning_buffer_ st') = Ok new_pos /\
    (forall k,
       round2int (F32.mul (axis k) (steps_per_mm (cfg_ st) k)) = Ok (position_steps new_pos k) /\
       delta_steps new_pos k = position_steps new_pos k - position_steps previous k) /\
    (forall k, Z.abs (delta_steps new_pos k)
               <= Z.abs (delta_steps new_pos (defining_axis new_pos))) /\
    aux_bits new_pos = aux_bits_ st /\
    (speed new_pos, angle new_pos) =
      (if 0 <? Z.abs (delta_steps new_pos (defining_axis new_pos))
       then travel_speed_and_angle atan2f st feedrate (delta_steps new_pos)
              (defining_axis new_pos) (F32.add (angle previous) (F32.of_int 180))
       else (F32.zero, F32.add (angle previous) (F32.of_int 180))) /\
    RingDeque.size (planning_buffer_ st') =
      (if (3 <=? S (RingDeque.size (planning_buffer_ st)))%nat
       then RingDeque.size (planning_buffer_ st)
       else S (RingDeque.size (planning_buffer_ st))) /\
    (forall k, axis_index k < axis_index (defining_axis new_pos) ->
       Z.abs (delta_steps new_pos k)
       < Z.abs (delta_steps new_pos (defining_axis new_pos))) /\
    st' = set_planning_buffer (set_motor_ops st (motor_ops_ st')) (planning_buffer_ st').
Proof.
  intros H. unfold machine_move in H.
  bind_inv H. rename a into previous. bind_inv H. destruct a as [slot q1].
  bind_inv H. rename a into s.
  apply machine_move_scan_spec in E1 as (Hpos & Hmax & Hdom & Hfirst).
  rewrite Z.gtb_ltb, Hmax in H.
  match type of H with
  | context [if ?c then ?a else ?b] => destruct (if c then a else b) as [speed_ angle_] eqn:Esa
  end.
  match type of H with
  | context [RingDeque.store q1 slot ?v] =>
      destruct (back_store_appended _ _ _ v E0) as (Hback & Hsize & Hcap);
      set (new_pos := v) in *
  end.
  eapply issue_motor_move_if_possible_back in H as (Hb & Hs & Hframe);
    [ | cbn [planning_buffer_ set_planning_buffer]; exact Hcap
      | cbn [planning_buffer_ set_planning_buffer]; exact Hback ].
  exists previous, new_pos. split; [exact E|]. split; [exact Hb|].
  split; [exact Hpos|]. split; [exact Hdom|]. split; [reflexivity|].
  split; [|split; [|split]].
  - subst new_pos. cbn [speed angle delta_steps defining_axis]. symmetry. exact Esa.
  - rewrite Hs. cbn [planning_buffer_ set_planning_buffer]. rewrite Hsize.
    destruct (RingDeque.size (planning_buffer_ st)) as [|[|n]]; reflexivity.
  - exact Hfirst.
  - rewrite Hframe. destruct st; reflexivity.
Qed.

End MachineMove.

(** ** Comparisons of floats *)




Section MovesBuilt.

Variable atan2f : float -> float -> float.

(** X1 (absolute positions).  The target a returning [machine_move] appends
    holds, on every axis, the requested position rounded to steps
    ([round2int(axis[k] * steps_per_mm[k])], whatever the previous entry
    was), the difference to the previous newest entry as its delta, and the
    current aux mask; the configuration, limits, feedrates and homing state
    of the machine are left alone. *)
Theorem machine_move_absolute_positions (st st' : Impl) (feedrate : float)
    (axis : AxesRegister) :
  machine_move atan2f st feedrate axis = Ok st' ->
  exists previous new_pos : AxisTarget,
    RingDeque.back (planning_buffer_ st) = Ok previous /\
    RingDeque.back (planning_buffer_ st') = Ok new_pos /\
    (forall k,
       round2int (F32.mul (axis k) (steps_per_mm (cfg_ st) k))
       = Ok (position_steps new_pos k)) /\
    (forall k, delta_steps new_pos k = position_steps new_pos k - position_steps previous k) /\
    aux_bits new_pos = aux_bits_ st /\
    st' = set_planning_buffer (set_motor_ops st (motor_ops_ st')) (planning_buffer_ st').
Proof.
  intros H. apply machine_move_Ok in H
    as (previous & new_pos & Hp & Hn & Hpos & _ & Haux & _ & _ & _ & Hframe).
  exists previous, new_pos. repeat split; try assumption; intros k; apply Hpos.
Qed.

(** X2 (defining-axis dominance).  In the target a returning
    [machine_move] appends, no axis has a larger absolute delta than the
    defining axis, and every axis that comes before the defining axis in the
    order X Y Z E A B C U V W has a strictly smaller one: ties go to the
    lowest axis. *)
Theorem defining_axis_dominance (st st' : Impl) (feedrate : float) (axis : AxesRegister) :
  machine_move atan2f st feedrate axis = Ok st' ->
  exists new_pos : AxisTarget,
    RingDeque.back (planning_buffer_ st') = Ok new_pos /\
    (forall k, Z.abs (delta_steps new_pos k)
               <= Z.abs (delta_steps new_pos (defining_axis new_pos))) /\
    (forall k, axis_index k < axis_index (defining_axis new_pos) ->
       Z.abs (delta_steps new_pos k)
       < Z.abs (delta_steps new_pos (defining_axis new_pos))).
Proof.
  intros H. apply machine_move_Ok in H
    as (previous & new_pos & _ & Hn & _ & Hdom & _ & _ & _ & Hfirst & _).
  exists new_pos. auto.
Qed.


(** X4 (Euclidean feedrate).  For a target with motion that a returning
    [machine_move] appends: when the defining axis [d] is X, Y or Z, the
    stored speed is [feedrate * steps_per_mm[d] * (l / L)], in float
    arithmetic, lowered to [max_axis_speed_[d]] when above it, where [L] is
    the Euclidean length of the XYZ delta in mm and [l] the absolute
    defining-axis delta in mm; the angle is [atan2f(y, x)] in degrees when
    the Z delta in mm compares equal to 0 and the previous angle plus 180
    otherwise.  When [d] is any other axis the speed is
    [feedrate * steps_per_mm[d]] under the same limit, and the angle the
    previous angle plus 180. *)
Theorem euclidean_feedrate (st st' : Impl) (feedrate : float) (axis : AxesRegister) :
  machine_move atan2f st feedrate axis = Ok st' ->
  exists previous new_pos : AxisTarget,
    RingDeque.back (planning_buffer_ st) = Ok previous /\
    RingDeque.back (planning_buffer_ st') = Ok new_pos /\
    let d := defining_axis new_pos in
    let in_mm k := F32.div (F32.of_int (delta_steps new_pos k)) (steps_per_mm (cfg_ st) k) in
    let L := euclid_distance (in_mm AXIS_X) (in_mm AXIS_Y) (in_mm AXIS_Z) in
    let l := F32.fabsf (in_mm d) in
    let limit v := if F32.gtb v (max_axis_speed_ st d) then max_axis_speed_ st d else v in
    let turned := F32.add (angle previous) (F32.of_int 180) in
    delta_steps new_pos d <> 0 ->
    (d = AXIS_X \/ d = AXIS_Y \/ d = AXIS_Z ->
       speed new_pos
       = limit (F32.mul (F32.mul feedrate (steps_per_mm (cfg_ st) d)) (F32.div l L)) /\
       angle new_pos
       = if F32.eqb (in_mm AXIS_Z) F32.zero
         then F64.to_float
                (F64.mul (F64.div (F64.of_float (atan2f (in_mm AXIS_Y) (in_mm AXIS_X)))
                                  pi_literal)
                         (F64.of_float (F32.of_int 180)))
         else turned) /\
    (d <> AXIS_X -> d <> AXIS_Y -> d <> AXIS_Z ->
       speed new_pos = limit (F32.mul feedrate (steps_per_mm (cfg_ st) d)) /\
       angle new_pos = turned).
Proof.
  intros H. apply machine_move_Ok in H
    as (previous & new_pos & Hp & Hn & _ & _ & _ & Hsa & _).
  exists previous, new_pos. split; [exact Hp|]. split; [exact Hn|].
  cbv zeta. intros E0.
  replace (0 <? Z.abs (delta_steps new_pos (defining_axis new_pos))) with true in Hsa
    by (symmetry; apply Z.ltb_lt; lia).
  unfold travel_speed_and_angle in Hsa.
  split.
  - intros Hd.
    destruct (defining_axis new_pos);
      try (destruct Hd as [Hd|[Hd|Hd]]; discriminate Hd);
      injection Hsa as -> ->; split; reflexivity.
  - intros Hx Hy Hz.
    destruct (defining_axis new_pos); try congruence;
      injection Hsa as -> ->; split; reflexivity.
Qed.


(** X6 (no accumulation).  Two calls of [machine_move] in a row with the
    same position: the second target has delta 0 on every axis and speed 0,
    whatever the feedrates, since positions are rounded from the absolute
    position each time. *)
Theorem repeated_target_has_no_motion (st st1 st2 : Impl) (f1 f2 : float)
    (axis : AxesRegister) :
  machine_move atan2f st f1 axis = Ok st1 ->
  machine_move atan2f st1 f2 axis = Ok st2 ->
  exists first second : AxisTarget,
    RingDeque.back (planning_buffer_ st1) = Ok first /\
    RingDeque.back (planning_buffer_ st2) = Ok second /\
    (forall k, position_steps second k = position_steps first k) /\
    (forall k, delta_steps second k = 0) /\
    speed second = F32.zero.
Proof.
  intros H1 H2.
  apply machine_move_Ok in H1
    as (previous1 & first & _ & Hn1 & Hpos1 & _ & _ & _ & _ & _ & Hframe).
  apply machine_move_Ok in H2
    as (previous & second & Hp2 & Hn2 & Hpos2 & _ & _ & Hsa & _).
  rewrite Hn1 in Hp2. apply Ok_inj in Hp2. subst previous.
  assert (Hcfg : cfg_ st1 = cfg_ st) by (rewrite Hframe; reflexivity).
  assert (Hsame : forall k, position_steps second k = position_steps first k).
  { intros k. destruct (Hpos1 k) as [E1 _]. destruct (Hpos2 k) as [E2 _].
    rewrite Hcfg, E1 in E2. apply Ok_inj in E2. symmetry. exact E2. }
  assert (Hzero : forall k, delta_steps second k = 0).
  { intros k. destruct (Hpos2 k) as [_ ->]. rewrite Hsame. lia. }
  exists first, second. split; [exact Hn1|]. split; [exact Hn2|].
  split; [exact Hsame|]. split; [exact Hzero|].
  rewrite Hzero in Hsa. cbn [Z.abs Z.ltb Z.compare] in Hsa. congruence.
Qed.

End MovesBuilt.

(** *** Runs of the target builder *)

Lemma diagonal_move_runs :
  machine_move atan2f_on_axes default_machine (F32.of_int 200) (mm 10 10 0 0)
  = Ok diagonal_move_outcome.
Proof. vm_compute. reflexivity. Qed.

Lemma machine_move_absolute_positions_witness :
  exists previous new_pos : AxisTarget,
    RingDeque.back (planning_buffer_ default_machine) = Ok previous /\
    RingDeque.back (planning_buffer_ diagonal_move_outcome) = Ok new_pos /\
    (forall k,
       round2int (F32.mul (mm 10 10 0 0 k) (steps_per_mm (cfg_ default_machine) k))
       = Ok (position_steps new_pos k)) /\
    (forall k, delta_steps new_pos k = position_steps new_pos k - position_steps previous k) /\
    aux_bits new_pos = aux_bits_ default_machine /\
    diagonal_move_outcome
    = set_planning_buffer
        (set_motor_ops default_machine (motor_ops_ diagonal_move_outcome))
        (planning_buffer_ diagonal_move_outcome).
Proof.
  exact (machine_move_absolute_positions atan2f_on_axes _ _ _ _ diagonal_move_runs).
Defined.

(** On the diagonal X and Y both move 1600 steps: the tie goes to X. *)
Lemma defining_axis_dominance_witness :
  exists new_pos : AxisTarget,
    RingDeque.back (planning_buffer_ diagonal_move_outcome) = Ok new_pos /\
    (forall k, Z.abs (delta_steps new_pos k)
               <= Z.abs (delta_steps new_pos (defining_axis new_pos))) /\
    (forall k, axis_index k < axis_index (defining_axis new_pos) ->
       Z.abs (delta_steps new_pos k)
       < Z.abs (delta_steps new_pos (defining_axis new_pos))).
Proof.
  exact (defining_axis_dominance atan2f_on_axes _ _ _ _ diagonal_move_runs).
Defined.


(** The diagonal at 200 mm/s: 200 * 160 / sqrt 2 = 22627.4 steps/s on X,
    at 45 degrees. *)
Lemma euclidean_feedrate_witness :
  exists new_pos : AxisTarget,
    RingDeque.back (planning_buffer_ diagonal_move_outcome) = Ok new_pos /\
    defining_axis new_pos = AXIS_X /\
    speed new_pos = S754_finite false 11585237 (-9) /\
    angle new_pos = F32.of_int 45.
Proof.
  destruct (euclidean_feedrate atan2f_on_axes _ _ _ _ diagonal_move_runs)
    as (previous & new_pos & Hp & Hn & H).
  assert (Hnew : new_pos
                 = ok_or AxisTarget_zero
                     (RingDeque.back (planning_buffer_ diagonal_move_outcome)))
    by (rewrite Hn; reflexivity).
  assert (Hprev : previous = AxisTarget_zero)
    by (apply Ok_inj; rewrite <- Hp; reflexivity).
  exists new_pos. split; [exact Hn|].
  cbv zeta in H. subst new_pos previous.
  split; [vm_compute; reflexivity|].
  destruct H as [[Hs Ha] _]; [vm_compute; discriminate | left; vm_compute; reflexivity |].
  rewrite Hs, Ha. split; vm_compute; reflexivity.
Defined.


(** The diagonal move, asked for twice at different feedrates. *)
Lemma repeated_target_has_no_motion_witness :
  exists st2 first second,
    machine_move atan2f_on_axes diagonal_move_outcome (F32.of_int 50) (mm 10 10 0 0)
    = Ok st2 /\
    RingDeque.back (planning_buffer_ diagonal_move_outcome) = Ok first /\
    RingDeque.back (planning_buffer_ st2) = Ok second /\
    (forall k, position_steps second k = position_steps first k) /\
    (forall k, delta_steps second k = 0) /\
    speed second = F32.zero.
Proof.
  pose (st2 := ok_or default_machine
                 (machine_move atan2f_on_axes diagonal_move_outcome (F32.of_int 50)
                    (mm 10 10 0 0))).
  assert (H2 : machine_move atan2f_on_axes diagonal_move_outcome (F32.of_int 50)
                 (mm 10 10 0 0) = Ok st2) by (vm_compute; reflexivity).
  destruct (repeated_target_has_no_motion atan2f_on_axes _ _ _ _ _ _ diagonal_move_runs H2)
    as (first & second & H).
  exists st2, first, second. split; [exact H2 | exact H].
Defined.

(** ** Move callbacks *)

Lemma test_homing_status_ok_cases (st : Impl) :
  (test_homing_status_ok st = (true, st) /\
   (require_homing (cfg_ st) = false \/ homing_state_ st <> HOMING_STATE_NEVER_HOMED)) \/
  (test_homing_status_ok st = (false, mprintf st msg_please_home []) /\
   require_homing (cfg_ st) = true /\ homing_state_ st = HOMING_STATE_NEVER_HOMED).
Proof.
  unfold test_homing_status_ok.
  destruct (require_homing (cfg_ st)); simpl; [|left; auto].
  destruct (homing_state_ st); simpl; [right; auto | left | left];
    (split; [reflexivity | right; discriminate]).
Qed.

Lemma mprintf_frame (st : Impl) (fmt : string) (a : list printf_arg) :
  mprintf st fmt a = set_msg_stream st (msg_stream_ (mprintf st fmt a)) /\
  msg_stream_ (mprintf st fmt a)
  = option_map (fun out => out ++ [{| format := fmt; args := a |}]) (msg_stream_ st).
Proof.
  unfold mprintf. destruct (msg_stream_ st) eqn:E; simpl.
  - split; reflexivity.
  - rewrite E. split; [destruct st; simpl in *; subst; reflexivity | reflexivity].
Qed.

(** The loop of [test_within_machine_limits]: it accepts, without a word,
    exactly when no axis of the list is below 0 or above a configured
    (positive) range; else it refuses with one message. *)
Lemma within_limits_loop_spec (st : Impl) (axes : AxesRegister) (l : list GCodeParserAxis) :
  (within_limits_loop st axes l = (true, st) /\
   forall i, In i l ->
     F32.ltb (axes i) F32.zero = false /\
     (F32.leb (move_range_mm (cfg_ st) i) F32.zero = true \/
      F32.gtb (axes i) (move_range_mm (cfg_ st) i) = false)) \/
  (exists i fmt a,
     In i l /\
     within_limits_loop st axes l = (false, mprintf st fmt a) /\
     (F32.ltb (axes i) F32.zero = true \/
      (F32.leb (move_range_mm (cfg_ st) i) F32.zero = false /\
       F32.gtb (axes i) (move_range_mm (cfg_ st) i) = true))).
Proof.
  induction l as [|i l IH]; simpl.
  - left. split; [reflexivity | intros i []].
  - destruct (F32.ltb (axes i) F32.zero) eqn:Eneg.
    { right. destruct (negb (F32.eqb (coordinate_display_origin_ st i) F32.zero));
        eexists i, _, _; (split; [left; reflexivity|]); split; try reflexivity; auto. }
    destruct (F32.leb (move_range_mm (cfg_ st) i) F32.zero) eqn:Erange.
    { destruct IH as [[-> Hall]|(j & fmt & a & Hj & -> & Hbad)].
      - left. split; [reflexivity|]. intros k [<-|Hk]; [auto | apply Hall, Hk].
      - right. exists j, fmt, a. auto. }
    destruct (F32.gtb (axes i) (move_range_mm (cfg_ st) i)) eqn:Eabove.
    { right. destruct (negb (F32.eqb (coordinate_display_origin_ st i) F32.zero));
        eexists i, _, _; (split; [left; reflexivity|]); split; try reflexivity; auto. }
    destruct IH as [[-> Hall]|(j & fmt & a & Hj & -> & Hbad)].
    + left. split; [reflexivity|]. intros k [<-|Hk]; [auto | apply Hall, Hk].
    + right. exists j, fmt, a. auto.
Qed.

Section MoveCallbacks.

Variable atan2f : float -> float -> float.

(** A coordinated move that is accepted, taken apart: the feedrate it
    remembers and the one it builds the target with. *)
Lemma coordinated_move_accepted (st st' : Impl) (feed : float) (axis : AxesRegister) :
  coordinated_move atan2f st feed axis = Ok (true, st') ->
  let remembered :=
    if F32.gtb feed F32.zero then F32.mul (speed_factor (cfg_ st)) feed
    else current_feedrate_mm_per_sec_ st in
  machine_move atan2f (set_current_feedrate st remembered)
    (F32.mul (prog_speed_factor_ st) remembered) axis = Ok st'.
Proof.
  unfold coordinated_move. intros H.
  destruct (test_homing_status_ok_cases st) as [[Eh _]|[Eh _]]; rewrite Eh in H;
    cbn [negb] in H; [|discriminate H].
  unfold test_within_machine_limits in H.
  assert (Hm : forall s, (s' <- machine_move atan2f s
                                  (F32.mul (prog_speed_factor_ s)
                                           (current_feedrate_mm_per_sec_ s)) axis ;;
                          Ok (true, s')) = Ok (true, st') ->
               machine_move atan2f s
                 (F32.mul (prog_speed_factor_ s) (current_feedrate_mm_per_sec_ s)) axis
               = Ok st').
  { intros s Hs. bind_inv Hs. injection Hs as <-. exact E. }
  assert (Hst : st = set_current_feedrate st (current_feedrate_mm_per_sec_ st))
    by (destruct st; reflexivity).
  cbv zeta.
  destruct (range_check (cfg_ st)); cbn [negb] in H.
  - destruct (within_limits_loop_spec st axis all_axes)
      as [[El _]|(j & fmt & a & _ & El & _)]; rewrite El in H; cbn [negb] in H;
      [|discriminate H].
    destruct (F32.gtb feed F32.zero); apply Hm in H; [exact H|].
    rewrite <- Hst. exact H.
  - destruct (F32.gtb feed F32.zero); apply Hm in H; [exact H|].
    rewrite <- Hst. exact H.
Qed.

(** X8 (unhomed moves are refused whole).  When [require_homing] is
    configured and the machine was never homed, [coordinated_move] and
    [rapid_move] both return false; the planning buffer, the motor backend
    and the remembered feedrate are untouched; and the message stream, when
    there is one, gets the one line "// ERROR: please home machine first
    (G28).", which contains "home" (with a null stream nothing is
    printed). *)
Theorem unhomed_move_refused (st : Impl) (feed : float) (axis : AxesRegister) :
  require_homing (cfg_ st) = true ->
  homing_state_ st = HOMING_STATE_NEVER_HOMED ->
  let st' := mprintf st msg_please_home [] in
  coordinated_move atan2f st feed axis = Ok (false, st') /\
  rapid_move atan2f st feed axis = Ok (false, st') /\
  st' = set_msg_stream st (msg_stream_ st') /\
  msg_stream_ st'
  = option_map (fun out => out ++ [{| format := msg_please_home; args := [] |}])
      (msg_stream_ st) /\
  String.index 0 "home" msg_please_home = Some 17%nat.
Proof.
  intros Hreq Hnever. cbv zeta.
  assert (Eh : test_homing_status_ok st = (false, mprintf st msg_please_home [])).
  { destruct (test_homing_status_ok_cases st) as [[_ [H|H]]|[H _]];
      [congruence | contradiction | exact H]. }
  unfold coordinated_move, rapid_move. rewrite Eh. cbn [negb].
  split; [reflexivity|]. split; [reflexivity|].
  split; [apply mprintf_frame|]. split; [apply mprintf_frame | reflexivity].
Qed.

(** X9 (feedrate memory).  An accepted [coordinated_move] with a positive
    feed remembers [speed_factor * feed] as the current feedrate; with no
    positive feed it keeps the one it had.  Either way the target is built
    by [machine_move] at [prog_speed_factor_] times that feedrate, and the
    program speed factor itself is not changed by the move. *)
Theorem coordinated_move_feedrate (st st' : Impl) (feed : float) (axis : AxesRegister) :
  coordinated_move atan2f st feed axis = Ok (true, st') ->
  let remembered :=
    if F32.gtb feed F32.zero then F32.mul (speed_factor (cfg_ st)) feed
    else current_feedrate_mm_per_sec_ st in
  current_feedrate_mm_per_sec_ st' = remembered /\
  prog_speed_factor_ st' = prog_speed_factor_ st /\
  machine_move atan2f (set_current_feedrate st remembered)
    (F32.mul (prog_speed_factor_ st) remembered) axis = Ok st'.
Proof.
  intros H. apply coordinated_move_accepted in H. cbv zeta in *.
  pose proof (machine_move_Ok _ _ _ _ _ H)
    as (_ & _ & _ & _ & _ & _ & _ & _ & _ & _ & Hframe).
  split; [rewrite Hframe; reflexivity|]. split; [rewrite Hframe; reflexivity | exact H].
Qed.

End MoveCallbacks.

Section Limits.

Variable atan2f : float -> float -> float.

(** X10 (machine limits).  With [range_check] on, a position is inside the
    machine limits when no axis is below 0 and no axis with a configured
    (positive) range is above it.  [test_within_machine_limits] accepts
    exactly those positions, and then prints nothing; for any other
    position it prints one message, and a [coordinated_move] or
    [rapid_move] that has passed the homing check is refused with that
    message and nothing else changed.  With [range_check] off every
    position is accepted. *)
Theorem machine_limits_check (st : Impl) (feed : float) (axes : AxesRegister) :
  let inside i :=
    F32.ltb (axes i) F32.zero = false /\
    (F32.leb (move_range_mm (cfg_ st) i) F32.zero = true \/
     F32.gtb (axes i) (move_range_mm (cfg_ st) i) = false) in
  let outside i :=
    F32.ltb (axes i) F32.zero = true \/
    (F32.leb (move_range_mm (cfg_ st) i) F32.zero = false /\
     F32.gtb (axes i) (move_range_mm (cfg_ st) i) = true) in
  (range_check (cfg_ st) = false -> test_within_machine_limits st axes = (true, st)) /\
  (range_check (cfg_ st) = true ->
   ((forall i, inside i) -> test_within_machine_limits st axes = (true, st)) /\
   (forall i, outside i ->
      exists fmt a,
        test_within_machine_limits st axes = (false, mprintf st fmt a) /\
        (test_homing_status_ok st = (true, st) ->
         coordinated_move atan2f st feed axes = Ok (false, mprintf st fmt a) /\
         rapid_move atan2f st feed axes = Ok (false, mprintf st fmt a)))).
Proof.
  cbv zeta. unfold test_within_machine_limits. split.
  - intros ->. reflexivity.
  - intros Hrc. rewrite Hrc. cbn [negb].
    destruct (within_limits_loop_spec st axes all_axes)
      as [[El Hall]|(j & fmt & a & _ & El & Hbad)].
    + split; [intros _; exact El|].
      intros i Hout. exfalso. destruct (Hall i (all_axes_complete i)) as [Hn Hr].
      destruct Hout as [Ho|[Ho1 Ho2]]; [congruence|].
      destruct Hr; congruence.
    + split.
      * intros Hall. exfalso. destruct (Hall j) as [Hn Hr].
        destruct Hbad as [Hb|[Hb1 Hb2]]; [congruence|]. destruct Hr; congruence.
      * intros i _. exists fmt, a. split; [exact El|].
        intros Eh. unfold coordinated_move, rapid_move, test_within_machine_limits.
        rewrite Eh, Hrc. cbn [negb]. rewrite El. cbn [negb]. split; reflexivity.
Qed.

End Limits.

Section SpeedFactor.

Variable atan2f : float -> float -> float.

(** X11 (speed factor).  [set_speed_factor] reads a negative value [f] as
    [1.0f + f]; when the value so read is below the double 0.005 it prints
    one message and changes nothing else, otherwise it stores exactly that
    value as the program speed factor and changes nothing else.  The next
    accepted [coordinated_move] then builds its target at the stored factor
    times the feedrate it remembers. *)
Theorem speed_factor_update (st : Impl) (f : float) :
  let v := if F32.ltb f F32.zero then F32.add F32.one f else f in
  let st1 := set_speed_factor st f in
  (if F64.ltb (F64.of_float v) (F64.decimal 5 3)
   then st1 = mprintf st msg_speed_factor
                [ArgDouble (F64.of_float (F32.mul (F32.of_int 100) v))]
        /\ prog_speed_factor_ st1 = prog_speed_factor_ st
   else st1 = set_prog_speed_factor st v) /\
  forall feed axis st2,
    coordinated_move atan2f st1 feed axis = Ok (true, st2) ->
    let remembered :=
      if F32.gtb feed F32.zero then F32.mul (speed_factor (cfg_ st)) feed
      else current_feedrate_mm_per_sec_ st in
    machine_move atan2f (set_current_feedrate st1 remembered)
      (F32.mul (prog_speed_factor_ st1) remembered) axis = Ok st2.
Proof.
  cbv zeta. split.
  - unfold set_speed_factor.
    destruct (F64.ltb _ _); [split; [reflexivity|] | reflexivity].
    destruct (mprintf_frame st msg_speed_factor
                [ArgDouble (F64.of_float
                   (F32.mul (F32.of_int 100)
                      (if F32.ltb f F32.zero then F32.add F32.one f else f)))])
      as [-> _]. reflexivity.
  - intros feed axis st2 H. apply coordinated_move_accepted in H. cbv zeta in H.
    assert (Hcfg : cfg_ (set_speed_factor st f) = cfg_ st /\
                   current_feedrate_mm_per_sec_ (set_speed_factor st f)
                   = current_feedrate_mm_per_sec_ st).
    { unfold set_speed_factor. destruct (F64.ltb _ _); [|split; reflexivity].
      match goal with |- context [mprintf st ?fmt ?a] =>
        destruct (mprintf_frame st fmt a) as [-> _] end. split; reflexivity. }
    destruct Hcfg as [Hc Hf]. rewrite Hc, Hf in H. exact H.
Qed.

End SpeedFactor.

(** The factors the M220 handler takes and refuses: -0.10 is stored as
    0.9, and the float nearest to 0.005 is refused, being below the double
    0.005. *)
Lemma speed_factor_examples :
  prog_speed_factor_
    (set_speed_factor default_machine (SFopp (F32.div (F32.of_int 1) (F32.of_int 10))))
  = F32.add F32.one (SFopp (F32.div (F32.of_int 1) (F32.of_int 10))) /\
  F32.add F32.one (SFopp (F32.div (F32.of_int 1) (F32.of_int 10)))
  = F32.div (F32.of_int 9) (F32.of_int 10) /\
  prog_speed_factor_
    (set_speed_factor default_machine (F32.div (F32.of_int 5) (F32.of_int 1000)))
  = prog_speed_factor_ default_machine /\
  prog_speed_factor_
    (set_speed_factor default_machine (F32.div (F32.of_int 6) (F32.of_int 1000)))
  = F32.div (F32.of_int 6) (F32.of_int 1000).
Proof. repeat split; vm_compute; reflexivity. Qed.

(** ** Homing *)

(** Whether an axis has a home switch the board can read. *)
Lemma GetHomeEndstop_cases (st : Impl) (axis : GCodeParserAxis) :
  let use_min :=
    negb (endstop_number (min_endstop_ st axis) =? 0) && homing_use (min_endstop_ st axis) in
  GetHomeEndstop st axis =
    if use_min
    then (get_endstop_gpio_descriptor (board_ st) (min_endstop_ st axis), -1,
          Some (trigger_value (min_endstop_ st axis)))
    else if homing_use (max_endstop_ st axis)
         then (get_endstop_gpio_descriptor (board_ st) (max_endstop_ st axis), 1,
               Some (trigger_value (max_endstop_ st axis)))
         else (0, 1, None).
Proof.
  cbv zeta. unfold GetHomeEndstop.
  destruct (negb (endstop_number (min_endstop_ st axis) =? 0)) eqn:En; cbn [andb].
  - destruct (homing_use (min_endstop_ st axis)) eqn:Eh; cbn [negb].
    + rewrite Eh. reflexivity.
    + destruct (homing_use (max_endstop_ st axis)); reflexivity.
  - destruct (homing_use (max_endstop_ st axis)); reflexivity.
Qed.

(** An axis without a home switch is not homed: nothing happens. *)
Lemma home_axis_without_switch (fuel : nat) (st : Impl) (axis : GCodeParserAxis) :
  (0 < RingDeque.size (planning_buffer_ st))%nat ->
  fst (fst (GetHomeEndstop st axis)) = 0 ->
  home_axis fuel st axis = Ok st.
Proof.
  intros Hsize Hgpio. unfold home_axis, RingDeque.back.
  apply Nat.ltb_lt in Hsize. rewrite Hsize. cbn [bind].
  destruct (GetHomeEndstop st axis) as [[gpio dir] trigger]. cbn [fst] in Hgpio.
  subst gpio. reflexivity.
Qed.

Lemma home_in_order_without_switches (fuel : nat) (axes_bitmap : Z) (st : Impl) :
  (0 < RingDeque.size (planning_buffer_ st))%nat ->
  (forall axis, Z.testbit axes_bitmap (axis_index axis) = true ->
     fst (fst (GetHomeEndstop st axis)) = 0) ->
  forall order, home_in_order fuel order axes_bitmap st = Ok st.
Proof.
  intros Hsize Hnone. induction order as [|c rest IH]; simpl; [reflexivity|].
  destruct (gcodep_letter2axis c) as [axis|]; [|exact IH].
  destruct (Z.testbit axes_bitmap (axis_index axis)) eqn:Ebit; cbn [negb]; [|exact IH].
  rewrite (home_axis_without_switch fuel st axis Hsize (Hnone axis Ebit)). exact IH.
Qed.

(** X12 (homing state after go_home).  Every call of [go_home] that returns
    leaves the homing state HOMED, for every bitmap, so that the homing
    check of the move callbacks passes afterwards.  When no selected axis
    has a home switch (the empty bitmap included) no axis is moved: the call
    appends the halt sentinel, marks the machine homed and does nothing
    else, and it returns whenever [bring_path_to_halt] does. *)
Theorem go_home_sets_homed (fuel : nat) (st : Impl) (axes_bitmap : Z) :
  (forall st', go_home fuel st axes_bitmap = Ok st' ->
     homing_state_ st' = HOMING_STATE_HOMED /\
     test_homing_status_ok st' = (true, st')) /\
  (forall st1, bring_path_to_halt st = Ok st1 ->
     (forall axis, Z.testbit axes_bitmap (axis_index axis) = true ->
        fst (fst (GetHomeEndstop st axis)) = 0) ->
     go_home fuel st axes_bitmap = Ok (set_homing_state st1 HOMING_STATE_HOMED)).
Proof.
  split.
  - intros st' H. unfold go_home in H. bind_inv H. bind_inv H. injection H as <-.
    split; [reflexivity|]. unfold test_homing_status_ok. cbn [homing_state_ set_homing_state].
    destruct (require_homing _); reflexivity.
  - intros st1 Hhalt Hnone. unfold go_home. rewrite Hhalt. cbn [bind].
    apply bring_path_to_halt_Ok in Hhalt
      as (_ & sentinel & _ & Hback & _ & _ & _ & _ & _ & _ & Hframe).
    rewrite home_in_order_without_switches; [reflexivity| |].
    + unfold RingDeque.back in Hback.
      destruct (0 <? RingDeque.size (planning_buffer_ st1))%nat eqn:E; [|discriminate Hback].
      apply Nat.ltb_lt in E. exact E.
    + intros axis Hbit. rewrite Hframe. apply (Hnone axis Hbit).
Qed.

(** X13 (motor power and homing).  A returning [motors_enable] has
    appended the halt sentinel and then switched the motor power as asked;
    a machine that was HOMED is afterwards HOMED_BUT_MOTORS_UNPOWERED and
    any other homing state is kept, so the homing check of the move
    callbacks gives the answer it gave before. *)
Theorem motors_enable_homing (st st' : Impl) (b : bool) :
  motors_enable st b = Ok st' ->
  exists st1,
    bring_path_to_halt st = Ok st1 /\
    motor_ops_ st' = motor_ops_ st1 ++ [MotorEnable b] /\
    planning_buffer_ st' = planning_buffer_ st1 /\
    homing_state_ st' =
      match homing_state_ st with
      | HOMING_STATE_HOMED => HOMING_STATE_HOMED_BUT_MOTORS_UNPOWERED
      | h => h
      end /\
    fst (test_homing_status_ok st') = fst (test_homing_status_ok st).
Proof.
  intros H. unfold motors_enable in H. bind_inv H. rename a into st1.
  injection H as <-. exists st1. split; [exact E|].
  apply bring_path_to_halt_Ok in E as (_ & _ & _ & _ & _ & _ & _ & _ & _ & _ & Hframe).
  assert (Hh : homing_state_ st1 = homing_state_ st) by (rewrite Hframe; reflexivity).
  assert (Hc : cfg_ st1 = cfg_ st) by (rewrite Hframe; reflexivity).
  cbn [homing_state_ motor_call set_motor_ops]. rewrite Hh.
  unfold test_homing_status_ok.
  destruct (homing_state_ st); cbn; rewrite ?Hc, ?Hh;
    (split; [reflexivity|]); (split; [reflexivity|]); (split; [reflexivity|]);
    destruct (require_homing (cfg_ st)); reflexivity.
Qed.

(** *** Moving to an endstop *)


(** One polling loop of [move_to_endstop] that ends: it has read the pin
    [n + 1] times, the last read alone meeting the condition to stop, has
    sent one segment after each of the other reads, and has added [n] times
    the segment's steps to the total. *)
Lemma endstop_loop_spec (until_triggered : bool) (gpio_def trigger segment_move_steps : Z) :
  forall fuel st move_command total total' move_command' st',
    endstop_loop fuel until_triggered gpio_def trigger segment_move_steps st
      move_command total = Ok (total', move_command', st') ->
    exists n : nat,
      (n <= fuel)%nat /\
      total' = total + Z.of_nat n * segment_move_steps /\
      gpio_reads (board_ st') = (gpio_reads (board_ st) + n + 1)%nat /\
      (forall j, (j < n)%nat ->
         (gpio_level (board_ st) (gpio_reads (board_ st) + j) gpio_def =? trigger)
         = negb until_triggered) /\
      (gpio_level (board_ st) (gpio_reads (board_ st) + n) gpio_def =? trigger)
      = until_triggered /\
      motor_ops_ st' =
        motor_ops_ st ++ segment_rounds_sent n move_command (negb until_triggered) /\
      steps move_command' = steps move_command /\
      st' = set_board (set_motor_ops st (motor_ops_ st')) (board_ st') /\
      END_GPIO (board_ st') = END_GPIO (board_ st) /\
      gpio_level (board_ st') = gpio_level (board_ st).
Proof.
  assert (Hstop : forall st mc total,
            (gpio_level (board_ st) (gpio_reads (board_ st)) gpio_def =? trigger)
            = until_triggered ->
            exists n : nat,
              (n <= 0)%nat /\
              total = total + Z.of_nat n * segment_move_steps /\
              S (gpio_reads (board_ st)) = (gpio_reads (board_ st) + n + 1)%nat /\
              (forall j, (j < n)%nat ->
                 (gpio_level (board_ st) (gpio_reads (board_ st) + j) gpio_def =? trigger)
                 = negb until_triggered) /\
              (gpio_level (board_ st) (gpio_reads (board_ st) + n) gpio_def =? trigger)
              = until_triggered /\
              motor_ops_ st =
                motor_ops_ st ++ segment_rounds_sent n mc (negb until_triggered) /\
              steps mc = steps mc /\
              set_board st
                {| END_GPIO := END_GPIO (board_ st); gpio_level := gpio_level (board_ st);
                   gpio_reads := S (gpio_reads (board_ st)) |}
              = set_board (set_motor_ops st (motor_ops_ st))
                  {| END_GPIO := END_GPIO (board_ st); gpio_level := gpio_level (board_ st);
                     gpio_reads := S (gpio_reads (board_ st)) |} /\
              END_GPIO (board_ st) = END_GPIO (board_ st) /\
              gpio_level (board_ st) = gpio_level (board_ st)).
  { intros st mc total El. exists 0%nat. rewrite !Nat.add_0_r.
    split; [lia|]. split; [lia|]. split; [lia|]. split; [intros j Hj; lia|].
    split; [exact El|]. split; [symmetry; apply app_nil_r|]. split; [reflexivity|].
    split; [destruct st; reflexivity|]. split; reflexivity. }
  assert (Hgo : forall b : bool, (if until_triggered then negb b else b) = false ->
                b = until_triggered).
  { intros b. destruct until_triggered, b; simpl; congruence. }
  assert (Hgo' : forall b : bool, (if until_triggered then negb b else b) = true ->
                 b = negb until_triggered).
  { intros b. destruct until_triggered, b; simpl; congruence. }
  induction fuel as [|fuel IH]; intros st mc total total' mc' st' H;
    cbn [endstop_loop get_gpio] in H;
    cbn [board_ set_board motor_call set_motor_ops motor_ops_] in H;
    destruct (if until_triggered
              then negb (gpio_level (board_ st) (gpio_reads (board_ st)) gpio_def =? trigger)
              else (gpio_level (board_ st) (gpio_reads (board_ st)) gpio_def =? trigger))
      eqn:Ego; try discriminate H.
  - injection H as <- <- <-. apply Hgo in Ego.
    destruct (Hstop st mc total Ego) as (n & Hn & Hrest). exists n.
    cbn [board_ set_board gpio_reads gpio_level END_GPIO motor_ops_]. split; [lia | exact Hrest].
  - bind_inv H. apply int_Ok in E as [-> _]. apply Hgo' in Ego.
    apply IH in H as (n & Hn & Ht & Hr & Hbefore & Hlast & Hops & Hsteps & Hframe & He & Hg).
    cbn [board_ set_board gpio_reads gpio_level END_GPIO motor_ops_ set_motor_ops
         motor_call] in *.
    exists (S n). split; [lia|]. split; [rewrite Ht, Nat2Z.inj_succ; ring|].
    split; [lia|].
    split; [|split; [|split; [|split; [|split; [|split]]]]].
    + intros j Hj. destruct j as [|j]; [rewrite Nat.add_0_r; exact Ego|].
      replace (gpio_reads (board_ st) + S j)%nat with (S (gpio_reads (board_ st)) + j)%nat
        by lia. apply Hbefore. lia.
    + replace (gpio_reads (board_ st) + S n)%nat with (S (gpio_reads (board_ st)) + n)%nat
        by lia. exact Hlast.
    + rewrite Hops. rewrite <- !app_assoc. cbn [segment_rounds_sent app].
      destruct until_triggered; reflexivity.
    + rewrite Hsteps. destruct until_triggered; reflexivity.
    + rewrite Hframe. destruct st; reflexivity.
    + exact He.
    + exact Hg.
  - injection H as <- <- <-. apply Hgo in Ego.
    destruct (Hstop st mc total Ego) as (n & Hn & Hrest). exists n.
    cbn [board_ set_board gpio_reads gpio_level END_GPIO motor_ops_]. split; [lia | exact Hrest].
Qed.

Lemma set_board_motor_ops_same (st : Impl) :
  st = set_board (set_motor_ops st (motor_ops_ st)) (board_ st).
Proof. destruct st; reflexivity. Qed.

(** A call of [move_to_endstop] that returns, taken apart: [n1] segments
    of [seg1] steps towards the switch, until it reads triggered, then (with
    back-off) [n2] segments of [seg2] steps away from it, until it reads
    released. *)
Lemma move_to_endstop_Ok (fuel : nat) (st st' : Impl) (axis : GCodeParserAxis)
    (feedrate : float) (backoff dir trigger gpio_def total : Z) :
  move_to_endstop fuel st axis feedrate backoff dir trigger gpio_def = Ok (total, st') ->
  exists (seg1 seg2 : Z) (n1 n2 : nat) (approach retreat : MotorMovement),
    F64.to_int (F64.mul (F64.mul (F64.decimal 5 1)
                                 (F64.of_float (steps_per_mm (cfg_ st) axis)))
                        (F64.of_int dir)) = Ok seg1 /\
    (backoff <> 0 ->
     F64.to_int (F64.mul (F64.mul (F64.decimal 1 1)
                                  (F64.of_float (steps_per_mm (cfg_ st) axis)))
                         (F64.of_int (- dir))) = Ok seg2) /\
    (backoff = 0 -> n2 = 0%nat) /\
    total = Z.of_nat n1 * seg1 + Z.of_nat n2 * seg2 /\
    (* the reads of the pin *)
    (forall j, (j < n1)%nat ->
       (gpio_level (board_ st) (gpio_reads (board_ st) + j) gpio_def =? trigger) = false) /\
    (gpio_level (board_ st) (gpio_reads (board_ st) + n1) gpio_def =? trigger) = true /\
    (backoff <> 0 ->
     (forall j, (j < n2)%nat ->
        (gpio_level (board_ st) (gpio_reads (board_ st) + n1 + 1 + j) gpio_def =? trigger)
        = true) /\
     (gpio_level (board_ st) (gpio_reads (board_ st) + n1 + 1 + n2) gpio_def =? trigger)
     = false) /\
    gpio_reads (board_ st') =
      (gpio_reads (board_ st) + n1 + 1 + (if (backoff =? 0)%Z then 0 else n2 + 1))%nat /\
    (* what the motors were sent *)
    assign_steps_to_motors st (with_v MotorMovement_zero F32.zero (v1 approach)) axis seg1
    = Ok approach /\
    motor_ops_ st' =
      motor_ops_ st ++ segment_rounds_sent n1 approach false
                    ++ segment_rounds_sent n2 retreat true /\
    (* and the rest of the machine *)
    st' = set_board (set_motor_ops st (motor_ops_ st')) (board_ st') /\
    END_GPIO (board_ st') = END_GPIO (board_ st) /\
    gpio_level (board_ st') = gpio_level (board_ st).
Proof.
  unfold move_to_endstop. intros H.
  bind_inv H. rename a into seg1. bind_inv H. rename a into approach.
  bind_inv H. destruct a as [[total1 mc1] st1].
  apply endstop_loop_spec in E1
    as (n1 & _ & Ht1 & Hr1 & Hb1 & Hl1 & Hops1 & Hsteps1 & Hframe1 & He1 & Hg1).
  cbn [negb] in Hb1, Hops1.
  assert (Happroach : assign_steps_to_motors st
                        (with_v MotorMovement_zero F32.zero (v1 approach)) axis seg1
                      = Ok approach).
  { pose proof (assign_steps_to_motors_spec st _ _ _ _ E0) as [(_ & Hv1 & _) _].
    cbn [v1 with_v] in Hv1. rewrite Hv1. exact E0. }
  destruct (backoff =? 0) eqn:Eb; cbn [negb] in H.
  - injection H as <- <-. apply Z.eqb_eq in Eb.
    exists seg1, 0, n1, 0%nat, approach, approach.
    split; [exact E|]. split; [intros Hb; contradiction|]. split; [reflexivity|].
    split; [lia|]. split; [exact Hb1|]. split; [exact Hl1|].
    split; [intros Hb; contradiction|]. split; [lia|]. split; [exact Happroach|].
    split; [rewrite Hops1; cbn [segment_rounds_sent]; rewrite app_nil_r; reflexivity|].
    split; [exact Hframe1|]. split; [exact He1 | exact Hg1].
  - apply Z.eqb_neq in Eb.
    bind_inv H. apply int_Ok in E1 as [-> _].
    bind_inv H. rename a into seg2. bind_inv H. rename a into retreat.
    bind_inv H. destruct a as [[total2 mc2] st2]. injection H as <- <-.
    apply endstop_loop_spec in E3
      as (n2 & _ & Ht2 & Hr2 & Hb2 & Hl2 & Hops2 & _ & Hframe2 & He2 & Hg2).
    cbn [negb] in Hb2, Hops2.
    exists seg1, seg2, n1, n2, approach, retreat.
    split; [exact E|]. split; [intros _; exact E1|]. split; [intros Hb; contradiction|].
    split; [lia|]. split; [exact Hb1|]. split; [exact Hl1|]. split.
    { intros _. rewrite Hg1, Hr1 in Hb2, Hl2. split; [exact Hb2 | exact Hl2]. }
    split; [lia|]. split; [exact Happroach|].
    split; [rewrite Hops2, Hops1, <- app_assoc; reflexivity|].
    split; [rewrite Hframe2, Hframe1; reflexivity|].
    split; [congruence | congruence].
Qed.



Lemma back_store_last (q : RingDeque.t) (v last : AxisTarget) :
  RingDeque.back q = Ok last ->
  RingDeque.back (RingDeque.store q (RingDeque.slot q (RingDeque.size q - 1)) v) = Ok v /\
  RingDeque.size (RingDeque.store q (RingDeque.slot q (RingDeque.size q - 1)) v)
  = RingDeque.size q.
Proof.
  unfold RingDeque.back, RingDeque.store.
  cbn [RingDeque.size RingDeque.read_pos RingDeque.buffer].
  destruct (0 <? RingDeque.size q)%nat; [|discriminate]. intros _.
  unfold RingDeque.slot. cbn [RingDeque.size RingDeque.read_pos RingDeque.buffer].
  rewrite Nat.eqb_refl. split; reflexivity.
Qed.

(** A returning [home_axis] on an axis with a home switch, taken apart. *)
Lemma home_axis_with_switch (fuel : nat) (st st' : Impl) (axis : GCodeParserAxis) :
  fst (fst (GetHomeEndstop st axis)) <> 0 ->
  home_axis fuel st axis = Ok st' ->
  exists (last last' : AxisTarget) (trigger total : Z) (st1 : Impl),
    RingDeque.back (planning_buffer_ st) = Ok last /\
    RingDeque.back (planning_buffer_ st') = Ok last' /\
    let gpio_def := fst (fst (GetHomeEndstop st axis)) in
    let dir := snd (fst (GetHomeEndstop st axis)) in
    let home_pos := if dir <? 0 then F32.zero else move_range_mm (cfg_ st) axis in
    move_to_endstop fuel st axis (F32.of_int 15) 1 dir trigger gpio_def = Ok (total, st1) /\
    round2int (F32.mul home_pos (steps_per_mm (cfg_ st) axis))
    = Ok (position_steps last' axis) /\
    (forall k, k <> axis -> position_steps last' k = position_steps last k) /\
    delta_steps last' = delta_steps last /\
    defining_axis last' = defining_axis last /\
    speed last' = speed last /\
    RingDeque.size (planning_buffer_ st') = RingDeque.size (planning_buffer_ st) /\
    homing_state_ st' = homing_state_ st /\
    cfg_ st' = cfg_ st /\ min_endstop_ st' = min_endstop_ st /\
    max_endstop_ st' = max_endstop_ st /\
    END_GPIO (board_ st') = END_GPIO (board_ st).
Proof.
  intros Hgpio H. unfold home_axis in H. bind_inv H. rename a into last.
  destruct (GetHomeEndstop st axis) as [[gpio_def dir] trigger] eqn:Eg.
  cbn [fst snd] in *. apply Z.eqb_neq in Hgpio. rewrite Hgpio in H.
  destruct trigger as [trigger|].
  - bind_inv H. destruct a as [total st1]. bind_inv H. rename a into p.
    injection H as <-.
    pose proof (move_to_endstop_Ok _ _ _ _ _ _ _ _ _ _ E0)
      as (? & ? & ? & ? & ? & ? & _ & _ & _ & _ & _ & _ & _ & _ & _ & _ & Hframe & Hend & _).
    assert (Hmin : min_endstop_ st1 = min_endstop_ st) by (rewrite Hframe; reflexivity).
    assert (Hmax : max_endstop_ st1 = max_endstop_ st) by (rewrite Hframe; reflexivity).
    assert (Hq : planning_buffer_ st1 = planning_buffer_ st) by (rewrite Hframe; reflexivity).
    assert (Hc : cfg_ st1 = cfg_ st) by (rewrite Hframe; reflexivity).
    assert (Hh : homing_state_ st1 = homing_state_ st) by (rewrite Hframe; reflexivity).
    rewrite Hq, Hc in *.
    exists last.
    eexists. exists trigger, total, st1.
    cbn [planning_buffer_ set_planning_buffer homing_state_ cfg_ min_endstop_ max_endstop_
         board_].
    destruct (back_store_last (planning_buffer_ st)
                {| position_steps :=
                     set_axis
                       (position_steps
                          (RingDeque.buffer (planning_buffer_ st)
                             (RingDeque.slot (planning_buffer_ st)
                                (RingDeque.size (planning_buffer_ st) - 1)))) axis p;
                   delta_steps :=
                     delta_steps
                       (RingDeque.buffer (planning_buffer_ st)
                          (RingDeque.slot (planning_buffer_ st)
                             (RingDeque.size (planning_buffer_ st) - 1)));
                   defining_axis :=
                     defining_axis
                       (RingDeque.buffer (planning_buffer_ st)
                          (RingDeque.slot (planning_buffer_ st)
                             (RingDeque.size (planning_buffer_ st) - 1)));
                   speed :=
                     speed
                       (RingDeque.buffer (planning_buffer_ st)
                          (RingDeque.slot (planning_buffer_ st)
                             (RingDeque.size (planning_buffer_ st) - 1)));
                   angle :=
                     angle
                       (RingDeque.buffer (planning_buffer_ st)
                          (RingDeque.slot (planning_buffer_ st)
                             (RingDeque.size (planning_buffer_ st) - 1)));
                   aux_bits :=
                     aux_bits
                       (RingDeque.buffer (planning_buffer_ st)
                          (RingDeque.slot (planning_buffer_ st)
                             (RingDeque.size (planning_buffer_ st) - 1))) |} last E)
      as [Hb Hs].
    assert (Hlast : RingDeque.buffer (planning_buffer_ st)
                      (RingDeque.slot (planning_buffer_ st)
                         (RingDeque.size (planning_buffer_ st) - 1)) = last).
    { unfold RingDeque.back in E.
      destruct (0 <? RingDeque.size (planning_buffer_ st))%nat; [|discriminate E].
      apply Ok_inj in E. exact E. }
    split; [exact E|]. split; [exact Hb|].
    cbn [position_steps delta_steps defining_axis speed]. rewrite Hlast.
    split; [exact E0|].
    split; [unfold set_axis; rewrite axis_eqb_refl; exact E1|].
    split.
    { intros k Hk. unfold set_axis. destruct (axis_eqb k axis) eqn:Ek; [|reflexivity].
      apply axis_eqb_eq in Ek. contradiction. }
    split; [reflexivity|]. split; [reflexivity|]. split; [reflexivity|].
    split; [exact Hs|]. split; [exact Hh|]. split; [exact Hc|].
    split; [exact Hmin|]. split; [exact Hmax | exact Hend].
  - exfalso. rewrite GetHomeEndstop_cases in Eg. cbv zeta in Eg.
    destruct (negb _ && _); [discriminate Eg|].
    destruct (homing_use _); [discriminate Eg|].
    injection Eg as <- _. apply Z.eqb_neq in Hgpio. contradiction.
Qed.

(** [GetHomePos], axis by axis. *)
Lemma GetHomePos_loop (st : Impl) (l : list GCodeParserAxis) :
  forall (init : AxesRegister) (a : GCodeParserAxis),
    fold_left
      (fun home_pos axis =>
         let '(gpio_def, dir, _) := GetHomeEndstop st axis in
         if gpio_def =? 0 then home_pos
         else set_axis home_pos axis
                (if dir <? 0 then F32.zero else move_range_mm (cfg_ st) axis))
      l init a
    = if existsb (axis_eqb a) l && negb (fst (fst (GetHomeEndstop st a)) =? 0)
      then (if snd (fst (GetHomeEndstop st a)) <? 0 then F32.zero
            else move_range_mm (cfg_ st) a)
      else init a.
Proof.
  induction l as [|x l IH]; intros init a; [reflexivity|].
  cbn [fold_left existsb]. rewrite IH.
  destruct (axis_eqb a x) eqn:Eax; cbn [orb].
  - apply axis_eqb_eq in Eax. subst x.
    destruct (GetHomeEndstop st a) as [[g d] t]. cbn [fst snd].
    destruct (g =? 0) eqn:Eg; cbn [negb]; rewrite ?andb_false_r, ?andb_true_r.
    + reflexivity.
    + unfold set_axis. rewrite axis_eqb_refl.
      destruct (existsb (axis_eqb a) l); reflexivity.
  - destruct (existsb (axis_eqb a) l && negb (fst (fst (GetHomeEndstop st a)) =? 0));
      [reflexivity|].
    destruct (GetHomeEndstop st x) as [[g d] t]. destruct (g =? 0); [reflexivity|].
    unfold set_axis. rewrite Eax. reflexivity.
Qed.

Lemma GetHomePos_spec (st : Impl) (a : GCodeParserAxis) :
  GetHomePos st a
  = if fst (fst (GetHomeEndstop st a)) =? 0 then F32.zero
    else if snd (fst (GetHomeEndstop st a)) <? 0 then F32.zero
         else move_range_mm (cfg_ st) a.
Proof.
  unfold GetHomePos. rewrite GetHomePos_loop, existsb_all_axes. cbn [andb].
  destruct (fst (fst (GetHomeEndstop st a)) =? 0); reflexivity.
Qed.





(** X17 (probe refused).  When [probe_axis] returns false it has sent the
    motors nothing but what bringing the path to a halt sends, and it has
    said why: either the machine needs homing and was never homed, and then
    nothing at all was done but to print the request to home, or the axis
    has no endstop that is free for probing (the one picked has no pin or is
    the home switch), and then the path was halted and the "No probe" line
    names the axis letter. *)
Theorem probe_axis_refused (fuel : nat) (st st' : Impl) (feedrate : float)
    (axis : GCodeParserAxis) :
  probe_axis fuel st feedrate axis = Ok (None, st') ->
  (require_homing (cfg_ st) = true /\ homing_state_ st = HOMING_STATE_NEVER_HOMED /\
   st' = mprintf st msg_please_home []) \/
  (exists st1 : Impl,
     bring_path_to_halt st = Ok st1 /\
     let use_min :=
       negb (endstop_number (min_endstop_ st axis) =? 0)
       && negb (homing_use (min_endstop_ st axis)) in
     let config := if use_min then min_endstop_ st axis else max_endstop_ st axis in
     (get_endstop_gpio_descriptor (board_ st) config = 0 \/ homing_use config = true) /\
     st' = mprintf st1 msg_no_probe [ArgChar (gcodep_axis2letter axis)] /\
     motor_ops_ st' = motor_ops_ st1 /\
     planning_buffer_ st' = planning_buffer_ st1 /\
     board_ st' = board_ st).
Proof.
  intros H. unfold probe_axis in H.
  destruct (test_homing_status_ok_cases st) as [[Eh Hhomed]|[Eh [Hreq Hnever]]];
    rewrite Eh in H; cbn [negb] in H.
  2:{ left. injection H as <-. auto. }
  right. bind_inv H. rename a into st1.
  pose proof (bring_path_to_halt_Ok _ _ E)
    as (_ & _ & _ & _ & _ & _ & _ & _ & _ & _ & Hframe).
  assert (Hmin : min_endstop_ st1 = min_endstop_ st) by (rewrite Hframe; reflexivity).
  assert (Hmax : max_endstop_ st1 = max_endstop_ st) by (rewrite Hframe; reflexivity).
  assert (Hboard : board_ st1 = board_ st) by (rewrite Hframe; reflexivity).
  rewrite Hmin, Hmax, Hboard in H.
  exists st1. split; [exact E|]. cbv zeta.
  set (use_min := negb (endstop_number (min_endstop_ st axis) =? 0)
                  && negb (homing_use (min_endstop_ st axis))) in *.
  set (config := if use_min then min_endstop_ st axis else max_endstop_ st axis) in *.
  destruct ((get_endstop_gpio_descriptor (board_ st) config =? 0) || homing_use config)
    eqn:Eg.
  - injection H as <-.
    split.
    { apply orb_true_iff in Eg as [Eg|Eg]; [left; apply Z.eqb_eq; exact Eg | right; exact Eg]. }
    split; [reflexivity|].
    destruct (mprintf_frame st1 msg_no_probe [ArgChar (gcodep_axis2letter axis)]) as [Hf _].
    rewrite Hf. cbn [motor_ops_ planning_buffer_ board_ set_msg_stream].
    repeat split; try reflexivity. exact Hboard.
  - exfalso. bind_inv H. bind_inv H. destruct a0 as [total st2]. bind_inv H.
    discriminate H.
Qed.

(** *** The homing properties on the example machine *)



Lemma motors_off_runs : motors_enable homed_machine false = Ok unpowered_machine.
Proof. vm_compute. reflexivity. Qed.


Lemma probe_x_runs :
  probe_axis 10 homed_machine F32.zero AXIS_X = Ok (None, snd probe_x_outcome).
Proof. vm_compute. reflexivity. Qed.

Lemma coordinated_diagonal_runs :
  coordinated_move atan2f_on_axes default_machine (F32.of_int 200) (mm 10 10 0 0)
  = Ok (true, snd coordinated_diagonal_outcome).
Proof. vm_compute. reflexivity. Qed.




(** The X axis has only its home switch: no probe. *)
Lemma probe_axis_refused_witness :
  exists st1 : Impl,
    bring_path_to_halt homed_machine = Ok st1 /\
    snd probe_x_outcome = mprintf st1 msg_no_probe [ArgChar "X"%char] /\
    motor_ops_ (snd probe_x_outcome) = motor_ops_ st1.
Proof.
  destruct (probe_axis_refused _ _ _ _ _ probe_x_runs)
    as [(_ & Hn & _)|(st1 & Hh & _ & Hs & Hm & _)]; [discriminate Hn|].
  exists st1. split; [exact Hh|]. split; [exact Hs | exact Hm].
Defined.

(** Before homing the homing machine refuses G1 and G0 with one line. *)
Lemma unhomed_move_refused_witness :
  coordinated_move atan2f_on_axes (homing_machine (Some [])) (F32.of_int 200) (mm 10 0 0 0)
  = Ok (false, mprintf (homing_machine (Some [])) msg_please_home []) /\
  rapid_move atan2f_on_axes (homing_machine (Some [])) (F32.of_int 200) (mm 10 0 0 0)
  = Ok (false, mprintf (homing_machine (Some [])) msg_please_home []) /\
  msg_stream_ (mprintf (homing_machine (Some [])) msg_please_home [])
  = Some [{| format := msg_please_home; args := [] |}].
Proof.
  destruct (unhomed_move_refused atan2f_on_axes (homing_machine (Some []))
              (F32.of_int 200) (mm 10 0 0 0) eq_refl eq_refl) as (H1 & H2 & _ & H4 & _).
  split; [exact H1|]. split; [exact H2 | exact H4].
Defined.

(** G1 X10 Y10 F200 on the default machine remembers 200 mm/s. *)
Lemma coordinated_move_feedrate_witness :
  current_feedrate_mm_per_sec_ (snd coordinated_diagonal_outcome)
  = F32.mul (speed_factor (cfg_ default_machine)) (F32.of_int 200) /\
  prog_speed_factor_ (snd coordinated_diagonal_outcome) = prog_speed_factor_ default_machine.
Proof.
  destruct (coordinated_move_feedrate atan2f_on_axes _ _ _ _ coordinated_diagonal_runs)
    as (H1 & H2 & _).
  split; [exact H1 | exact H2].
Defined.

(** Switching the motors off on the homed machine leaves it
    HOMED_BUT_MOTORS_UNPOWERED, which still passes the homing check. *)
Lemma motors_enable_homing_witness :
  homing_state_ unpowered_machine = HOMING_STATE_HOMED_BUT_MOTORS_UNPOWERED /\
  fst (test_homing_status_ok unpowered_machine) = true.
Proof.
  destruct (motors_enable_homing _ _ _ motors_off_runs) as (st1 & _ & _ & _ & Hh & Ht).
  split; [exact Hh | rewrite Ht; reflexivity].
Defined.

(** ** The planner helpers *)

Lemma substract_loop_flag (s : MotorMovement) (l : list nat) :
  NoDup l ->
  forall c b c' b',
    for_each l
      (fun i '(c, has_nonzero) =>
         d <- CInt.sub (steps c i) (steps s i) ;;
         Ok (with_steps c (fun j => if (j =? i)%nat then d else steps c j),
             has_nonzero || negb (d =? 0)))
      (c, b) = Ok (c', b') ->
    b' = b || existsb (fun m => negb (steps c' m =? 0)) l.
Proof.
  induction 1 as [|i l Hi Hnd IH]; intros c b c' b' H.
  - cbn [for_each] in H. injection H as <- <-. cbn [existsb]. rewrite orb_false_r.
    reflexivity.
  - cbn [for_each] in H. bind_inv H. destruct a as [c1 b1].
    pose proof (substract_loop_spec s l Hnd _ _ _ _ H) as (_ & Hout & _).
    apply IH in H. bind_inv E. rename a into d. injection E as <- <-.
    cbn [existsb]. rewrite H, (Hout i Hi). cbn [steps with_steps].
    rewrite Nat.eqb_refl, orb_assoc. reflexivity.
Qed.

Lemma substract_steps_nonzero (value substract value' : MotorMovement) (has_nonzero : bool) :
  substract_steps value substract = Ok (value', has_nonzero) ->
  has_nonzero = true <->
  exists m, (m < BEAGLEG_NUM_MOTORS)%nat /\ steps value' m <> 0.
Proof.
  intros H.
  unfold substract_steps in H. apply substract_loop_flag in H; [|apply seq_NoDup].
  cbn [orb] in H. rewrite H. unfold all_motors. rewrite existsb_exists. split.
  - intros (m & Hin & Hm). exists m. apply in_seq in Hin.
    apply negb_true_iff, Z.eqb_neq in Hm. split; [lia | exact Hm].
  - intros (m & Hlt & Hm). exists m. split; [apply in_seq; lia|].
    apply negb_true_iff, Z.eqb_neq. exact Hm.
Qed.

(** X18 (the flag of substract_steps).  A returning [substract_steps]
    leaves [value->steps[i] - substract->steps[i]] on each of the 8 motors,
    touches neither the speeds nor the aux bits, and returns true exactly
    when some motor is left with a count that is not zero.  (The comment
    above the function says the opposite: "Returns true, if all results in
    zero movement".) *)
Theorem substract_steps_flag (value substract value' : MotorMovement) (has_nonzero : bool) :
  substract_steps value substract = Ok (value', has_nonzero) ->
  (forall m, (m < BEAGLEG_NUM_MOTORS)%nat ->
     steps value' m = steps value m - steps substract m) /\
  v0 value' = v0 value /\ v1 value' = v1 value /\
  mm_aux_bits value' = mm_aux_bits value /\
  (has_nonzero = true <->
   exists m, (m < BEAGLEG_NUM_MOTORS)%nat /\ steps value' m <> 0).
Proof.
  intros H. pose proof (substract_steps_spec _ _ _ _ H) as [(Hv0 & Hv1 & Ha) [Hs _]].
  split; [exact Hs|]. split; [exact Hv0|]. split; [exact Hv1|]. split; [exact Ha|].
  apply (substract_steps_nonzero _ _ _ _ H).
Qed.

(** Taking one segment from another that has the same steps on every driver
    but the fourth leaves a move, on that driver alone. *)
Lemma substract_steps_flag_witness :
  snd cruise_rest = true /\
  steps (fst cruise_rest) 3%nat = 7 - 5 /\ steps (fst cruise_rest) 0%nat = 7 - 7.
Proof.
  assert (H : substract_steps (with_steps MotorMovement_zero (fun _ => 7))
                (with_steps MotorMovement_zero (fun m => if (m =? 3)%nat then 5 else 7))
              = Ok (fst cruise_rest, true)) by (vm_compute; reflexivity).
  destruct (substract_steps_flag _ _ _ _ H) as (Hs & _).
  split; [reflexivity|].
  split; [apply (Hs 3%nat) | apply (Hs 0%nat)]; unfold BEAGLEG_NUM_MOTORS; lia.
Defined.

Section Mirroring.

Variable st : Impl.

(** X19 (mirroring).  A returning [assign_steps_to_motors] writes
    [axis_flip * driver_flip * steps] to every one of the 8 drivers whose
    bit is set in the bitmap of the axis, so that two drivers mapped to one
    axis get the same count up to their own flip; it leaves the count of
    every other driver, the speeds and the aux bits as they were, and a bit
    of the bitmap above the 8th names no driver. *)
Theorem mirrored_drivers (c c' : MotorMovement) (axis : GCodeParserAxis) (n : Z) :
  assign_steps_to_motors st c axis n = Ok c' ->
  (forall m, (m < BEAGLEG_NUM_MOTORS)%nat ->
     Z.testbit (axis_to_driver_ st axis) (Z.of_nat m) = true ->
     steps c' m = axis_flip_ st axis * driver_flip_ st m * n) /\
  (forall m1 m2, (m1 < BEAGLEG_NUM_MOTORS)%nat -> (m2 < BEAGLEG_NUM_MOTORS)%nat ->
     Z.testbit (axis_to_driver_ st axis) (Z.of_nat m1) = true ->
     Z.testbit (axis_to_driver_ st axis) (Z.of_nat m2) = true ->
     driver_flip_ st m1 * steps c' m2 = driver_flip_ st m2 * steps c' m1) /\
  (forall m, Z.testbit (axis_to_driver_ st axis) (Z.of_nat m) = false ->
     steps c' m = steps c m) /\
  (forall m, (BEAGLEG_NUM_MOTORS <= m)%nat -> steps c' m = steps c m) /\
  v0 c' = v0 c /\ v1 c' = v1 c /\ mm_aux_bits c' = mm_aux_bits c.
Proof.
  intros H. apply assign_steps_to_motors_spec in H as [(Hv0 & Hv1 & Ha) Hs].
  assert (Hin : forall m, (m < BEAGLEG_NUM_MOTORS)%nat ->
                  Z.testbit (axis_to_driver_ st axis) (Z.of_nat m) = true ->
                  steps c' m = axis_flip_ st axis * driver_flip_ st m * n).
  { intros m Hm Hb. rewrite Hs, Hb. apply Nat.ltb_lt in Hm. rewrite Hm. reflexivity. }
  split; [exact Hin|]. split.
  { intros m1 m2 H1 H2 B1 B2. rewrite (Hin m1 H1 B1), (Hin m2 H2 B2). ring. }
  split.
  { intros m Hb. rewrite Hs, Hb, andb_false_r. reflexivity. }
  split.
  { intros m Hm. rewrite Hs. apply Nat.ltb_ge in Hm. rewrite Hm. reflexivity. }
  auto.
Qed.

End Mirroring.

(** On the default machine X is driver 0 alone: 5 steps of X are 5 steps of
    driver 0 and none of driver 1. *)
Lemma mirrored_drivers_witness :
  steps x_five_steps 0%nat
  = axis_flip_ default_machine AXIS_X * driver_flip_ default_machine 0%nat * 5 /\
  steps x_five_steps 1%nat = 0.
Proof.
  assert (H : assign_steps_to_motors default_machine MotorMovement_zero AXIS_X 5
              = Ok x_five_steps) by (vm_compute; reflexivity).
  destruct (mirrored_drivers default_machine _ _ _ _ H) as (Hin & _ & Hout & _).
  split; [apply (Hin 0%nat); [unfold BEAGLEG_NUM_MOTORS; lia | reflexivity]
         | apply (Hout 1%nat); reflexivity].
Defined.

Lemma joining_speed_loop_gentle (from to : AxisTarget) (threshold ang : float) :
  F32.ltb ang threshold = true ->
  forall axes is_first v, joining_speed_loop from to threshold ang axes is_first v = v.
Proof.
  intros Hang. induction axes as [|axis rest IH]; intros is_first v; [reflexivity|].
  cbn [joining_speed_loop]. rewrite Hang. apply IH.
Qed.

Lemma joining_speed_loop_still (from to : AxisTarget) (threshold ang : float) :
  (forall k, delta_steps from k = 0 /\ delta_steps to k = 0) ->
  forall axes is_first v, joining_speed_loop from to threshold ang axes is_first v = v.
Proof.
  intros Hz. induction axes as [|axis rest IH]; intros is_first v; [reflexivity|].
  cbn [joining_speed_loop]. destruct (Hz axis) as [-> ->]. cbn [Z.eqb andb].
  rewrite IH. destruct (F32.ltb ang threshold); reflexivity.
Qed.

Lemma joining_speed_loop_start_stop (from to : AxisTarget) (threshold ang : float)
    (k : GCodeParserAxis) :
  F32.ltb ang threshold = false ->
  (delta_steps from k = 0 /\ delta_steps to k <> 0) \/
  (delta_steps from k <> 0 /\ delta_steps to k = 0) ->
  forall axes is_first v,
    In k axes ->
    joining_speed_loop from to threshold ang axes is_first v = F32.zero.
Proof.
  intros Hang Hk.
  induction axes as [|axis rest IH]; intros is_first v Hin; [destruct Hin|].
  cbn [joining_speed_loop]. rewrite Hang.
  destruct ((delta_steps from axis =? 0) && (delta_steps to axis =? 0)) eqn:Eboth.
  { apply IH. destruct Hin as [->|Hin]; [|exact Hin].
    apply andb_true_iff in Eboth as [E1 E2]. apply Z.eqb_eq in E1, E2. lia. }
  destruct ((delta_steps from axis =? 0) || (delta_steps to axis =? 0)) eqn:Eone;
    [reflexivity|].
  destruct (((delta_steps from axis <? 0) && (delta_steps to axis >? 0))
            || ((delta_steps from axis >? 0) && (delta_steps to axis <? 0)));
    [reflexivity|].
  assert (Hrest : In k rest).
  { destruct Hin as [->|Hin]; [|exact Hin]. exfalso.
    apply orb_false_iff in Eone as [E1 E2]. apply Z.eqb_neq in E1, E2. lia. }
  match goal with |- (if ?c then _ else _) = _ => destruct c; [reflexivity|] end.
  match goal with |- (if ?c then _ else _) = _ => destruct c; [|reflexivity] end.
  apply IH, Hrest.
Qed.

(** X20 (joining speed at corners).  [determine_joining_speed] looks at the
    axes only when the angle it is given is not below the threshold.  Below
    the threshold the move keeps its speed whatever follows, a halt
    included.  From the threshold on, the move ends at speed 0 as soon as
    one axis starts or stops between the two moves (it steps in one and not
    in the other), and in particular before a halt when it moves at all;
    and it keeps its speed when neither move steps on any axis. *)
Theorem joining_speed_corners (from to : AxisTarget) (threshold ang : float) :
  (F32.ltb ang threshold = true ->
   determine_joining_speed from to threshold ang = speed from) /\
  (F32.ltb ang threshold = false ->
   (forall k,
      (delta_steps from k = 0 /\ delta_steps to k <> 0) \/
      (delta_steps from k <> 0 /\ delta_steps to k = 0) ->
      determine_joining_speed from to threshold ang = F32.zero) /\
   ((forall k, delta_steps to k = 0) ->
    forall k, delta_steps from k <> 0 ->
      determine_joining_speed from to threshold ang = F32.zero)) /\
  ((forall k, delta_steps from k = 0 /\ delta_steps to k = 0) ->
   determine_joining_speed from to threshold ang = speed from).
Proof.
  unfold determine_joining_speed. split; [|split].
  - intros Hang. apply joining_speed_loop_gentle, Hang.
  - intros Hang. split.
    + intros k Hk.
      apply (joining_speed_loop_start_stop from to threshold ang k Hang Hk),
        all_axes_complete.
    + intros Hhalt k Hk.
      apply (joining_speed_loop_start_stop from to threshold ang k Hang);
        [right; split; [exact Hk | apply Hhalt] | apply all_axes_complete].
  - intros Hz. apply joining_speed_loop_still, Hz.
Qed.

Section RapidMove.

Variable atan2f : float -> float -> float.

(** X21 (rapid moves and the feedrate).  An accepted [rapid_move] builds
    its target by [machine_move] at
    [speed_factor * prog_speed_factor_ * feed] when that is positive and at
    the G0 feedrate of the machine otherwise, and it leaves the feedrate
    remembered for coordinated moves, and the program speed factor, as they
    were: a feed given with G0 does not carry over to the next G1. *)
Theorem rapid_move_feedrate (st st' : Impl) (feed : float) (axis : AxesRegister) :
  rapid_move atan2f st feed axis = Ok (true, st') ->
  let given := F32.mul (F32.mul (speed_factor (cfg_ st)) (prog_speed_factor_ st)) feed in
  machine_move atan2f st
    (if F32.gtb given F32.zero then given else g0_feedrate_mm_per_sec_ st) axis = Ok st' /\
  current_feedrate_mm_per_sec_ st' = current_feedrate_mm_per_sec_ st /\
  prog_speed_factor_ st' = prog_speed_factor_ st.
Proof.
  unfold rapid_move. intros H.
  destruct (test_homing_status_ok_cases st) as [[Eh _]|[Eh _]]; rewrite Eh in H;
    cbn [negb] in H; [|discriminate H].
  unfold test_within_machine_limits in H.
  assert (Hm : forall f, (s' <- machine_move atan2f st f axis ;; Ok (true, s'))
                         = Ok (true, st') ->
               machine_move atan2f st f axis = Ok st').
  { intros f Hs. bind_inv Hs. injection Hs as <-. exact E. }
  cbv zeta.
  assert (Hmove : machine_move atan2f st
            (if F32.gtb (F32.mul (F32.mul (speed_factor (cfg_ st)) (prog_speed_factor_ st))
                           feed) F32.zero
             then F32.mul (F32.mul (speed_factor (cfg_ st)) (prog_speed_factor_ st)) feed
             else g0_feedrate_mm_per_sec_ st) axis = Ok st').
  { destruct (range_check (cfg_ st)); cbn [negb] in H.
    - destruct (within_limits_loop_spec st axis all_axes)
        as [[El _]|(j & fmt & a & _ & El & _)]; rewrite El in H; cbn [negb] in H;
        [|discriminate H].
      apply Hm in H. exact H.
    - apply Hm in H. exact H. }
  split; [exact Hmove|].
  pose proof (machine_move_Ok _ _ _ _ _ Hmove)
    as (_ & _ & _ & _ & _ & _ & _ & _ & _ & _ & Hframe).
  split; rewrite Hframe; reflexivity.
Qed.

End RapidMove.

(** ** The segments of a move *)

Lemma motor_ops_motor_call (st : Impl) (op : MotorOp) :
  motor_ops_ (motor_call st op) = motor_ops_ st ++ [op].
Proof. reflexivity. Qed.

(** X22 (the segments of a move).  A returning [move_machine_steps] on a
    moving target asks the motor backend, after a wait for the queue to
    drain when the machine is synchronous, for at most three segments, in
    the sequence accel, cruise, decel, and for nothing else.  The accel
    segment goes from the speed the last move left on the defining axis to
    the speed the ramps settle on, the decel segment from there to the
    joining speed; the cruise segment runs at the speed the target had on
    entry, and it is sent exactly when it moves some driver.  Each segment
    carries the aux bits of the target, and the target comes back with the
    joining speed if it decelerates and with the settled speed if not. *)
Theorem segments_of_a_move (st st' : Impl)
    (last_pos target_pos upcoming target' : AxisTarget) :
  delta_steps target_pos (defining_axis target_pos) <> 0 ->
  move_machine_steps st last_pos target_pos upcoming = Ok (target', st') ->
  exists (p : RampPlan) (accel_command move_command decel_command : MotorMovement)
         (has_move : bool),
    plan_ramps st last_pos target_pos upcoming = Ok p /\
    motor_ops_ st' =
      motor_ops_ st
      ++ (if synchronous (cfg_ st) then [WaitQueueEmpty] else [])
      ++ map Enqueue (emitted (has_accel p) accel_command
                      ++ emitted has_move move_command
                      ++ emitted (has_decel p) decel_command) /\
    (has_accel p = true ->
     v0 accel_command = last_speed p /\ v1 accel_command = target_speed p) /\
    (has_decel p = true ->
     v0 decel_command = target_speed p /\ v1 decel_command = next_speed p) /\
    v0 move_command = speed target_pos /\ v1 move_command = speed target_pos /\
    (has_move = true <->
     exists m, (m < BEAGLEG_NUM_MOTORS)%nat /\ steps move_command m <> 0) /\
    mm_aux_bits accel_command = aux_bits target_pos /\
    mm_aux_bits move_command = aux_bits target_pos /\
    mm_aux_bits decel_command = aux_bits target_pos /\
    speed target' = (if has_decel p then next_speed p else target_speed p).
Proof.
  intros Hd H. unfold move_machine_steps in H.
  apply Z.eqb_neq in Hd. rewrite Hd in H.
  bind_inv H. rename a into p.
  bind_inv H. rename a into accel_command.
  bind_inv H. rename a into decel_command.
  bind_inv H. rename a into move1.
  bind_inv H. destruct a as [move2 nz2].
  bind_inv H. destruct a as [move3 has_move].
  injection H as <- <-.
  apply full_command_spec in E2 as [(Hv0 & Hv1 & Ha) _].
  pose proof (substract_steps_nonzero _ _ _ _ E4) as Hnz.
  apply substract_steps_spec in E3 as [(Hv0' & Hv1' & Ha') _].
  apply substract_steps_spec in E4 as [(Hv0'' & Hv1'' & Ha'') _].
  cbn [v0 v1 mm_aux_bits with_v] in Hv0, Hv1, Ha.
  assert (Haccel : (has_accel p = true ->
                    v0 accel_command = last_speed p /\ v1 accel_command = target_speed p)
                   /\ mm_aux_bits accel_command = aux_bits target_pos).
  { destruct (has_accel p).
    - apply ramp_command_spec in E0 as [(A0 & A1 & Aa) _].
      cbn [v0 v1 mm_aux_bits with_v] in A0, A1, Aa. auto.
    - apply Ok_inj in E0. subst accel_command. split; [discriminate | reflexivity]. }
  assert (Hdecel : (has_decel p = true ->
                    v0 decel_command = target_speed p /\ v1 decel_command = next_speed p)
                   /\ mm_aux_bits decel_command = aux_bits target_pos).
  { destruct (has_decel p).
    - apply ramp_command_spec in E1 as [(A0 & A1 & Aa) _].
      cbn [v0 v1 mm_aux_bits with_v] in A0, A1, Aa. auto.
    - apply Ok_inj in E1. subst decel_command. split; [discriminate | reflexivity]. }
  exists p, accel_command, move3, decel_command, has_move.
  split; [exact E|].
  split.
  { destruct (synchronous (cfg_ st)), (has_accel p), has_move, (has_decel p);
      cbn [emitted app map]; rewrite ?motor_ops_motor_call, <- ?app_assoc;
      cbn [app]; rewrite ?app_nil_r; reflexivity. }
  split; [exact (proj1 Haccel)|]. split; [exact (proj1 Hdecel)|].
  split; [congruence|]. split; [congruence|]. split; [exact Hnz|].
  split; [exact (proj2 Haccel)|]. split; [congruence|]. split; [exact (proj2 Hdecel)|].
  reflexivity.
Qed.

(** The diagonal move is sent as accel, cruise and decel; the ramps meet at
    the speed the plan settles on and the cruise runs at the speed of the
    target. *)
Lemma segments_of_a_move_witness :
  exists accel cruise decel : MotorMovement,
    motor_ops_ (snd diagonal_outcome) = [Enqueue accel; Enqueue cruise; Enqueue decel] /\
    v0 accel = last_speed diagonal_plan /\ v1 accel = target_speed diagonal_plan /\
    v0 decel = target_speed diagonal_plan /\ v1 decel = next_speed diagonal_plan /\
    v0 cruise = speed diagonal_target /\ v1 cruise = speed diagonal_target /\
    speed (fst diagonal_outcome) = next_speed diagonal_plan.
Proof.
  assert (Hrun : move_machine_steps default_machine AxisTarget_zero diagonal_target
                   (halt_after diagonal_target)
                 = Ok (fst diagonal_outcome, snd diagonal_outcome))
    by (vm_compute; reflexivity).
  assert (Hmoving : delta_steps diagonal_target (defining_axis diagonal_target) <> 0)
    by (vm_compute; discriminate).
  destruct (segments_of_a_move _ _ _ _ _ _ Hmoving Hrun)
    as (p & accel & cruise & decel & hm & Hp & Hops & Ha & Hd & Hc0 & Hc1 & _ & _ & _ & _
        & Hs).
  assert (p = diagonal_plan) by (unfold diagonal_plan; rewrite Hp; reflexivity).
  subst p.
  assert (Eacc : has_accel diagonal_plan = true) by (vm_compute; reflexivity).
  assert (Edec : has_decel diagonal_plan = true) by (vm_compute; reflexivity).
  rewrite Eacc, Edec in Hops. rewrite Edec in Hs.
  destruct (Ha Eacc) as [Ha0 Ha1]. destruct (Hd Edec) as [Hd0 Hd1].
  exists accel, cruise, decel.
  split.
  { destruct hm; [exact Hops|].
    apply (f_equal (@List.length MotorOp)) in Hops. vm_compute in Hops. discriminate Hops. }
  repeat (split; [assumption|]). exact Hs.
Defined.

Lemma rapid_diagonal_runs :
  rapid_move atan2f_on_axes default_machine F32.zero (mm 10 10 0 0)
  = Ok (true, snd rapid_diagonal_outcome).
Proof. vm_compute. reflexivity. Qed.

(** G0 X10 Y10 without a feed runs at the G0 feedrate and leaves the
    remembered feedrate alone. *)
Lemma rapid_move_feedrate_witness :
  machine_move atan2f_on_axes default_machine (g0_feedrate_mm_per_sec_ default_machine)
    (mm 10 10 0 0) = Ok (snd rapid_diagonal_outcome) /\
  current_feedrate_mm_per_sec_ (snd rapid_diagonal_outcome)
  = current_feedrate_mm_per_sec_ default_machine.
Proof.
  destruct (rapid_move_feedrate atan2f_on_axes _ _ _ _ rapid_diagonal_runs) as (H1 & H2 & _).
  split; [exact H1 | exact H2].
Defined.

(** ** Ramps never overrun the move *)








(** ** Where homing leaves the axes *)

Lemma GetHomeEndstop_frame (st st' : Impl) (k : GCodeParserAxis) :
  min_endstop_ st' = min_endstop_ st ->
  max_endstop_ st' = max_endstop_ st ->
  END_GPIO (board_ st') = END_GPIO (board_ st) ->
  GetHomeEndstop st' k = GetHomeEndstop st k.
Proof.
  intros Hmin Hmax Hend. unfold GetHomeEndstop, get_endstop_gpio_descriptor.
  rewrite Hmin, Hmax, Hend. reflexivity.
Qed.

(** One call of [home_axis], with or without a home switch. *)
Lemma home_axis_step (fuel : nat) (st st' : Impl) (axis : GCodeParserAxis) :
  home_axis fuel st axis = Ok st' ->
  exists last last' : AxisTarget,
    RingDeque.back (planning_buffer_ st) = Ok last /\
    RingDeque.back (planning_buffer_ st') = Ok last' /\
    (if fst (fst (GetHomeEndstop st axis)) =? 0
     then position_steps last' axis = position_steps last axis
     else round2int (F32.mul (GetHomePos st axis) (steps_per_mm (cfg_ st) axis))
          = Ok (position_steps last' axis)) /\
    (forall k, k <> axis -> position_steps last' k = position_steps last k) /\
    cfg_ st' = cfg_ st /\ min_endstop_ st' = min_endstop_ st /\
    max_endstop_ st' = max_endstop_ st /\
    END_GPIO (board_ st') = END_GPIO (board_ st).
Proof.
  intros H. destruct (fst (fst (GetHomeEndstop st axis)) =? 0) eqn:Eg.
  - assert (st' = st).
    { unfold home_axis in H. bind_inv H.
      destruct (GetHomeEndstop st axis) as [[g d] t]. cbn [fst] in Eg. rewrite Eg in H.
      injection H as <-. reflexivity. }
    subst st'. unfold home_axis in H. bind_inv H. rename a into last.
    exists last, last. repeat split; reflexivity || exact E.
  - apply Z.eqb_neq in Eg.
    destruct (home_axis_with_switch _ _ _ _ Eg H)
      as (last & last' & trigger & total & st1 & H1 & H2 & _ & H4 & H5 & _ & _ & _ & _ & _
          & Hc & Hmin & Hmax & Hend).
    exists last, last'. split; [exact H1|]. split; [exact H2|]. cbv zeta in H4.
    split.
    { rewrite GetHomePos_spec. apply Z.eqb_neq in Eg. rewrite Eg. exact H4. }
    split; [exact H5|]. auto.
Qed.

Lemma GetHomePos_frame (st st' : Impl) (k : GCodeParserAxis) :
  cfg_ st' = cfg_ st ->
  min_endstop_ st' = min_endstop_ st ->
  max_endstop_ st' = max_endstop_ st ->
  END_GPIO (board_ st') = END_GPIO (board_ st) ->
  GetHomePos st' k = GetHomePos st k.
Proof.
  intros Hc Hmin Hmax Hend.
  rewrite !GetHomePos_spec, (GetHomeEndstop_frame st st' k Hmin Hmax Hend), Hc. reflexivity.
Qed.

Lemma home_in_order_positions (fuel : nat) (axes_bitmap : Z) (order : string) :
  forall (st st' : Impl) (last : AxisTarget),
    home_in_order fuel order axes_bitmap st = Ok st' ->
    RingDeque.back (planning_buffer_ st) = Ok last ->
    exists last' : AxisTarget,
      RingDeque.back (planning_buffer_ st') = Ok last' /\
      homing_state_ st' = homing_state_ st /\
      forall k,
        if Z.testbit axes_bitmap (axis_index k) && listed k order
           && negb (fst (fst (GetHomeEndstop st k)) =? 0)
        then round2int (F32.mul (GetHomePos st k) (steps_per_mm (cfg_ st) k))
             = Ok (position_steps last' k)
        else position_steps last' k = position_steps last k.
Proof.
  induction order as [|c rest IH]; intros st st' last H Hlast.
  - cbn [home_in_order] in H. apply Ok_inj in H. subst st'.
    exists last. split; [exact Hlast|]. split; [reflexivity|].
    intros k. unfold listed. cbn [list_ascii_of_string existsb].
    rewrite andb_false_r. reflexivity.
  - cbn [home_in_order] in H.
    assert (Hlisted : forall k,
              listed k (String c rest)
              = match gcodep_letter2axis c with
                | Some a => axis_eqb a k
                | None => false
                end || listed k rest) by reflexivity.
    destruct (gcodep_letter2axis c) as [a|] eqn:Ec.
    + destruct (Z.testbit axes_bitmap (axis_index a)) eqn:Ebit; cbn [negb] in H.
      * bind_inv H. rename a0 into st1.
        destruct (home_axis_step _ _ _ _ E)
          as (last0 & last1 & Hb0 & Hb1 & Hpos & Hother & Hc & Hmin & Hmax & Hend).
        rewrite Hlast in Hb0. apply Ok_inj in Hb0. subst last0.
        destruct (IH _ _ _ H Hb1) as (last' & Hb' & Hh & Hk).
        exists last'. split; [exact Hb'|].
        split.
        { rewrite Hh. unfold home_axis in E. bind_inv E.
          destruct (GetHomeEndstop st a) as [[g d] t].
          destruct (g =? 0); [apply Ok_inj in E; subst st1; reflexivity|].
          destruct t as [t|]; [|apply Ok_inj in E; subst st1; reflexivity].
          bind_inv E. destruct a1 as [total st2]. bind_inv E. apply Ok_inj in E.
          subst st1. cbn [homing_state_ set_planning_buffer].
          pose proof (move_to_endstop_Ok _ _ _ _ _ _ _ _ _ _ E1)
            as (? & ? & ? & ? & ? & ? & _ & _ & _ & _ & _ & _ & _ & _ & _ & _ & Hframe & _).
          rewrite Hframe. reflexivity. }
        intros k. specialize (Hk k).
        rewrite (GetHomeEndstop_frame st st1 k Hmin Hmax Hend),
                (GetHomePos_frame st st1 k Hc Hmin Hmax Hend), Hc in Hk.
        rewrite Hlisted.
        destruct (Z.testbit axes_bitmap (axis_index k) && listed k rest
                  && negb (fst (fst (GetHomeEndstop st k)) =? 0)) eqn:Erest.
        { apply andb_true_iff in Erest as [Erest Esw].
          apply andb_true_iff in Erest as [Eb El].
          rewrite Eb, El, Esw, orb_true_r. exact Hk. }
        destruct (axis_eqb a k) eqn:Eak.
        { apply axis_eqb_eq in Eak. subst k. rewrite Ebit in *. cbn [andb orb] in *.
          destruct (fst (fst (GetHomeEndstop st a)) =? 0); cbn [negb].
          - rewrite Hk. exact Hpos.
          - rewrite Hk. exact Hpos. }
        cbn [orb]. rewrite Erest. rewrite Hk. apply Hother.
        intros ->. rewrite axis_eqb_refl in Eak. discriminate Eak.
      * destruct (IH _ _ _ H Hlast) as (last' & Hb' & Hh & Hk).
        exists last'. split; [exact Hb'|]. split; [exact Hh|].
        intros k. specialize (Hk k). rewrite Hlisted.
        destruct (axis_eqb a k) eqn:Eak; [|exact Hk].
        apply axis_eqb_eq in Eak. subst k. rewrite Ebit in *. cbn [andb] in *. exact Hk.
    + destruct (IH _ _ _ H Hlast) as (last' & Hb' & Hh & Hk).
      exists last'. split; [exact Hb'|]. split; [exact Hh|].
      intros k. rewrite Hlisted. exact (Hk k).
Qed.

(** X24 (where homing leaves the axes).  After a returning [go_home] every
    axis that is selected in the bitmap, named in [home_order] and has a
    home switch is, in the newest entry of the planning buffer, at the home
    position [GetHomePos] reports, in steps; every other axis (not
    selected, not in the home order, or without a home switch) is where it
    was before the call. *)
Theorem go_home_positions (fuel : nat) (st st' : Impl) (axes_bitmap : Z) :
  go_home fuel st axes_bitmap = Ok st' ->
  exists last last' : AxisTarget,
    RingDeque.back (planning_buffer_ st) = Ok last /\
    RingDeque.back (planning_buffer_ st') = Ok last' /\
    forall k,
      if homed_by st axes_bitmap k
      then round2int (F32.mul (GetHomePos st k) (steps_per_mm (cfg_ st) k))
           = Ok (position_steps last' k)
      else position_steps last' k = position_steps last k.
Proof.
  intros H. unfold go_home in H. bind_inv H. rename a into st1.
  bind_inv H. rename a into st2. apply Ok_inj in H. subst st'.
  destruct (bring_path_to_halt_Ok _ _ E)
    as (previous & sentinel & Hb & Hb1 & Hpos & _ & _ & _ & _ & _ & Hframe).
  assert (Hc : cfg_ st1 = cfg_ st) by (rewrite Hframe; reflexivity).
  assert (Hmin : min_endstop_ st1 = min_endstop_ st) by (rewrite Hframe; reflexivity).
  assert (Hmax : max_endstop_ st1 = max_endstop_ st) by (rewrite Hframe; reflexivity).
  assert (Hend : END_GPIO (board_ st1) = END_GPIO (board_ st))
    by (rewrite Hframe; reflexivity).
  destruct (home_in_order_positions _ _ _ _ _ _ E0 Hb1) as (last' & Hb' & _ & Hk).
  exists previous, last'. split; [exact Hb|].
  split; [exact Hb'|].
  intros k. specialize (Hk k).
  rewrite (GetHomeEndstop_frame st st1 k Hmin Hmax Hend),
          (GetHomePos_frame st st1 k Hc Hmin Hmax Hend), Hc in Hk.
  unfold homed_by.
  destruct (Z.testbit axes_bitmap (axis_index k) && listed k (home_order (cfg_ st))
            && negb (fst (fst (GetHomeEndstop st k)) =? 0)); [exact Hk|].
  rewrite Hk. apply Hpos.
Qed.

Lemma go_home_runs : go_home 10 moved_homing_machine 3 = Ok go_home_outcome.
Proof. vm_compute. reflexivity. Qed.

(** G28 X Y from X = Y = 1600 steps: X, which has a home switch, goes to
    its home position 0; Y, which has none, stays at 1600. *)
Lemma go_home_positions_witness :
  exists last' : AxisTarget,
    RingDeque.back (planning_buffer_ go_home_outcome) = Ok last' /\
    round2int (F32.mul (GetHomePos moved_homing_machine AXIS_X)
                 (steps_per_mm (cfg_ moved_homing_machine) AXIS_X))
    = Ok (position_steps last' AXIS_X) /\
    position_steps last' AXIS_Y = 1600.
Proof.
  destruct (go_home_positions _ _ _ _ go_home_runs) as (last & last' & Hb & Hb' & Hk).
  exists last'. split; [exact Hb'|].
  pose proof (Hk AXIS_X) as Hx. pose proof (Hk AXIS_Y) as Hy.
  assert (Ex : homed_by moved_homing_machine 3 AXIS_X = true) by (vm_compute; reflexivity).
  assert (Ey : homed_by moved_homing_machine 3 AXIS_Y = false) by (vm_compute; reflexivity).
  rewrite Ex in Hx. rewrite Ey in Hy.
  split; [exact Hx|]. rewrite Hy.
  vm_compute in Hb. apply Ok_inj in Hb. rewrite <- Hb. reflexivity.
Defined.
